(** * A shallow embedding of the Modbus-to-MQTT telemetry bridge

    [tcp.py] polls a list of PLCs over Modbus/TCP forever and republishes
    every successful read over MQTT; [ip.py] polls a fixed device list once
    and only prints.  Pure helpers are Rocq functions; code that talks to
    the outside world runs in a small exception-and-trace monad over an
    environment of oracles for the library calls (pymodbus, the MQTT SDK,
    the clock, the file system). *)

From stdpp Require Import base gmap list strings.
From Stdlib Require Import ZArith Ascii String DecimalString Lia.

Local Open Scope Z_scope.

(** ** Python values shared by both programs *)

(** The exception classes the two programs raise, catch or let through.
    [KeyboardInterrupt] and [SystemExit] derive from [BaseException] only;
    every other class here derives from [Exception]. *)
Inductive PyExc : Type :=
  | FileNotFoundError (msg : string)
  | KeyError (key : string)
  | ValueError (msg : string)
  | TypeError (msg : string)
  | ModbusException (msg : string)
  | OtherException (msg : string)
  | KeyboardInterrupt
  | SystemExit (code : Z).

(** [isinstance(e, Exception)] *)
Definition is_Exception (e : PyExc) : bool :=
  match e with
  | KeyboardInterrupt | SystemExit _ => false
  | _ => true
  end.

(** [isinstance(e, ModbusException)] *)
Definition is_ModbusException (e : PyExc) : bool :=
  match e with ModbusException _ => true | _ => false end.

(** [isinstance(e, TypeError)] *)
Definition is_TypeError (e : PyExc) : bool :=
  match e with TypeError _ => true | _ => false end.

(** [str(e)] *)
Definition exc_str (e : PyExc) : string :=
  match e with
  | FileNotFoundError m | ValueError m | TypeError m
  | ModbusException m | OtherException m => m
  | KeyError k => "'" +:+ k +:+ "'"
  | KeyboardInterrupt => EmptyString
  | SystemExit c => NilZero.string_of_int (Z.to_int c)
  end.

(** The result of a call that may raise. *)
Inductive Outcome (A : Type) : Type :=
  | Returns (a : A)
  | Raises (e : PyExc).
Arguments Returns {A} a.
Arguments Raises {A} e.

Definition returned {A} (o : Outcome A) : bool :=
  match o with Returns _ => true | Raises _ => false end.

(** An outcome that is a return or an exception deriving from
    [Exception]: what [except Exception] lets a caller survive. *)
Definition catchable {A} (o : Outcome A) : bool :=
  match o with Returns _ => true | Raises e => is_Exception e end.

(** ** Python [str] methods

    A character is a Unicode code point in U+0000..U+00FF, held in an
    [ascii]; a [str] is a [string] of them.  Text with characters beyond
    U+00FF is outside this model: there [isdigit()] accepts more
    characters that [int()] refuses (U+2074, U+2460, ...), and [int()]
    reads the decimal digits of other scripts. *)
Module PyStr.

Definition code (c : ascii) : N := N_of_ascii c.

(** [c.isspace()] on U+0000..U+00FF: TAB..CR, FS..US, space, NEL, NBSP. *)
Definition isspace (c : ascii) : bool :=
  let n := code c in
  ((9 <=? n) && (n <=? 13) || (28 <=? n) && (n <=? 32)
   || (n =? 133) || (n =? 160))%N.

(** The ASCII decimal digits, the only digits [int()] reads. *)
Definition is_decimal (c : ascii) : bool :=
  let n := code c in ((48 <=? n) && (n <=? 57))%N.

(** A one-character [isdigit()] on U+0000..U+00FF: the decimal digits
    and the superscripts two, three and one (U+00B2, U+00B3, U+00B9). *)
Definition isdigit_char (c : ascii) : bool :=
  let n := code c in
  (is_decimal c || (n =? 178) || (n =? 179) || (n =? 185))%N.

Fixpoint all_chars (p : ascii -> bool) (s : string) : bool :=
  match s with
  | EmptyString => true
  | String c s' => p c && all_chars p s'
  end.

(** [s.isdigit()]: at least one character and all of them digits. *)
Definition isdigit (s : string) : bool :=
  match s with
  | EmptyString => false
  | _ => all_chars isdigit_char s
  end.

Fixpoint lstrip (s : string) : string :=
  match s with
  | EmptyString => EmptyString
  | String c s' => if isspace c then lstrip s' else s
  end.

Fixpoint rstrip (s : string) : string :=
  match s with
  | EmptyString => EmptyString
  | String c s' =>
      match rstrip s' with
      | EmptyString => if isspace c then EmptyString else String c EmptyString
      | r => String c r
      end
  end.

(** [s.strip()] *)
Definition strip (s : string) : string := rstrip (lstrip s).

(** [s.split(sep)] for a one-character separator: never empty, and the
    pieces joined by [sep] give [s] back. *)
Fixpoint split (sep : ascii) (s : string) : list string :=
  match s with
  | EmptyString => [EmptyString]
  | String c s' =>
      if Ascii.eqb c sep then EmptyString :: split sep s'
      else match split sep s' with
           | [] => [String c EmptyString]
           | w :: ws => String c w :: ws
           end
  end.

Definition digit_value (c : ascii) : Z := Z.of_N (code c) - 48.

(** [str(n)] for an [int]. *)
Definition of_int (z : Z) : string := NilZero.string_of_int (Z.to_int z).

Definition hex_digit (n : N) : ascii :=
  ascii_of_N (if (n <? 10)%N then 48 + n else 87 + n)%N.

(** [c.isprintable()] on U+0000..U+00FF: not the control characters, not
    NBSP and not the soft hyphen. *)
Definition isprintable (c : ascii) : bool :=
  let n := code c in
  negb ((n <? 32) || (127 <=? n) && (n <=? 160) || (n =? 173))%N.

Fixpoint contains (c : ascii) (s : string) : bool :=
  match s with
  | EmptyString => false
  | String c' s' => Ascii.eqb c' c || contains c s'
  end.

Definition squote : ascii := ascii_of_N 39.
Definition dquote : ascii := ascii_of_N 34.
Definition backslash : ascii := ascii_of_N 92.

(** One character inside [repr(s)], with [quote] the quote chosen. *)
Definition repr_char (quote c : ascii) : string :=
  let n := code c in
  if Ascii.eqb c quote || Ascii.eqb c backslash then String backslash (String c EmptyString)
  else if (n =? 9)%N then String backslash "t"
  else if (n =? 10)%N then String backslash "n"
  else if (n =? 13)%N then String backslash "r"
  else if isprintable c then String c EmptyString
  else String backslash
         (String "x" (String (hex_digit (n / 16)) (String (hex_digit (n mod 16)) EmptyString))).

Fixpoint repr_chars (quote : ascii) (s : string) : string :=
  match s with
  | EmptyString => EmptyString
  | String c s' => repr_char quote c +:+ repr_chars quote s'
  end.

(** [repr(s)] for a [str]: single quotes, unless the text holds a single
    quote and no double quote. *)
Definition repr (s : string) : string :=
  let quote := if contains squote s && negb (contains dquote s) then dquote else squote in
  String quote (repr_chars quote s) +:+ String quote EmptyString.

(** The whitespace [int()] skips around a literal: TAB..CR and the
    space, and NEL and NBSP, which it reads as spaces; unlike [strip()],
    not FS..US. *)
Definition int_isspace (c : ascii) : bool :=
  let n := code c in
  ((9 <=? n) && (n <=? 13) || (n =? 32) || (n =? 133) || (n =? 160))%N.

Fixpoint skip_spaces (s : string) : string :=
  match s with
  | EmptyString => EmptyString
  | String c s' => if int_isspace c then skip_spaces s' else s
  end.

(** The scan of the digit part of a base-10 [int()] literal: decimal
    digits, with single underscores allowed between two digits, up to
    the first other character.  It gives the number of digits, their
    value and what follows them. *)
Fixpoint int_digits (s : string) (digits acc : Z) (after_digit : bool)
    : option (Z * Z * string) :=
  match s with
  | EmptyString => if after_digit then Some (digits, acc, s) else None
  | String c s' =>
      if is_decimal c then int_digits s' (digits + 1) (10 * acc + digit_value c) true
      else if Ascii.eqb c "_" then
        if after_digit then int_digits s' digits acc false else None
      else if after_digit then Some (digits, acc, s) else None
  end.

(** [sys.get_int_max_str_digits()], at its default. *)
Definition int_max_str_digits : Z := 4300.

(** The [ValueError] for a string that is no literal: its text holds the
    [repr] of the string, cut after 200 characters. *)
Definition invalid_literal (s : string) : PyExc :=
  ValueError ("invalid literal for int() with base 10: " +:+ String.substring 0 200 (repr s)).

Definition too_many_digits (digits : Z) : PyExc :=
  ValueError ("Exceeds the limit (" +:+ of_int int_max_str_digits
              +:+ " digits) for integer string conversion: value has " +:+ of_int digits
              +:+ " digits; use sys.set_int_max_str_digits() to increase the limit").

(** [int(s)] for a [str]: whitespace around the literal is skipped, one
    sign is allowed, the digits are counted against the limit before
    what follows them is looked at, and anything else raises
    [ValueError]. *)
Definition int (s : string) : Outcome Z :=
  let body := skip_spaces s in
  let '(negative, literal) :=
    match body with
    | EmptyString => (false, body)
    | String c d =>
        if Ascii.eqb c "+" then (false, d)
        else if Ascii.eqb c "-" then (true, d)
        else (false, body)
    end in
  match int_digits literal 0 0 false with
  | None => Raises (invalid_literal s)
  | Some (digits, value, rest) =>
      if int_max_str_digits <? digits then Raises (too_many_digits digits)
      else match skip_spaces rest with
           | EmptyString => Returns (if negative : bool then - value else value)
           | _ => Raises (invalid_literal s)
           end
  end.

(** [sep.join(pieces)] *)
Fixpoint join (sep : string) (pieces : list string) : string :=
  match pieces with
  | [] => EmptyString
  | [p] => p
  | p :: ps => p +:+ sep +:+ join sep ps
  end.

End PyStr.

(** ** Exceptions in pure code *)

#[global] Instance outcome_ret : MRet Outcome := fun A a => Returns a.
#[global] Instance outcome_bind : MBind Outcome := fun A B k o =>
  match o with
  | Returns a => k a
  | Raises e => Raises e
  end.

(** ** Modbus and MQTT data *)

(** One entry of a device's ["reads"] list: [{"address": a, "count": c}]. *)
Record ReadSpec : Type := mkReadSpec { address : Z; count : Z }.

(** A [ModbusTcpClient(ip, port=port)] object.  [cl_id] tells the objects
    apart: it is the number of clients constructed before this one. *)
Record Client : Type := mkClient { cl_id : nat; cl_host : string; cl_port : Z }.

(** What [client.read_holding_registers] returns: a register response, or
    a response for which [isError()] holds.  [repr] is [str(response)]. *)
Inductive Response : Type :=
  | RegistersResponse (registers : list Z) (repr : string)
  | ErrorResponse (exception_code : option Z) (repr : string).

Definition isError (r : Response) : bool :=
  match r with RegistersResponse _ _ => false | ErrorResponse _ _ => true end.

Definition resp_str (r : Response) : string :=
  match r with RegistersResponse _ s | ErrorResponse _ s => s end.

(** [response.registers] ([None] stands for a response without them). *)
Definition resp_registers (r : Response) : option (list Z) :=
  match r with RegistersResponse l _ => Some l | ErrorResponse _ _ => None end.

(** One element of the list [read_holding_registers] returns:
    [(address, values, error)], each of the last two possibly [None]. *)
Definition ReadTuple : Type := Z * option (list Z) * option string.

(** Truth value of [error] in [if error:]: [None] and the empty string are
    false. *)
Definition truthy (error : option string) : bool :=
  match error with
  | None => false
  | Some EmptyString => false
  | Some _ => true
  end.

(** The values a telemetry payload holds. *)
Inductive JValue : Type :=
  | JNull
  | JInt (z : Z)
  | JStr (s : string)
  | JIntList (l : list Z).

(** [json.dumps] with its defaults (separators [", "] and [": "],
    [ensure_ascii=True]) on a dict of such values. *)
Module Json.

Definition dquote : ascii := ascii_of_N 34.
Definition backslash : ascii := ascii_of_N 92.

Definition hex_digit (n : N) : ascii :=
  ascii_of_N (if (n <? 10)%N then 48 + n else 87 + n)%N.

Definition short_escape (letter : ascii) : string :=
  String backslash (String letter EmptyString).

(** The escape of one character. *)
Definition escape_char (c : ascii) : string :=
  let n := PyStr.code c in
  if (n =? 34)%N then short_escape dquote
  else if (n =? 92)%N then short_escape backslash
  else if (n =? 10)%N then short_escape "n"
  else if (n =? 13)%N then short_escape "r"
  else if (n =? 9)%N then short_escape "t"
  else if (n =? 8)%N then short_escape "b"
  else if (n =? 12)%N then short_escape "f"
  else if ((32 <=? n) && (n <=? 126))%N then String c EmptyString
  else String backslash ("u00" +:+
         String (hex_digit (n / 16)) (String (hex_digit (n mod 16)) EmptyString)).

Fixpoint escape (s : string) : string :=
  match s with
  | EmptyString => EmptyString
  | String c s' => escape_char c +:+ escape s'
  end.

Definition quote (s : string) : string :=
  String dquote (escape s) +:+ String dquote EmptyString.

Definition dumps_value (v : JValue) : string :=
  match v with
  | JNull => "null"
  | JInt z => PyStr.of_int z
  | JStr s => quote s
  | JIntList l => "[" +:+ PyStr.join ", " (map PyStr.of_int l) +:+ "]"
  end.

Definition dumps (d : list (string * JValue)) : string :=
  "{" +:+ PyStr.join ", " (map (fun kv => quote (fst kv) +:+ ": " +:+ dumps_value (snd kv)) d)
      +:+ "}".

End Json.

(** A telemetry payload: the dict [publish_to_aws] builds, in key order. *)
Definition payload_dict (timestamp : Z) (plc_name : string) (address : Z)
    (value : option (list Z)) : list (string * JValue) :=
  [ ("timestamp", JInt timestamp);
    ("plc_name", JStr plc_name);
    ("register_address", JInt address);
    ("value", match value with Some l => JIntList l | None => JNull end) ]%string.

(** ** Configuration *)

(** A [ConfigParser] after [read]: its sections in file order, each with
    its options (keys lower-cased, defaults merged in). *)
Record ConfigSection : Type := mkSection { sec_name : string; sec_opts : gmap string string }.
Definition ConfigParser : Type := list ConfigSection.

(** [config.sections()] *)
Definition sections (config : ConfigParser) : list string := map sec_name config.

(** [config[section]] *)
Definition config_getitem (config : ConfigParser) (section : string)
    : Outcome (gmap string string) :=
  match List.find (fun s => String.eqb (sec_name s) section) config with
  | Some s => Returns (sec_opts s)
  | None => Raises (KeyError section)
  end.

(** [proxy[key]] *)
Definition opt_getitem (opts : gmap string string) (key : string) : Outcome string :=
  match opts !! key with
  | Some v => Returns v
  | None => Raises (KeyError key)
  end.

(** The dict [load_aws_config] returns. *)
Record AwsSettings : Type := mkAwsSettings {
  thing_name : string;
  endpoint : string;
  aws_port : Z;
  root_ca : string;
  private_key : string;
  certificate : string;
  topic : string
}.

(** One element of [PLCS]. *)
Record PLC : Type := mkPLC {
  name : string;
  ip : string;
  port : Z;
  reads : list ReadSpec
}.

(** ** Effects: events, environment and the program monad *)

(** The lines the programs print or log, one constructor per call site,
    holding the values the f-string interpolates. *)
Inductive LogMsg : Type :=
  | LogArchitecture (arch : string)
  | LogWorkingDirectory (cwd : string)
  | LogLoadedFiles (read_files : list string)
  | LogSectionsFound (names : list string)
  | LogPlcsLoaded (names : list string)
  | LogConfigError (e : PyExc)
  | LogMqttConnected (thing : string)
  | LogMqttConnectionFailed (e : PyExc)
  | LogConnectFailed (plc_name host : string) (port : Z)
  | LogConnected (plc_name : string)
  | LogReadFailed (plc_name : string) (address : Z) (error : option string)
  | LogValues (plc_name : string) (address : Z) (values : option (list Z))
  | LogPublished (topic : string) (payload : list (string * JValue))
  | LogPublishFailed (e : PyExc)
  | LogDisconnected (plc_name : string)
  | LogStopped
  | LogConnecting (dev_name host : string) (port : Z)
  | LogDeviceError (dev_name : string) (e : PyExc).

(** What the program does to the outside world, in the order it does it.
    A call to a library records the outcome the library gave. *)
Inductive Event : Type :=
  | EvLog (m : LogMsg)
  | EvNewClient (c : Client)
  | EvConnect (c : Client) (r : Outcome bool)
  | EvRead (c : Client) (address count : Z) (unit : option Z) (r : Outcome Response)
  | EvClose (c : Client)
  | EvMqttSetup (settings : AwsSettings)
  | EvMqttConnect (r : Outcome bool)
  | EvPublish (topic message : string) (qos : Z) (r : Outcome bool)
  | EvSleep (seconds : Z) (r : Outcome ())
  | EvInput (prompt : string) (r : Outcome string).

Definition Trace : Type := list Event.

(** The libraries and the operating system.  A call that talks to a
    device, the broker or the clock may answer differently every time: its
    oracle sees everything that happened before the call. *)
Record Env : Type := mkEnv {
  platform_architecture : string;
  os_getcwd : string;
  os_path_exists : string -> bool;
  os_path_join : string -> string -> string;
  (* [config.read(filename)]: the files read and the parsed contents *)
  config_read : string -> Outcome (list string * ConfigParser);
  modbus_connect : Trace -> Client -> Outcome bool;
  modbus_read : Trace -> Client -> Z -> Z -> option Z -> Outcome Response;
  mqtt_connect : Trace -> Outcome bool;
  mqtt_publish : Trace -> string -> string -> Z -> Outcome bool;
  (* [int(time.time() * 1000)] *)
  time_ms : Trace -> Z;
  time_sleep : Trace -> Z -> Outcome ();
  (* [input(prompt)]: the line typed, or [EOFError] on a closed standard
     input, or [KeyboardInterrupt] *)
  console_input : Trace -> string -> Outcome string
}.

(** A program reads the history and gives an outcome and the events it
    added to the history. *)
Definition Prog (A : Type) : Type := Trace -> Outcome A * Trace.

#[global] Instance prog_ret : MRet Prog := fun A a _ => (Returns a, []).

#[global] Instance prog_bind : MBind Prog := fun A B k m h =>
  match m h with
  | (Returns a, es) => let '(r, es') := k a (h ++ es) in (r, es ++ es')
  | (Raises e, es) => (Raises e, es)
  end.

(** [raise e] *)
Definition raise {A} (e : PyExc) : Prog A := fun _ => (Raises e, []).

(** A pure computation that may raise. *)
Definition lift {A} (o : Outcome A) : Prog A := fun _ => (o, []).

Definition emit (ev : Event) : Prog () := fun _ => (Returns (), [ev]).

(** A library call: ask the oracle and record the call with its outcome. *)
Definition call {A} (oracle : Trace -> Outcome A) (record : Outcome A -> Event) : Prog A :=
  fun h => let r := oracle h in (r, [record r]).

(** [try: body except ...: handler]; [handler e] is [None] when no
    [except] clause matches [e]. *)
Definition try_except {A} (body : Prog A) (handler : PyExc -> option (Prog A)) : Prog A :=
  fun h =>
    match body h with
    | (Raises e, es) =>
        match handler e with
        | Some k => let '(r, es') := k (h ++ es) in (r, es ++ es')
        | None => (Raises e, es)
        end
    | done => done
    end.

(** [try: body finally: final] *)
Definition try_finally {A} (body : Prog A) (final : Prog ()) : Prog A :=
  fun h =>
    let '(r, es) := body h in
    let '(rf, es') := final (h ++ es) in
    (match rf with Raises e => Raises e | Returns _ => r end, es ++ es').

(** [for x in l: body x] *)
Fixpoint for_each {A} (l : list A) (body : A -> Prog ()) : Prog () :=
  match l with
  | [] => mret ()
  | x :: l' => body x ;; for_each l' body
  end.

(** [while True: body], cut after [fuel] iterations: it returns only when
    the fuel ran out, the loop still going. *)
Fixpoint while_true (fuel : nat) (body : Prog ()) : Prog () :=
  match fuel with
  | O => mret ()
  | S n => body ;; while_true n body
  end.

Definition log (m : LogMsg) : Prog () := emit (EvLog m).

(** The number of clients constructed so far. *)
Definition count_clients (h : Trace) : nat :=
  List.length (List.filter (fun ev => match ev with EvNewClient _ => true | _ => false end) h).

(** [ModbusTcpClient(host, port=port)] *)
Definition ModbusTcpClient (host : string) (port : Z) : Prog Client :=
  fun h => let c := mkClient (count_clients h) host port in (Returns c, [EvNewClient c]).

Definition client_close (c : Client) : Prog () := emit (EvClose c).

(** The end of a run of a program. *)
Inductive ProcessEnd : Type :=
  | Exited (code : Z)          (* the script ended, or [sys.exit(code)] *)
  | Traceback (e : PyExc)      (* an exception nobody caught *)
  | StillPolling.              (* the fuel ran out inside [while True] *)

(** What the interpreter does with an exception that reaches the top. *)
Definition uncaught (e : PyExc) : ProcessEnd :=
  match e with
  | SystemExit c => Exited c
  | _ => Traceback e
  end.

(** The process ended with a non-zero status. *)
Definition fatal (p : ProcessEnd) : bool :=
  match p with
  | Exited c => negb (c =? 0)
  | Traceback _ => true
  | StillPolling => false
  end.

(** ** tcp.py *)
Module Tcp.
Section WithEnv.
Variable env : Env.

Definition load_config_debug (filename : string) : Prog ConfigParser :=
  log (LogWorkingDirectory (os_getcwd env)) ;;
  if negb (os_path_exists env filename) then
    raise (FileNotFoundError ("Config file not found at: " +:+ filename))
  else
    '(read_files, config) ← lift (config_read env filename);
    log (LogLoadedFiles read_files) ;;
    log (LogSectionsFound (sections config)) ;;
    if negb (bool_decide ("AWS"%string ∈ sections config)) then
      raise (KeyError "Missing [AWS] section in config file.")
    else mret config.

(** The body of the loop over the three certificate keys. *)
Definition check_cert (aws_config : gmap string string) (certs_folder key : string)
    : Outcome () :=
  file ← opt_getitem aws_config key;
  let cert_path := os_path_join env certs_folder file in
  if negb (os_path_exists env cert_path) then
    Raises (FileNotFoundError ("Certificate file " +:+ key +:+ " not found at: " +:+ cert_path))
  else mret ().

Definition load_aws_config (config : ConfigParser) : Outcome AwsSettings :=
  aws_config ← config_getitem config "AWS";
  certs_folder ← opt_getitem aws_config "certs_folder";
  check_cert aws_config certs_folder "root_ca" ;;
  check_cert aws_config certs_folder "private_key" ;;
  check_cert aws_config certs_folder "certificate" ;;
  thing ← opt_getitem aws_config "thing_name";
  endp ← opt_getitem aws_config "endpoint";
  port_raw ← opt_getitem aws_config "port";
  port_int ← PyStr.int port_raw;
  ca ← opt_getitem aws_config "root_ca";
  key ← opt_getitem aws_config "private_key";
  cert ← opt_getitem aws_config "certificate";
  top ← opt_getitem aws_config "topic";
  mret (mkAwsSettings thing endp port_int
          (os_path_join env certs_folder ca)
          (os_path_join env certs_folder key)
          (os_path_join env certs_folder cert) top).

(** The loop [for q in queries_raw.split(";")], with [reads] the list
    built so far. *)
Fixpoint parse_queries (entries : list string) (reads : list ReadSpec)
    : Outcome (list ReadSpec) :=
  match entries with
  | [] => mret reads
  | q :: rest =>
      match PyStr.strip q with
      | EmptyString => parse_queries rest reads            (* continue *)
      | stripped =>
          match PyStr.split "," stripped with
          | [p0; p1] =>
              if PyStr.isdigit p0 && PyStr.isdigit p1 then
                a ← PyStr.int p0;
                c ← PyStr.int p1;
                parse_queries rest (reads ++ [mkReadSpec a c])
              else parse_queries rest reads
          | _ => parse_queries rest reads
          end
      end
  end.

(** The body of the loop over the sections, for a section other than
    [AWS]: the PLC record it appends. *)
Definition plc_of_section (opts : gmap string string) : Outcome PLC :=
  let queries_raw := default EmptyString (opts !! "queries"%string) in
  rds ← parse_queries (PyStr.split ";" queries_raw) [];
  nm ← opt_getitem opts "name";
  host ← opt_getitem opts "ip";
  prt ← match opts !! "port"%string with
        | Some v => PyStr.int v
        | None => Returns 502
        end;
  mret (mkPLC nm host prt rds).

Fixpoint load_plcs_loop (config : ConfigParser) (names : list string) (plcs : list PLC)
    : Outcome (list PLC) :=
  match names with
  | [] => mret plcs
  | section :: rest =>
      if negb (String.eqb section "AWS") then
        opts ← config_getitem config section;
        plc ← plc_of_section opts;
        load_plcs_loop config rest (plcs ++ [plc])
      else load_plcs_loop config rest plcs
  end.

Definition load_plcs_from_config (config : ConfigParser) : Prog (list PLC) :=
  plcs ← lift (load_plcs_loop config (sections config) []);
  log (LogPlcsLoaded (map name plcs)) ;;
  mret plcs.

(** [client.read_holding_registers(address=..., count=..., unit=...)] *)
Definition client_read (c : Client) (addr cnt : Z) (unit : option Z) : Prog Response :=
  call (fun h => modbus_read env h c addr cnt unit) (EvRead c addr cnt unit).

(** The loop of [read_holding_registers], with [results] the list built
    so far. *)
Fixpoint read_loop (client : Client) (rds : list ReadSpec) (results : list ReadTuple)
    : Prog (list ReadTuple) :=
  match rds with
  | [] => mret results
  | item :: rest =>
      let addr := address item in
      let cnt := count item in
      results' ← try_except
        (response ← client_read client addr cnt (Some 1);
         if isError response then
           mret (results ++ [(addr, None, Some ("Error: " +:+ resp_str response))])
         else
           mret (results ++ [(addr, resp_registers response, None)]))
        (fun e =>
           if is_ModbusException e then
             Some (mret (results ++ [(addr, None, Some ("Modbus Error: " +:+ exc_str e))]))
           else if is_Exception e then
             Some (mret (results ++ [(addr, None, Some ("Error: " +:+ exc_str e))]))
           else None);
      read_loop client rest results'
  end.

Definition read_holding_registers (client : Client) (rds : list ReadSpec)
    : Prog (list ReadTuple) :=
  read_loop client rds [].

Definition publish_to_aws (top plc_name : string) (addr : Z) (value : option (list Z))
    : Prog () :=
  fun h =>
    let payload := payload_dict (time_ms env h) plc_name addr value in
    try_except
      (call (fun h' => mqtt_publish env h' top (Json.dumps payload) 0)
            (EvPublish top (Json.dumps payload) 0) ;;
       log (LogPublished top payload))
      (fun e => if is_Exception e then Some (log (LogPublishFailed e)) else None)
      h.

(** The body of [for address, values, error in results]. *)
Definition handle_result (top : string) (plc : PLC) (r : ReadTuple) : Prog () :=
  let '(addr, values, error) := r in
  if truthy error then log (LogReadFailed (name plc) addr error)
  else
    log (LogValues (name plc) addr values) ;;
    publish_to_aws top (name plc) addr values.

(** The body of [for plc in PLCS]. *)
Definition poll_plc (top : string) (plc : PLC) : Prog () :=
  client ← ModbusTcpClient (ip plc) (port plc);
  ok ← call (fun h => modbus_connect env h client) (EvConnect client);
  if negb ok then
    log (LogConnectFailed (name plc) (ip plc) (port plc)) ;;
    client_close client                                    (* continue *)
  else
    log (LogConnected (name plc)) ;;
    results ← read_holding_registers client (reads plc);
    for_each results (handle_result top plc) ;;
    client_close client ;;
    log (LogDisconnected (name plc)).

Definition sleep (seconds : Z) : Prog () :=
  call (fun h => time_sleep env h seconds) (EvSleep seconds).

(** One sweep: the loop [for plc in PLCS]. *)
Definition sweep (top : string) (plcs : list PLC) : Prog () :=
  for_each plcs (poll_plc top).

(** [while True:] a sweep, then [time.sleep(5)]. *)
Definition polling (fuel : nat) (top : string) (plcs : list PLC) : Prog () :=
  while_true fuel (sweep top plcs ;; sleep 5).

Definition config_file : string := "D:\Server code\aws\config.ini".

(** The three loading calls inside the first [try]. *)
Definition load_configuration : Prog (AwsSettings * list PLC) :=
  config ← load_config_debug config_file;
  aws_settings ← lift (load_aws_config config);
  plcs ← load_plcs_from_config config;
  mret (aws_settings, plcs).

(** [mqtt_client.connect()] inside the second [try]. *)
Definition connect_broker (aws_settings : AwsSettings) : Prog () :=
  call (mqtt_connect env) EvMqttConnect ;;
  log (LogMqttConnected (thing_name aws_settings)).

(** Everything before the polling loop; [sys.exit(1)] raises
    [SystemExit 1]. *)
Definition startup : Prog (AwsSettings * list PLC) :=
  log (LogArchitecture (platform_architecture env)) ;;
  '(aws_settings, plcs) ← try_except load_configuration
      (fun e =>
         match e with
         | FileNotFoundError _ | KeyError _ =>
             Some (log (LogConfigError e) ;; raise (SystemExit 1))
         | _ => None
         end);
  emit (EvMqttSetup aws_settings) ;;
  try_except (connect_broker aws_settings)
    (fun e =>
       if is_Exception e then
         Some (log (LogMqttConnectionFailed e) ;; raise (SystemExit 1))
       else None) ;;
  mret (aws_settings, plcs).

(** [input("Press Enter to exit...")] *)
Definition press_enter : Prog string :=
  call (fun h => console_input env h "Press Enter to exit...")
       (EvInput "Press Enter to exit...").

(** What the [try] statement around the loop does once [e] leaves the
    loop: the [except KeyboardInterrupt] clause, then [finally].  An
    exception raised inside [finally] replaces the one on its way out. *)
Definition shutdown (e : PyExc) : Prog () :=
  try_finally
    (try_except (raise e)
       (fun e' => match e' with
                  | KeyboardInterrupt => Some (log LogStopped)
                  | _ => None
                  end))
    (press_enter ;; mret ()).

(** The script, with [fuel] bounding the iterations of [while True]. *)
Definition main (fuel : nat) : Trace -> ProcessEnd * Trace :=
  fun h =>
    match startup h with
    | (Raises e, es) => (uncaught e, es)
    | (Returns (aws_settings, plcs), es) =>
        match polling fuel (topic aws_settings) plcs (h ++ es) with
        | (Returns _, es') => (StillPolling, es ++ es')
        | (Raises e, es') =>
            let '(r, es'') := shutdown e (h ++ es ++ es') in
            (match r with Returns _ => Exited 0 | Raises e' => uncaught e' end,
             es ++ es' ++ es'')
        end
    end.

End WithEnv.
End Tcp.

(** ** ip.py *)
Module Ip.

(** One element of [DEVICES]; ["port"] may be missing. *)
Record Device : Type := mkDevice {
  name : string;
  ip : string;
  port : option Z;
  reads : list ReadSpec
}.

Definition DEVICES : list Device :=
  [ mkDevice "Modbus_Device_1" "192.168.0.12" (Some 502) [mkReadSpec 0 2];
    mkDevice "Modbus_Device_2" "192.168.0.11" (Some 502)
      [mkReadSpec 0 2; mkReadSpec 1 2] ].

Section WithEnv.
Variable env : Env.

Definition client_read (c : Client) (addr cnt : Z) (unit : option Z) : Prog Response :=
  call (fun h => modbus_read env h c addr cnt unit) (EvRead c addr cnt unit).

(** [getattr(response, "exception_code", "Unknown")] inside the f-string *)
Definition ex_code_str (r : Response) : string :=
  match r with
  | ErrorResponse (Some code) _ => PyStr.of_int code
  | _ => "Unknown"
  end.

Fixpoint read_loop (client : Client) (rds : list ReadSpec) (results : list ReadTuple)
    : Prog (list ReadTuple) :=
  match rds with
  | [] => mret results
  | item :: rest =>
      let addr := address item in
      let cnt := count item in
      results' ← try_except
        (response ← try_except
             (client_read client addr cnt (Some 1))
             (fun e => if is_TypeError e then Some (client_read client addr cnt None)
                       else None);
         if isError response then
           mret (results ++
                 [(addr, None, Some ("Modbus Exception Code: " +:+ ex_code_str response))])
         else
           mret (results ++ [(addr, resp_registers response, None)]))
        (fun e =>
           if is_ModbusException e then
             Some (mret (results ++ [(addr, None, Some ("Modbus Error: " +:+ exc_str e))]))
           else if is_Exception e then
             Some (mret (results ++ [(addr, None, Some ("Error: " +:+ exc_str e))]))
           else None);
      read_loop client rest results'
  end.

Definition read_holding_registers (client : Client) (rds : list ReadSpec)
    : Prog (list ReadTuple) :=
  read_loop client rds [].

(** The body of [for address, values, error in results]. *)
Definition print_result (dev_name : string) (r : ReadTuple) : Prog () :=
  let '(addr, values, error) := r in
  if truthy error then log (LogReadFailed dev_name addr error)
  else log (LogValues dev_name addr values).

(** The statements inside [try:] in [connect_and_read]. *)
Definition session (nm host : string) (prt : Z) (rds : list ReadSpec) (client : Client)
    : Prog () :=
  log (LogConnecting nm host prt) ;;
  ok ← call (fun h => modbus_connect env h client) (EvConnect client);
  if negb ok then
    log (LogConnectFailed nm host prt)                       (* return *)
  else
    log (LogConnected nm) ;;
    results ← read_holding_registers client rds;
    for_each results (print_result nm).

Definition connect_and_read (device_config : Device) : Prog () :=
  let nm := name device_config in
  let host := ip device_config in
  let prt := default 502 (port device_config) in
  let rds := reads device_config in
  client ← ModbusTcpClient host prt;
  try_finally
    (try_except (session nm host prt rds client)
       (fun e => if is_Exception e then Some (log (LogDeviceError nm e)) else None))
    (client_close client ;;
     log (LogDisconnected nm)).

Definition sleep (seconds : Z) : Prog () :=
  call (fun h => time_sleep env h seconds) (EvSleep seconds).

(** The loop of the script over a device list. *)
Definition run (devices : list Device) : Prog () :=
  for_each devices (fun device => connect_and_read device ;; sleep 1).

Definition main : Trace -> ProcessEnd * Trace :=
  fun h =>
    match run DEVICES h with
    | (Returns _, es) => (Exited 0, es)
    | (Raises e, es) => (uncaught e, es)
    end.

End WithEnv.
End Ip.

(** ** Observations on traces and results *)

(** The calls to [client.read_holding_registers] a trace holds:
    client, address, count, the [unit] keyword and the outcome. *)
Definition ReadCall : Type := Client * Z * Z * option Z * Outcome Response.

Definition read_calls (es : Trace) : list ReadCall :=
  omap (fun ev => match ev with
                  | EvRead c a n u r => Some (c, a, n, u, r)
                  | _ => None
                  end) es.

(** The [(topic, message)] pairs handed to [mqtt_client.publish]. *)
Definition publishes (es : Trace) : list (string * string) :=
  omap (fun ev => match ev with
                  | EvPublish t m _ _ => Some (t, m)
                  | _ => None
                  end) es.

(** The calls to [client.connect()] with their outcomes. *)
Definition connects (es : Trace) : list (Client * Outcome bool) :=
  omap (fun ev => match ev with
                  | EvConnect c r => Some (c, r)
                  | _ => None
                  end) es.

(** The clients [close()] was called on. *)
Definition closes (es : Trace) : list Client :=
  omap (fun ev => match ev with
                  | EvClose c => Some c
                  | _ => None
                  end) es.

(** A read result as the consumer sees it: the address, and the values
    when [if error:] takes the else branch. *)
Definition result_view (r : ReadTuple) : Z * option (list Z) :=
  let '(a, values, error) := r in (a, if truthy error then None else values).

(** The spec's [Err]: the consumer's [if error:] holds. *)
Definition is_err (r : ReadTuple) : bool := truthy (snd r).

(** A call as the device answered it: the address, and the registers when
    the call returned a response that is not an error. *)
Definition call_view (c : ReadCall) : Z * option (list Z) :=
  let '(_, a, _, _, o) := c in
  (a, match o with Returns resp => resp_registers resp | Raises _ => None end).

(** A call that failed: an error response or an exception. *)
Definition call_failed (c : ReadCall) : bool :=
  match snd c with Returns resp => isError resp | Raises _ => true end.

Definition call_key (c : ReadCall) : Z * Z * option Z :=
  let '(_, a, n, u, _) := c in (a, n, u).

Definition call_outcome (c : ReadCall) : Outcome Response := snd c.

(** In ip.py a call with [unit] that raises [TypeError] is made again
    without [unit]: the second call stands for the read. *)
Definition superseded (c : ReadCall) : bool :=
  match c with
  | (_, _, _, Some _, Raises (TypeError _)) => true
  | _ => false
  end.

Definition final_calls (es : Trace) : list ReadCall :=
  List.filter (fun c => negb (superseded c)) (read_calls es).

(** A call [client.read_holding_registers(address=a, count=n, unit=1)]
    first binds its arguments to the parameters of the library's method.
    When the method has no [unit] parameter the call raises [TypeError]
    there, before the body of the method runs, and nothing is sent to
    the device.  So a call is a request to the device when it is made
    without [unit], or when the library has the parameter ([has_unit]). *)
Definition is_request (has_unit : bool) (c : ReadCall) : bool :=
  match c with
  | (_, _, _, Some _, _) => has_unit
  | (_, _, _, None, _) => true
  end.

Definition requests (has_unit : bool) (es : Trace) : list ReadCall :=
  List.filter (is_request has_unit) (read_calls es).

(** What the [except] clauses of tcp.py's reader make of the outcome of
    the call for [addr]. *)
Definition tcp_classify (addr : Z) (o : Outcome Response) : Outcome ReadTuple :=
  match o with
  | Returns response =>
      Returns (if isError response
               then (addr, None, Some ("Error: " +:+ resp_str response))
               else (addr, resp_registers response, None))
  | Raises e =>
      if is_ModbusException e then
        Returns (addr, None, Some ("Modbus Error: " +:+ exc_str e))
      else if is_Exception e then Returns (addr, None, Some ("Error: " +:+ exc_str e))
      else Raises e
  end.

(** The same for ip.py's reader. *)
Definition ip_classify (addr : Z) (o : Outcome Response) : Outcome ReadTuple :=
  match o with
  | Returns response =>
      Returns (if isError response
               then (addr, None,
                     Some ("Modbus Exception Code: " +:+ Ip.ex_code_str response))
               else (addr, resp_registers response, None))
  | Raises e =>
      if is_ModbusException e then
        Returns (addr, None, Some ("Modbus Error: " +:+ exc_str e))
      else if is_Exception e then Returns (addr, None, Some ("Error: " +:+ exc_str e))
      else Raises e
  end.

(** The calls tcp.py makes for one spec, and the outcome that stands. *)
Definition tcp_attempt (env : Env) (client : Client) (h : Trace) (item : ReadSpec)
    : Trace * Outcome Response :=
  let o := modbus_read env h client (address item) (count item) (Some 1) in
  ([EvRead client (address item) (count item) (Some 1) o], o).

(** The calls ip.py makes for one spec, and the outcome that stands. *)
Definition ip_attempt (env : Env) (client : Client) (h : Trace) (item : ReadSpec)
    : Trace * Outcome Response :=
  let a := address item in
  let n := count item in
  let o1 := modbus_read env h client a n (Some 1) in
  let ev1 := EvRead client a n (Some 1) o1 in
  match o1 with
  | Raises (TypeError _) =>
      let o2 := modbus_read env (h ++ [ev1]) client a n None in
      ([ev1; EvRead client a n None o2], o2)
  | _ => ([ev1], o1)
  end.

(** The calls ip.py may make for the specs [rds], in order: one call with
    [unit=1] per spec, followed by one call without [unit] exactly when
    the first raised [TypeError]. *)
Fixpoint ip_calls_ok (rds : list ReadSpec) (calls : list ReadCall) : bool :=
  match rds, calls with
  | [], [] => true
  | item :: rest, (_, a, n, Some 1, Raises (TypeError _)) :: (_, a', n', None, _) :: calls' =>
      (a =? address item) && (n =? count item) && (a' =? address item)
      && (n' =? count item) && ip_calls_ok rest calls'
  | item :: rest, (_, a, n, Some 1, Raises (TypeError _)) :: _ => false
  | item :: rest, (_, a, n, Some 1, _) :: calls' =>
      (a =? address item) && (n =? count item) && ip_calls_ok rest calls'
  | _, _ => false
  end.

(** What the reader owes for the specs [rds], with [calls_of] picking the
    calls that stand for the reads: it returns, with one result per spec
    and one standing call per spec, both in the order of [rds]; each
    result reports what its call gave; and the results that are errors
    are as many as the calls that failed. *)
Definition one_result_per_spec (calls_of : Trace -> list ReadCall) (rds : list ReadSpec)
    (run : Outcome (list ReadTuple) * Trace) : Prop :=
  exists results es,
    run = (Returns results, es)
    /\ List.length results = List.length rds
    /\ map (fun r => fst (result_view r)) results = map address rds
    /\ map (fun c => fst (fst (call_key c))) (calls_of es) = map address rds
    /\ map (fun c => snd (fst (call_key c))) (calls_of es) = map count rds
    /\ map result_view results = map call_view (calls_of es)
    /\ map is_err results = map call_failed (calls_of es)
    /\ List.length (List.filter is_err results)
       = List.length (List.filter call_failed (calls_of es)).

(** [pub] is the telemetry for the reading [view] of the device
    [plc_name]: it goes to [top] and its message is the JSON text of a
    payload for that device, address and values, stamped at some time. *)
Definition telemetry (top plc_name : string) (view : Z * option (list Z))
    (pub : string * string) : Prop :=
  fst pub = top
  /\ exists ts, snd pub = Json.dumps (payload_dict ts plc_name (fst view) (snd view)).

(** The calls that gave registers. *)
Definition ok_calls (es : Trace) : list ReadCall :=
  List.filter (fun c => negb (call_failed c)) (read_calls es).

(** One device's share of a sweep: one connect attempt, to the device's
    host and port; nothing is read or published unless it answered
    [True]. *)
Definition attempted_once (host : string) (prt : Z) (seg : Trace) : Prop :=
  exists c o,
    connects seg = [(c, o)] /\ cl_host c = host /\ cl_port c = prt
    /\ (o <> Returns true -> read_calls seg = [] /\ publishes seg = []).

(** One PLC's share of a sweep of tcp.py when nothing interrupts it: one
    connect attempt, answered by [b]; one [close()], on the same client;
    no read and no publish when [b] is false, one call per spec when it
    is true; and the publishes are the telemetry of the calls that gave
    registers, one each, in the order of the calls. *)
Definition tcp_segment_ok (top : string) (plc : PLC) (seg : Trace) : Prop :=
  exists c b,
    connects seg = [(c, Returns b)]
    /\ cl_host c = ip plc /\ cl_port c = port plc
    /\ closes seg = [c]
    /\ (b = false -> read_calls seg = [] /\ publishes seg = [])
    /\ (b = true ->
        map call_key (read_calls seg)
        = map (fun s => (address s, count s, Some 1)) (reads plc))
    /\ Forall2 (telemetry top (name plc)) (map call_view (ok_calls seg)) (publishes seg).

(** *** Open sessions *)

Definition client_eqb (c1 c2 : Client) : bool :=
  Nat.eqb (cl_id c1) (cl_id c2) && String.eqb (cl_host c1) (cl_host c2)
  && (cl_port c1 =? cl_port c2).

(** The sessions that are open after one more event: a connect that
    answered [True] opens one, [close()] ends those of its client. *)
Definition step_open (open : list Client) (ev : Event) : list Client :=
  match ev with
  | EvConnect c (Returns true) => c :: open
  | EvClose c => List.filter (fun c' => negb (client_eqb c c')) open
  | _ => open
  end.

Definition open_after (open : list Client) (es : Trace) : list Client :=
  fold_left step_open es open.

(** At no point of [es], started with the sessions [open], is more than
    one session open. *)
Fixpoint at_most_one_open (open : list Client) (es : Trace) : bool :=
  match es with
  | [] => true
  | ev :: es' =>
      (List.length (step_open open ev) <=? 1)%nat
      && at_most_one_open (step_open open ev) es'
  end.

(** The clients whose connect answered [True]. *)
Definition opened (es : Trace) : list Client :=
  omap (fun ev => match ev with
                  | EvConnect c (Returns true) => Some c
                  | _ => None
                  end) es.

(** A program that keeps sessions apart: run with no session open, it
    never has two open, and it leaves none open when it returns. *)
Definition tidy {A} (p : Prog A) : Prop :=
  forall h,
    at_most_one_open [] (snd (p h)) = true
    /\ (returned (fst (p h)) = true -> open_after [] (snd (p h)) = []).

(** ** Assumptions on the environment *)

(** Reads fail only as the reader's [except] clauses expect: with an
    exception deriving from [Exception]. *)
Definition reads_catchable (env : Env) : Prop :=
  forall h c a n u, catchable (modbus_read env h c a n u) = true.

Definition publishes_catchable (env : Env) : Prop :=
  forall h t m q, catchable (mqtt_publish env h t m q) = true.

(** [client.connect()] answers [True] or [False]. *)
Definition connect_returns (env : Env) : Prop :=
  forall h c, returned (modbus_connect env h c) = true.

Definition connect_catchable (env : Env) : Prop :=
  forall h c, catchable (modbus_connect env h c) = true.

(** [time.sleep] is not interrupted. *)
Definition sleep_returns (env : Env) : Prop :=
  forall h s, returned (time_sleep env h s) = true.

(** The events of the iterations of a [for] loop whose body does not
    raise, one list per element. *)
Fixpoint for_each_segments {A} (l : list A) (body : A -> Prog ()) (h : Trace)
    : list Trace :=
  match l with
  | [] => []
  | x :: l' => let es := snd (body x h) in es :: for_each_segments l' body (h ++ es)
  end.

(** ** Example environments *)

(** A quiet environment: every device connects, every read returns the
    registers [7, 42], the broker accepts everything, and Enter is
    pressed when the script asks for it. *)
Definition env_quiet : Env := {|
  platform_architecture := "64bit";
  os_getcwd := "D:";
  os_path_exists := fun _ => true;
  os_path_join := fun a b => a +:+ "/" +:+ b;
  config_read := fun f => Returns ([f], []);
  modbus_connect := fun _ _ => Returns true;
  modbus_read := fun _ _ _ _ _ => Returns (RegistersResponse [7; 42] "ReadHoldingRegistersResponse (2)");
  mqtt_connect := fun _ => Returns true;
  mqtt_publish := fun _ _ _ _ => Returns true;
  time_ms := fun _ => 1700000000000;
  time_sleep := fun _ _ => Returns ();
  console_input := fun _ _ => Returns EmptyString
|}.

(** The same, with a library whose [read_holding_registers] has no
    [unit] keyword. *)
Definition env_no_unit_keyword : Env := {|
  platform_architecture := platform_architecture env_quiet;
  os_getcwd := os_getcwd env_quiet;
  os_path_exists := os_path_exists env_quiet;
  os_path_join := os_path_join env_quiet;
  config_read := config_read env_quiet;
  modbus_connect := modbus_connect env_quiet;
  modbus_read := fun h c a n u =>
    match u with
    | Some _ => Raises (TypeError "read_holding_registers() got an unexpected keyword argument 'unit'")
    | None => modbus_read env_quiet h c a n u
    end;
  mqtt_connect := mqtt_connect env_quiet;
  mqtt_publish := mqtt_publish env_quiet;
  time_ms := time_ms env_quiet;
  time_sleep := time_sleep env_quiet;
  console_input := console_input env_quiet
|}.

(** The same as [env_quiet], with a device that answers address 1 with
    an exception response and address 2 with a timeout. *)
Definition env_faulty_reads : Env := {|
  platform_architecture := platform_architecture env_quiet;
  os_getcwd := os_getcwd env_quiet;
  os_path_exists := os_path_exists env_quiet;
  os_path_join := os_path_join env_quiet;
  config_read := config_read env_quiet;
  modbus_connect := modbus_connect env_quiet;
  modbus_read := fun h c a n u =>
    if a =? 1 then Returns (ErrorResponse (Some 2) "Exception Response(131, 3, IllegalAddress)")
    else if a =? 2 then Raises (ModbusException "Modbus Error: [Input/Output] No response received")
    else modbus_read env_quiet h c a n u;
  mqtt_connect := mqtt_connect env_quiet;
  mqtt_publish := mqtt_publish env_quiet;
  time_ms := time_ms env_quiet;
  time_sleep := time_sleep env_quiet;
  console_input := console_input env_quiet
|}.

Definition client0 : Client := mkClient 0 "10.0.0.5" 502.

(** The same as [env_quiet], with the host 10.0.0.6 down. *)
Definition env_one_down : Env := {|
  platform_architecture := platform_architecture env_quiet;
  os_getcwd := os_getcwd env_quiet;
  os_path_exists := os_path_exists env_quiet;
  os_path_join := os_path_join env_quiet;
  config_read := config_read env_quiet;
  modbus_connect := fun _ c => Returns (negb (String.eqb (cl_host c) "10.0.0.6"));
  modbus_read := modbus_read env_faulty_reads;
  mqtt_connect := mqtt_connect env_quiet;
  mqtt_publish := mqtt_publish env_quiet;
  time_ms := time_ms env_quiet;
  time_sleep := time_sleep env_quiet;
  console_input := console_input env_quiet
|}.

Definition plcs_example : list PLC :=
  [ mkPLC "A" "10.0.0.5" 502 [mkReadSpec 0 2; mkReadSpec 1 2];
    mkPLC "B" "10.0.0.6" 502 [mkReadSpec 0 2];
    mkPLC "C" "10.0.0.7" 1502 [] ].

(** What C10 says of the stretch of a sweep that belongs to [plc]. *)
Definition polled_without_reads (plc : PLC) (seg : Trace) : Prop :=
  exists c b,
    connects seg = [(c, Returns b)]
    /\ cl_host c = ip plc /\ cl_port c = port plc
    /\ closes seg = [c]
    /\ read_calls seg = [] /\ publishes seg = [].

(** *** Device sections of a configuration *)

(** The sections the loader makes a PLC of: all but [AWS]. *)
Definition device_sections (config : ConfigParser) : list ConfigSection :=
  List.filter (fun s => negb (String.eqb (sec_name s) "AWS")) config.

(** The value of [queries] in a section, [""] when it has none. *)
Definition queries_of (opts : gmap string string) : string :=
  default EmptyString (opts !! "queries"%string).

(** The guard of the loop over the entries drops [q]: it is blank, or it
    is not two comma-separated digit strings. *)
Definition entry_dropped (q : string) : bool :=
  match PyStr.strip q with
  | EmptyString => true
  | stripped =>
      match PyStr.split "," stripped with
      | [p0; p1] => negb (PyStr.isdigit p0 && PyStr.isdigit p1)
      | _ => true
      end
  end.

(** The guard drops [q], or [int()] reads both of its parts. *)
Definition entry_loads (q : string) : bool :=
  match PyStr.strip q with
  | EmptyString => true
  | stripped =>
      match PyStr.split "," stripped with
      | [p0; p1] =>
          negb (PyStr.isdigit p0 && PyStr.isdigit p1)
          || returned (PyStr.int p0) && returned (PyStr.int p1)
      | _ => true
      end
  end.

(** A section whose queries give no ReadSpec: the value is missing or
    empty, or none of its entries passes the guard. *)
Definition without_reads (opts : gmap string string) : bool :=
  forallb entry_dropped (PyStr.split ";" (queries_of opts)).

(** A section with all the loader asks of it: a name, an ip, a port that
    is missing or that [int()] reads, and queries of which [int()] reads
    every entry that passes the guard. *)
Definition device_section_loads (opts : gmap string string) : bool :=
  match opts !! "name"%string, opts !! "ip"%string with
  | Some _, Some _ =>
      match opts !! "port"%string with
      | Some v => returned (PyStr.int v)
      | None => true
      end
      && forallb entry_loads (PyStr.split ";" (queries_of opts))
  | _, _ => false
  end.

(** ** The queries format, as the spec words it *)

(** The value of a string of decimal digits. *)
Definition decimal_value (s : string) : Z :=
  (fix go (s : string) (acc : Z) : Z :=
     match s with
     | EmptyString => acc
     | String c s' => go s' (10 * acc + PyStr.digit_value c)
     end) s 0.

(** A non-negative integer: one or more decimal digits. *)
Definition is_nonneg_integer (s : string) : bool :=
  match s with
  | EmptyString => false
  | _ => PyStr.all_chars PyStr.is_decimal s
  end.

(** An entry that is an [address,count] pair of two non-negative
    integers, whitespace around the entry aside. *)
Definition spec_entry (q : string) : option ReadSpec :=
  match PyStr.split "," (PyStr.strip q) with
  | [a; c] =>
      if is_nonneg_integer a && is_nonneg_integer c
      then Some (mkReadSpec (decimal_value a) (decimal_value c))
      else None
  | _ => None
  end.

(** Keep exactly the entries that are such pairs, in input order. *)
Definition spec_parse (queries : string) : list ReadSpec :=
  omap spec_entry (PyStr.split ";" queries).

(** Modelled from the spec: the source has no function that writes a
    [queries] string; this is the format of section 6, a
    semicolon-separated list of [address,count] pairs. *)
Definition serialize_queries (rds : list ReadSpec) : string :=
  PyStr.join ";" (map (fun r => PyStr.of_int (address r) +:+ "," +:+ PyStr.of_int (count r)) rds).

(** No character of [s] is a digit that is not decimal (a superscript). *)
Definition no_superscript (s : string) : bool :=
  PyStr.all_chars (fun c => negb (PyStr.isdigit_char c) || PyStr.is_decimal c) s.

(** An entry [int()] reads whenever [isdigit()] lets it through: no
    character of it is a digit other than 0..9, and it has no more
    characters than [int()] takes digits. *)
Definition plain_entry (q : string) : Prop :=
  no_superscript q = true /\ (String.length q <= 4300)%nat.

(** The superscript two, U+00B2. *)
Definition superscript_two : ascii := ascii_of_N 178.

Definition nonneg_reads (plc : PLC) : Prop :=
  Forall (fun r => 0 <= address r /\ 0 <= count r) (reads plc).

(** ** Example configurations *)

Definition aws_section : ConfigSection :=
  mkSection "AWS"
    (list_to_map [ ("certs_folder", "certs"); ("root_ca", "root.pem");
                   ("private_key", "private.key"); ("certificate", "cert.pem");
                   ("thing_name", "bridge"); ("endpoint", "example.iot.amazonaws.com");
                   ("port", "8883"); ("topic", "plc/data") ]%string).

Definition config_example : ConfigParser :=
  [ aws_section;
    mkSection "PLC1" (list_to_map [ ("name", "A"); ("ip", "10.0.0.5");
                                    ("queries", "0,2;1,2") ]%string) ].

(** A PLC section whose only query asks for zero registers. *)
Definition config_zero_count : ConfigParser :=
  [ aws_section;
    mkSection "PLC1" (list_to_map [ ("name", "A"); ("ip", "10.0.0.5");
                                    ("queries", "5,0") ]%string) ].

(** A PLC section whose address is written with a superscript two. *)
Definition config_superscript : ConfigParser :=
  [ aws_section;
    mkSection "PLC1" (list_to_map [ ("name", "A"); ("ip", "10.0.0.5");
                                    ("queries", String superscript_two ",2") ]%string) ].

(** A PLC section without parsable queries. *)
Definition config_no_queries : ConfigParser :=
  [ aws_section;
    mkSection "PLC1" (list_to_map [ ("name", "C"); ("ip", "10.0.0.7"); ("port", "1502");
                                    ("queries", "abc;1;x,y; ;1,2,3") ]%string) ].

(** Three PLC sections: one with two reads, one without a [queries]
    value, one whose queries are all unparsable. *)
Definition config_idle_devices : ConfigParser :=
  [ aws_section;
    mkSection "PLC1" (list_to_map [ ("name", "A"); ("ip", "10.0.0.5");
                                    ("queries", "0,2;1,2") ]%string);
    mkSection "PLC2" (list_to_map [ ("name", "B"); ("ip", "10.0.0.6") ]%string);
    mkSection "PLC3" (list_to_map [ ("name", "C"); ("ip", "10.0.0.7"); ("port", "1502");
                                    ("queries", "abc;1;x,y; ;1,2,3") ]%string) ].

Definition env_with_config (config : ConfigParser) (base : Env) : Env := {|
  platform_architecture := platform_architecture base;
  os_getcwd := os_getcwd base;
  os_path_exists := os_path_exists base;
  os_path_join := os_path_join base;
  config_read := fun f => Returns ([f], config);
  modbus_connect := modbus_connect base;
  modbus_read := modbus_read base;
  mqtt_connect := mqtt_connect base;
  mqtt_publish := mqtt_publish base;
  time_ms := time_ms base;
  time_sleep := time_sleep base;
  console_input := console_input base
|}.


(** A good configuration, and an operator who presses Ctrl-C while the
    read at address 1 is waiting for its answer. *)
Definition env_interrupted : Env := {|
  platform_architecture := platform_architecture env_quiet;
  os_getcwd := os_getcwd env_quiet;
  os_path_exists := os_path_exists env_quiet;
  os_path_join := os_path_join env_quiet;
  config_read := fun f => Returns ([f], config_example);
  modbus_connect := modbus_connect env_quiet;
  modbus_read := fun h c a n u =>
    if a =? 1 then Raises KeyboardInterrupt else modbus_read env_quiet h c a n u;
  mqtt_connect := mqtt_connect env_quiet;
  mqtt_publish := mqtt_publish env_quiet;
  time_ms := time_ms env_quiet;
  time_sleep := time_sleep env_quiet;
  console_input := console_input env_quiet
|}.

(** ** More observations and example environments *)

(** The pauses a trace holds, with their lengths in seconds. *)
Definition sleeps (es : Trace) : list Z :=
  omap (fun ev => match ev with
                  | EvSleep s _ => Some s
                  | _ => None
                  end) es.

(** The calls to [mqtt_client.publish] with their QoS. *)
Definition publish_qos (es : Trace) : list Z :=
  omap (fun ev => match ev with
                  | EvPublish _ _ q _ => Some q
                  | _ => None
                  end) es.

Definition is_log (ev : Event) : bool :=
  match ev with EvLog _ => true | _ => false end.

(** A result tuple as the readers build it: values and no error, or an
    error text that is not empty and no values. *)
Definition well_formed_result (r : ReadTuple) : bool :=
  match r with
  | (_, Some _, None) => true
  | (_, None, Some (String _ _)) => true
  | _ => false
  end.

(** [except (FileNotFoundError, KeyError)] *)
Definition is_config_error (e : PyExc) : bool :=
  match e with
  | FileNotFoundError _ | KeyError _ => true
  | _ => false
  end.

(** No configuration file on the disk. *)
Definition env_no_config_file : Env := {|
  platform_architecture := platform_architecture env_quiet;
  os_getcwd := os_getcwd env_quiet;
  os_path_exists := fun _ => false;
  os_path_join := os_path_join env_quiet;
  config_read := config_read env_quiet;
  modbus_connect := modbus_connect env_quiet;
  modbus_read := modbus_read env_quiet;
  mqtt_connect := mqtt_connect env_quiet;
  mqtt_publish := mqtt_publish env_quiet;
  time_ms := time_ms env_quiet;
  time_sleep := time_sleep env_quiet;
  console_input := console_input env_quiet
|}.

(** An [AWS] section whose port is not a number. *)
Definition config_bad_port : ConfigParser :=
  [ mkSection "AWS"
      (list_to_map [ ("certs_folder", "certs"); ("root_ca", "root.pem");
                     ("private_key", "private.key"); ("certificate", "cert.pem");
                     ("thing_name", "bridge"); ("endpoint", "example.iot.amazonaws.com");
                     ("port", "mqtt"); ("topic", "plc/data") ]%string) ].

(** A library whose [read_holding_registers] has no [unit] keyword. *)
Definition unit_keyword_rejected (env : Env) : Prop :=
  forall h c a n, exists msg, modbus_read env h c a n (Some 1) = Raises (TypeError msg).

Definition raises_type_error {A} (o : Outcome A) : bool :=
  match o with Raises (TypeError _) => true | _ => false end.

(** A library that accepts the [unit] keyword: no call with it raises
    [TypeError]. *)
Definition unit_keyword_accepted (env : Env) : Prop :=
  forall h c a n, raises_type_error (modbus_read env h c a n (Some 1)) = false.

(** Two runs of a reader that end alike: with the same exception, or with
    results that read alike, address by address. *)
Definition readers_agree (r1 r2 : Outcome (list ReadTuple)) : Prop :=
  match r1, r2 with
  | Returns l1, Returns l2 =>
      map result_view l1 = map result_view l2 /\ map is_err l1 = map is_err l2
  | Raises e1, Raises e2 => e1 = e2
  | _, _ => False
  end.

(** [time.sleep] returns, or is cut short by something that does not
    derive from [Exception] (Ctrl-C). *)
Definition sleep_only_interrupted (env : Env) : Prop :=
  forall h s e, time_sleep env h s = Raises e -> is_Exception e = false.

(** A PLC that cannot even be asked: [connect()] itself raises. *)
Definition env_connect_raises : Env := {|
  platform_architecture := platform_architecture env_quiet;
  os_getcwd := os_getcwd env_quiet;
  os_path_exists := os_path_exists env_quiet;
  os_path_join := os_path_join env_quiet;
  config_read := fun f => Returns ([f], config_example);
  modbus_connect := fun _ _ => Raises (OtherException "port must be 0-65535.");
  modbus_read := modbus_read env_quiet;
  mqtt_connect := mqtt_connect env_quiet;
  mqtt_publish := mqtt_publish env_quiet;
  time_ms := time_ms env_quiet;
  time_sleep := time_sleep env_quiet;
  console_input := console_input env_quiet
|}.

(** Every event a program adds satisfies [P], whatever the history. *)
Definition emits {A} (P : Event -> bool) (p : Prog A) : Prop :=
  forall h, forallb P (snd (p h)) = true.

(** The events of a Modbus session and the log lines. *)
Definition modbus_or_log (ev : Event) : bool :=
  match ev with
  | EvLog _ | EvNewClient _ | EvConnect _ _ | EvRead _ _ _ _ _ | EvClose _ => true
  | _ => false
  end.

(** What the polling loop of tcp.py may do. *)
Definition polling_event (ev : Event) : bool :=
  match ev with
  | EvPublish _ _ _ _ | EvSleep _ _ => true
  | _ => modbus_or_log ev
  end.

(** What the device loop of ip.py may do. *)
Definition ip_event (ev : Event) : bool :=
  match ev with
  | EvSleep _ _ => true
  | _ => modbus_or_log ev
  end.

(** The calls to [mqtt_client.connect()]. *)
Definition mqtt_connects (es : Trace) : list (Outcome bool) :=
  omap (fun ev => match ev with
                  | EvMqttConnect r => Some r
                  | _ => None
                  end) es.

(** What the [except KeyboardInterrupt] clause of tcp.py logs when [e]
    leaves the loop. *)
Definition stopped_log (e : PyExc) : Trace :=
  match e with KeyboardInterrupt => [EvLog LogStopped] | _ => [] end.

(** How the process ends when [e] has left the loop and [input()] in
    [finally] gave [typed]. *)
Definition end_after (e : PyExc) (typed : Outcome string) : ProcessEnd :=
  match typed with
  | Raises e' => uncaught e'
  | Returns _ => match e with KeyboardInterrupt => Exited 0 | _ => uncaught e end
  end.

(** The operator of [env_interrupted] again, with the standard input
    closed: [input()] raises [EOFError]. *)
Definition env_stdin_closed : Env := {|
  platform_architecture := platform_architecture env_interrupted;
  os_getcwd := os_getcwd env_interrupted;
  os_path_exists := os_path_exists env_interrupted;
  os_path_join := os_path_join env_interrupted;
  config_read := config_read env_interrupted;
  modbus_connect := modbus_connect env_interrupted;
  modbus_read := modbus_read env_interrupted;
  mqtt_connect := mqtt_connect env_interrupted;
  mqtt_publish := mqtt_publish env_interrupted;
  time_ms := time_ms env_interrupted;
  time_sleep := time_sleep env_interrupted;
  console_input := fun _ _ => Raises (OtherException "EOF when reading a line")
|}.

(** A digit string one digit longer than [int()] takes. *)
Definition digits_4301 : string := string_of_list_ascii (List.repeat "1"%char 4301).

(** * Properties *)

(** ** The program monad *)

Lemma run_bind {A B} (m : Prog A) (k : A -> Prog B) (h : Trace) :
  (m ≫= k) h =
  match m h with
  | (Returns a, es) => let '(r, es') := k a (h ++ es) in (r, es ++ es')
  | (Raises e, es) => (Raises e, es)
  end.
Proof. reflexivity. Qed.

Lemma run_ret {A} (a : A) (h : Trace) : (mret a : Prog A) h = (Returns a, []).
Proof. reflexivity. Qed.

(** Settle a fact about the oracles of a concrete environment. *)
Ltac oracle_fact :=
  intro; intros; cbn;
  repeat match goal with
         | |- context [if ?b then _ else _] => destruct b
         end;
  reflexivity.

(** ** The register readers *)

Lemma truthy_prefixed (c : ascii) (p s : string) : truthy (Some (String c p +:+ s)) = true.
Proof. reflexivity. Qed.

Lemma tcp_read_loop_cons env client item rest acc h :
  Tcp.read_loop env client (item :: rest) acc h =
  let '(evs, o) := tcp_attempt env client h item in
  match tcp_classify (address item) o with
  | Returns r =>
      let '(res, es) := Tcp.read_loop env client rest (acc ++ [r]) (h ++ evs) in
      (res, evs ++ es)
  | Raises e => (Raises e, evs)
  end.
Proof.
  unfold tcp_attempt. cbn [Tcp.read_loop]. rewrite run_bind.
  unfold try_except, Tcp.client_read, call. rewrite run_bind.
  destruct (modbus_read env h client (address item) (count item) (Some 1)) as [resp|e].
  - destruct resp; cbn; rewrite ?app_nil_r; reflexivity.
  - destruct e; cbn; rewrite ?app_nil_r; reflexivity.
Qed.

Lemma ip_read_loop_cons env client item rest acc h :
  Ip.read_loop env client (item :: rest) acc h =
  let '(evs, o) := ip_attempt env client h item in
  match ip_classify (address item) o with
  | Returns r =>
      let '(res, es) := Ip.read_loop env client rest (acc ++ [r]) (h ++ evs) in
      (res, evs ++ es)
  | Raises e => (Raises e, evs)
  end.
Proof.
  unfold ip_attempt. cbn [Ip.read_loop]. rewrite run_bind.
  unfold try_except at 1. rewrite run_bind.
  unfold try_except, Ip.client_read, call.
  destruct (modbus_read env h client (address item) (count item) (Some 1)) as [resp|e].
  - destruct resp; cbn; rewrite ?app_nil_r; reflexivity.
  - destruct e; cbn; rewrite ?app_nil_r; try reflexivity.
    destruct (modbus_read env _ client (address item) (count item) None) as [resp|e].
    + destruct resp; cbn; rewrite ?app_nil_r; reflexivity.
    + destruct e; cbn; rewrite ?app_nil_r; reflexivity.
Qed.

Lemma final_calls_app es1 es2 : final_calls (es1 ++ es2) = final_calls es1 ++ final_calls es2.
Proof. unfold final_calls, read_calls. rewrite omap_app, List.filter_app. reflexivity. Qed.

Lemma read_calls_app es1 es2 : read_calls (es1 ++ es2) = read_calls es1 ++ read_calls es2.
Proof. apply omap_app. Qed.

Lemma publishes_app es1 es2 : publishes (es1 ++ es2) = publishes es1 ++ publishes es2.
Proof. apply omap_app. Qed.

Lemma connects_app es1 es2 : connects (es1 ++ es2) = connects es1 ++ connects es2.
Proof. apply omap_app. Qed.

Lemma closes_app es1 es2 : closes (es1 ++ es2) = closes es1 ++ closes es2.
Proof. apply omap_app. Qed.

Lemma ok_calls_app es1 es2 : ok_calls (es1 ++ es2) = ok_calls es1 ++ ok_calls es2.
Proof. unfold ok_calls. rewrite read_calls_app, List.filter_app. reflexivity. Qed.

Lemma ok_calls_none es : read_calls es = [] -> ok_calls es = [].
Proof. unfold ok_calls. intros ->. reflexivity. Qed.

(** Split the observations of a trace along its concatenations. *)
Ltac split_trace :=
  rewrite ?ok_calls_app, ?read_calls_app, ?connects_app, ?closes_app, ?publishes_app.

Lemma length_filter_map {A B} (f : A -> bool) (g : B -> bool) (l : list A) (l' : list B) :
  map f l = map g l' ->
  List.length (List.filter f l) = List.length (List.filter g l').
Proof.
  revert l'. induction l as [|x l IH]; intros [|y l'] H; simpl in *; try discriminate.
  - reflexivity.
  - injection H as Hxy Hl. rewrite Hxy. destruct (g y); simpl; auto.
Qed.

(** What both readers share: a loop that makes an attempt per spec and
    appends what the [except] clauses make of its outcome. *)
Section ReaderLoop.
Variable loop : list ReadSpec -> list ReadTuple -> Prog (list ReadTuple).
Variable attempt : Trace -> ReadSpec -> Trace * Outcome Response.
Variable classify : Z -> Outcome Response -> Outcome ReadTuple.
Variable calls_of : Trace -> list ReadCall.

Hypothesis loop_nil : forall acc h, loop [] acc h = (Returns acc, []).
Hypothesis loop_cons : forall item rest acc h,
  loop (item :: rest) acc h =
  let '(evs, o) := attempt h item in
  match classify (address item) o with
  | Returns r =>
      let '(res, es) := loop rest (acc ++ [r]) (h ++ evs) in (res, evs ++ es)
  | Raises e => (Raises e, evs)
  end.
Hypothesis calls_of_app : forall es1 es2, calls_of (es1 ++ es2) = calls_of es1 ++ calls_of es2.
Hypothesis calls_of_nil : calls_of [] = [].
Hypothesis attempt_catchable : forall h item, catchable (snd (attempt h item)) = true.
Hypothesis attempt_stands : forall h item, exists c u,
  calls_of (fst (attempt h item)) = [(c, address item, count item, u, snd (attempt h item))].
Hypothesis classify_catchable : forall addr o,
  catchable o = true ->
  exists r, classify addr o = Returns r
            /\ result_view r = (addr, match o with
                                      | Returns resp => resp_registers resp
                                      | Raises _ => None
                                      end)
            /\ is_err r = match o with Returns resp => isError resp | Raises _ => true end.

Lemma loop_appends rds : forall acc h,
  exists new es,
    loop rds acc h = (Returns (acc ++ new), es)
    /\ map (fun c => fst (fst (call_key c))) (calls_of es) = map address rds
    /\ map (fun c => snd (fst (call_key c))) (calls_of es) = map count rds
    /\ map result_view new = map call_view (calls_of es)
    /\ map is_err new = map call_failed (calls_of es).
Proof.
  induction rds as [|item rest IH]; intros acc h.
  - exists [], []. rewrite loop_nil, app_nil_r, calls_of_nil. auto.
  - rewrite loop_cons.
    destruct (attempt h item) as [evs o] eqn:Hatt.
    pose proof (attempt_catchable h item) as Hc.
    destruct (attempt_stands h item) as (c & u & Hst).
    rewrite Hatt in Hc, Hst. simpl in Hc, Hst.
    destruct (classify_catchable (address item) o Hc) as (r & -> & Hview & Herr).
    destruct (IH (acc ++ [r]) (h ++ evs)) as (new & es & -> & Ha & Hn & Hv & He).
    exists (r :: new), (evs ++ es).
    rewrite <- app_assoc. simpl. rewrite calls_of_app, Hst. simpl.
    rewrite Ha, Hn, Hv, He, Hview, Herr.
    repeat split; reflexivity.
Qed.

Lemma loop_one_result_per_spec rds h : one_result_per_spec calls_of rds (loop rds [] h).
Proof.
  destruct (loop_appends rds [] h) as (new & es & Hrun & Ha & Hn & Hv & He).
  exists new, es. simpl in Hrun.
  assert (Hlen : List.length new = List.length rds).
  { rewrite <- (length_map result_view new), Hv, length_map.
    rewrite <- (length_map (fun c => fst (fst (call_key c)))), Ha, length_map.
    reflexivity. }
  repeat split; auto.
  - rewrite <- Ha.
    transitivity (map fst (map result_view new)); [now rewrite map_map|].
    rewrite Hv, map_map. apply map_ext. intros [[[[c a] n] u] o]. reflexivity.
  - apply length_filter_map, He.
Qed.

End ReaderLoop.

Lemma tcp_classify_spec addr o :
  catchable o = true ->
  exists r, tcp_classify addr o = Returns r
            /\ result_view r = (addr, match o with
                                      | Returns resp => resp_registers resp
                                      | Raises _ => None
                                      end)
            /\ is_err r = match o with Returns resp => isError resp | Raises _ => true end.
Proof.
  destruct o as [resp|e]; simpl; intros H.
  - destruct resp; simpl; eexists; repeat split; reflexivity.
  - destruct e; simpl in *; try discriminate; eexists; repeat split; reflexivity.
Qed.

Lemma ip_classify_spec addr o :
  catchable o = true ->
  exists r, ip_classify addr o = Returns r
            /\ result_view r = (addr, match o with
                                      | Returns resp => resp_registers resp
                                      | Raises _ => None
                                      end)
            /\ is_err r = match o with Returns resp => isError resp | Raises _ => true end.
Proof.
  destruct o as [resp|e]; simpl; intros H.
  - destruct resp; simpl; eexists; repeat split; reflexivity.
  - destruct e; simpl in *; try discriminate; eexists; repeat split; reflexivity.
Qed.

Lemma ip_attempt_catchable env client h item :
  reads_catchable env -> catchable (snd (ip_attempt env client h item)) = true.
Proof.
  intros Hr. unfold ip_attempt.
  pose proof (Hr h client (address item) (count item) (Some 1)) as H1.
  destruct (modbus_read env h client (address item) (count item) (Some 1)) as [resp|e];
    [exact H1|].
  destruct e; try exact H1. apply Hr.
Qed.

Lemma ip_attempt_stands env client h item :
  exists c u, final_calls (fst (ip_attempt env client h item))
              = [(c, address item, count item, u, snd (ip_attempt env client h item))].
Proof.
  unfold ip_attempt.
  destruct (modbus_read env h client (address item) (count item) (Some 1)) as [resp|e].
  - exists client, (Some 1). reflexivity.
  - destruct e; try (exists client, (Some 1); reflexivity).
    exists client, None. reflexivity.
Qed.

Lemma tcp_reader_ok env client rds h :
  reads_catchable env ->
  one_result_per_spec read_calls rds (Tcp.read_holding_registers env client rds h).
Proof.
  intros Hr.
  apply (loop_one_result_per_spec (Tcp.read_loop env client)
           (tcp_attempt env client) tcp_classify read_calls).
  - reflexivity.
  - apply tcp_read_loop_cons.
  - apply read_calls_app.
  - reflexivity.
  - intros h' item. apply Hr.
  - intros h' item. exists client, (Some 1). reflexivity.
  - apply tcp_classify_spec.
Qed.

Lemma ip_reader_ok env client rds h :
  reads_catchable env ->
  one_result_per_spec final_calls rds (Ip.read_holding_registers env client rds h).
Proof.
  intros Hr.
  apply (loop_one_result_per_spec (Ip.read_loop env client)
           (ip_attempt env client) ip_classify final_calls).
  - reflexivity.
  - apply ip_read_loop_cons.
  - apply final_calls_app.
  - reflexivity.
  - intros h' item. now apply ip_attempt_catchable.
  - intros h' item. apply ip_attempt_stands.
  - apply ip_classify_spec.
Qed.

(** C1: when reads fail only by an error response or an exception
    deriving from [Exception], both readers return one result per spec,
    in the order of the specs, after a call for every spec; a result is
    an error exactly when its call failed, so one fault among N specs
    gives N results with exactly one error. *)
Theorem read_all_one_result_per_spec (env : Env) (client : Client)
    (rds : list ReadSpec) (h : Trace) :
  reads_catchable env ->
  one_result_per_spec read_calls rds (Tcp.read_holding_registers env client rds h)
  /\ one_result_per_spec final_calls rds (Ip.read_holding_registers env client rds h).
Proof.
  intros Hr. split; [now apply tcp_reader_ok | now apply ip_reader_ok].
Qed.

Lemma read_all_one_result_per_spec_witness :
  reads_catchable env_faulty_reads
  /\ one_result_per_spec read_calls [mkReadSpec 0 2; mkReadSpec 1 2; mkReadSpec 4 1]
       (Tcp.read_holding_registers env_faulty_reads client0
          [mkReadSpec 0 2; mkReadSpec 1 2; mkReadSpec 4 1] [])
  /\ one_result_per_spec final_calls [mkReadSpec 0 2; mkReadSpec 1 2; mkReadSpec 4 1]
       (Ip.read_holding_registers env_faulty_reads client0
          [mkReadSpec 0 2; mkReadSpec 1 2; mkReadSpec 4 1] []).
Proof.
  assert (H : reads_catchable env_faulty_reads) by oracle_fact.
  split; [exact H|].
  exact (read_all_one_result_per_spec env_faulty_reads client0
           [mkReadSpec 0 2; mkReadSpec 1 2; mkReadSpec 4 1] [] H).
Defined.

(** One fault among the specs gives exactly one [Err] among as many
    results as specs. *)
Example one_fault_one_err :
  Tcp.read_holding_registers env_faulty_reads client0
    [mkReadSpec 0 2; mkReadSpec 1 2; mkReadSpec 4 1] []
  = (Returns [ (0, Some [7; 42], None);
               (1, None, Some "Error: Exception Response(131, 3, IllegalAddress)"%string);
               (4, Some [7; 42], None) ],
     [ EvRead client0 0 2 (Some 1)
         (Returns (RegistersResponse [7; 42] "ReadHoldingRegistersResponse (2)"));
       EvRead client0 1 2 (Some 1)
         (Returns (ErrorResponse (Some 2) "Exception Response(131, 3, IllegalAddress)"));
       EvRead client0 4 1 (Some 1)
         (Returns (RegistersResponse [7; 42] "ReadHoldingRegistersResponse (2)")) ]).
Proof. reflexivity. Qed.

(** ** Calls per spec *)

Lemma tcp_read_loop_calls env client :
  reads_catchable env ->
  forall rds acc h,
    map call_key (read_calls (snd (Tcp.read_loop env client rds acc h)))
    = map (fun s => (address s, count s, Some 1)) rds.
Proof.
  intros Hr. induction rds as [|item rest IH]; intros acc h.
  - reflexivity.
  - rewrite tcp_read_loop_cons. unfold tcp_attempt.
    destruct (tcp_classify_spec (address item) _
                (Hr h client (address item) (count item) (Some 1))) as (r & -> & _).
    specialize (IH (acc ++ [r])
                  (h ++ [EvRead client (address item) (count item) (Some 1)
                           (modbus_read env h client (address item) (count item) (Some 1))])).
    destruct (Tcp.read_loop env client rest _ _) as [res es].
    simpl in *. rewrite IH. reflexivity.
Qed.

Lemma ip_read_loop_calls env client :
  reads_catchable env ->
  forall rds acc h,
    ip_calls_ok rds (read_calls (snd (Ip.read_loop env client rds acc h))) = true
    /\ List.length (read_calls (snd (Ip.read_loop env client rds acc h)))
       = (List.length rds
          + List.length (List.filter superseded
                           (read_calls (snd (Ip.read_loop env client rds acc h)))))%nat.
Proof.
  intros Hr. induction rds as [|item rest IH]; intros acc h.
  - split; reflexivity.
  - rewrite ip_read_loop_cons.
    pose proof (ip_attempt_catchable env client h item Hr) as Hc.
    destruct (ip_attempt env client h item) as [evs o] eqn:Hatt. simpl in Hc.
    destruct (ip_classify_spec (address item) o Hc) as (r & -> & _).
    specialize (IH (acc ++ [r]) (h ++ evs)).
    destruct (Ip.read_loop env client rest (acc ++ [r]) (h ++ evs)) as [res es].
    simpl in IH |- *. rewrite read_calls_app.
    unfold ip_attempt in Hatt.
    destruct (modbus_read env h client (address item) (count item) (Some 1)) as [resp|e].
    + injection Hatt as <- <-. simpl. rewrite !Z.eqb_refl.
      destruct IH as [-> ->]. split; reflexivity.
    + destruct e; injection Hatt as <- <-; simpl; rewrite !Z.eqb_refl;
        destruct IH as [-> ->]; (split; [reflexivity|lia]).
Qed.

(** The calls of the two readers: tcp.py makes exactly one call per
    spec, with [unit=1], in the order of the specs.  ip.py makes one call
    with [unit=1] per spec, and one more call without [unit] exactly when
    that call raised [TypeError]; an error response or any other
    exception is never followed by another call for the same spec. *)
Lemma one_call_per_spec_unless_type_error (env : Env) (client : Client)
    (rds : list ReadSpec) (h : Trace) :
  reads_catchable env ->
  map call_key (read_calls (snd (Tcp.read_holding_registers env client rds h)))
  = map (fun s => (address s, count s, Some 1)) rds
  /\ ip_calls_ok rds (read_calls (snd (Ip.read_holding_registers env client rds h))) = true
  /\ List.length (read_calls (snd (Ip.read_holding_registers env client rds h)))
     = (List.length rds
        + List.length (List.filter superseded
                         (read_calls (snd (Ip.read_holding_registers env client rds h)))))%nat.
Proof.
  intros Hr. split.
  - apply tcp_read_loop_calls, Hr.
  - apply (ip_read_loop_calls env client Hr rds [] h).
Qed.

(** With a library that rejects the [unit] keyword one spec costs ip.py
    two calls, of which the second is the read. *)
Example ip_type_error_two_calls :
  read_calls (snd (Ip.read_holding_registers env_no_unit_keyword client0 [mkReadSpec 0 2] []))
  = [ (client0, 0, 2, Some 1,
       Raises (TypeError "read_holding_registers() got an unexpected keyword argument 'unit'"));
      (client0, 0, 2, None,
       Returns (RegistersResponse [7; 42] "ReadHoldingRegistersResponse (2)")) ].
Proof. reflexivity. Qed.

(** ** Loops over devices *)

Lemma for_each_segments_spec {A} (body : A -> Prog ()) (P : A -> Trace -> Prop) :
  (forall x h, fst (body x h) = Returns ()) ->
  (forall x h, P x (snd (body x h))) ->
  forall l h,
    for_each l body h = (Returns (), List.concat (for_each_segments l body h))
    /\ Forall2 P l (for_each_segments l body h).
Proof.
  intros Hret HP. induction l as [|x l IH]; intros h.
  - split; [reflexivity|constructor].
  - cbn [for_each for_each_segments]. rewrite run_bind.
    pose proof (Hret x h) as Hx. pose proof (HP x h) as Hp.
    destruct (body x h) as [r es]. simpl in Hx, Hp. subst r.
    destruct (IH (h ++ es)) as [-> HF]. simpl.
    split; [reflexivity|]. constructor; assumption.
Qed.

(** ** Publishing *)

Lemma publish_to_aws_run env top nm a v h :
  Tcp.publish_to_aws env top nm a v h =
  let payload := payload_dict (time_ms env h) nm a v in
  let o := mqtt_publish env h top (Json.dumps payload) 0 in
  let ev := EvPublish top (Json.dumps payload) 0 o in
  match o with
  | Returns _ => (Returns (), [ev; EvLog (LogPublished top payload)])
  | Raises e =>
      if is_Exception e then (Returns (), [ev; EvLog (LogPublishFailed e)])
      else (Raises e, [ev])
  end.
Proof.
  unfold Tcp.publish_to_aws, try_except, call, log, emit. rewrite run_bind.
  destruct (mqtt_publish env h top _ 0) as [b|e]; cbn; [reflexivity|].
  destruct e; reflexivity.
Qed.

Lemma publish_to_aws_catchable env top nm a v h :
  publishes_catchable env ->
  exists o ev,
    Tcp.publish_to_aws env top nm a v h
    = (Returns (),
       [EvPublish top (Json.dumps (payload_dict (time_ms env h) nm a v)) 0 o; EvLog ev]).
Proof.
  intros Hp. rewrite publish_to_aws_run. cbv zeta.
  specialize (Hp h top (Json.dumps (payload_dict (time_ms env h) nm a v)) 0).
  destruct (mqtt_publish env h top _ 0) as [b|e]; [eauto|].
  simpl in Hp. rewrite Hp. eauto.
Qed.

Lemma tcp_handle_results env top plc :
  publishes_catchable env ->
  forall rs h,
    exists es,
      for_each rs (Tcp.handle_result env top plc) h = (Returns (), es)
      /\ Forall2 (telemetry top (name plc))
           (map result_view (List.filter (fun r => negb (is_err r)) rs)) (publishes es)
      /\ read_calls es = [] /\ connects es = [] /\ closes es = [].
Proof.
  intros Hp. induction rs as [|[[a v] e] rs IH]; intros h.
  - exists []. repeat split; constructor.
  - cbn [for_each]. rewrite run_bind. unfold Tcp.handle_result at 1.
    unfold is_err at 1. cbn [snd List.filter].
    destruct (truthy e) eqn:He; cbn [negb].
    + unfold log, emit.
      destruct (IH (h ++ [EvLog (LogReadFailed (name plc) a e)])) as (es & -> & HF & ? & ? & ?).
      eexists. split; [reflexivity|]. simpl. auto.
    + rewrite run_bind. unfold log at 1, emit.
      destruct (publish_to_aws_catchable env top (name plc) a v
                  (h ++ [EvLog (LogValues (name plc) a v)]) Hp) as (o & ev & ->).
      match goal with
      | |- context [for_each rs _ ?h'] => destruct (IH h') as (es & -> & HF & ? & ? & ?)
      end.
      eexists. split; [reflexivity|]. simpl.
      repeat split; auto.
      constructor; [|exact HF].
      split; [reflexivity|]. unfold result_view. rewrite He. simpl. eauto.
Qed.

(** ** One PLC of tcp.py *)

Lemma tcp_reader_only_reads env client rds : forall acc h,
  let es := snd (Tcp.read_loop env client rds acc h) in
  publishes es = [] /\ connects es = [] /\ closes es = [].
Proof.
  induction rds as [|item rest IH]; intros acc h.
  - repeat split.
  - cbv zeta. rewrite tcp_read_loop_cons. unfold tcp_attempt.
    destruct (tcp_classify (address item) _) as [r|e]; [|repeat split].
    match goal with
    | |- context [Tcp.read_loop env client rest ?a ?b] =>
        specialize (IH a b); destruct (Tcp.read_loop env client rest a b) as [res es]
    end.
    exact IH.
Qed.

Lemma ok_views_transfer (rs : list ReadTuple) (calls : list ReadCall) :
  map result_view rs = map call_view calls ->
  map is_err rs = map call_failed calls ->
  map result_view (List.filter (fun r => negb (is_err r)) rs)
  = map call_view (List.filter (fun c => negb (call_failed c)) calls).
Proof.
  revert calls. induction rs as [|r rs IH]; intros [|c calls] Hv He;
    simpl in *; try discriminate; [reflexivity|].
  injection Hv as Hv1 Hv2. injection He as He1 He2.
  rewrite He1. destruct (call_failed c); simpl; [|rewrite Hv1; f_equal]; auto.
Qed.

Lemma tcp_poll_plc_spec env top plc h :
  connect_returns env -> reads_catchable env -> publishes_catchable env ->
  fst (Tcp.poll_plc env top plc h) = Returns ()
  /\ tcp_segment_ok top plc (snd (Tcp.poll_plc env top plc h)).
Proof.
  intros Hc Hr Hp.
  destruct (Tcp.poll_plc env top plc h) as [r seg] eqn:E.
  unfold Tcp.poll_plc in E.
  rewrite run_bind in E. unfold ModbusTcpClient at 1 in E.
  set (c := mkClient (count_clients h) (ip plc) (port plc)) in E.
  rewrite run_bind in E. unfold call at 1 in E.
  specialize (Hc (h ++ [EvNewClient c]) c).
  destruct (modbus_connect env (h ++ [EvNewClient c]) c) as [b|e]; [clear Hc|discriminate].
  destruct b; cbn [negb] in E.
  - (* connected *)
    rewrite run_bind in E. unfold log at 1, emit at 1 in E.
    rewrite run_bind in E.
    set (h1 := (h ++ [EvNewClient c]) ++ [EvConnect c (Returns true)]) in E.
    set (h2 := h1 ++ [EvLog (LogConnected (name plc))]) in E.
    destruct (tcp_reader_ok env c (reads plc) h2 Hr)
      as (results & es & Hrun & _ & _ & _ & _ & Hv & He & _).
    pose proof (tcp_read_loop_calls env c Hr (reads plc) [] h2) as Hkeys.
    pose proof (tcp_reader_only_reads env c (reads plc) [] h2) as Honly.
    unfold Tcp.read_holding_registers in Hrun, E. rewrite Hrun in Hkeys, Honly, E.
    cbv zeta in Honly. cbn [snd] in Hkeys, Honly. destruct Honly as (Hp1 & Hp2 & Hp3).
    rewrite run_bind in E.
    destruct (tcp_handle_results env top plc Hp results (h2 ++ es))
      as (es' & Hes' & HF & Hq1 & Hq2 & Hq3).
    rewrite Hes' in E.
    unfold client_close, log, emit in E. cbn in E. injection E as <- <-.
    split; [reflexivity|].
    exists c, true. cbn [snd].
    change (EvNewClient c :: EvConnect c (Returns true) :: EvLog (LogConnected (name plc))
              :: es ++ es' ++ [EvClose c; EvLog (LogDisconnected (name plc))])
      with ([EvNewClient c; EvConnect c (Returns true); EvLog (LogConnected (name plc))]
              ++ es ++ es' ++ [EvClose c; EvLog (LogDisconnected (name plc))]).
    split_trace.
    rewrite (ok_calls_none es' Hq1), Hp1, Hp2, Hp3, Hq1, Hq2, Hq3.
    cbn. rewrite ?app_nil_r.
    repeat split; auto; try discriminate.
    unfold ok_calls.
    rewrite <- (ok_views_transfer results (read_calls es) Hv He). exact HF.
  - (* refused *)
    unfold client_close, log, emit in E. cbn in E. injection E as <- <-.
    split; [reflexivity|].
    exists c, false. repeat split; auto; discriminate.
Qed.

(** ** One device of ip.py *)

Lemma ip_reader_only_reads env client rds : forall acc h,
  let es := snd (Ip.read_loop env client rds acc h) in
  publishes es = [] /\ connects es = [] /\ closes es = [].
Proof.
  induction rds as [|item rest IH]; intros acc h.
  - repeat split.
  - cbv zeta. rewrite ip_read_loop_cons.
    destruct (ip_attempt env client h item) as [evs o] eqn:Hatt.
    assert (Hevs : publishes evs = [] /\ connects evs = [] /\ closes evs = []).
    { unfold ip_attempt in Hatt.
      destruct (modbus_read env h client (address item) (count item) (Some 1)) as [resp|e];
        [injection Hatt as <- <-; repeat split|].
      destruct e; injection Hatt as <- <-; repeat split. }
    destruct Hevs as (H1 & H2 & H3).
    destruct (ip_classify (address item) o) as [r|e]; [|cbn [snd]; auto].
    specialize (IH (acc ++ [r]) (h ++ evs)).
    destruct (Ip.read_loop env client rest (acc ++ [r]) (h ++ evs)) as [res es].
    cbn [snd] in IH |- *. destruct IH as (I1 & I2 & I3).
    split_trace. rewrite H1, H2, H3, I1, I2, I3. auto.
Qed.

Lemma ip_print_results nm : forall rs h,
  exists es,
    for_each rs (Ip.print_result nm) h = (Returns (), es)
    /\ read_calls es = [] /\ publishes es = [] /\ connects es = [] /\ closes es = [].
Proof.
  induction rs as [|[[a v] e] rs IH]; intros h.
  - exists []. repeat split.
  - cbn [for_each]. rewrite run_bind. unfold Ip.print_result at 1, log, emit.
    destruct (truthy e).
    + destruct (IH (h ++ [EvLog (LogReadFailed nm a e)])) as (es & -> & ? & ? & ? & ?).
      eexists. split; [reflexivity|]. simpl. auto.
    + destruct (IH (h ++ [EvLog (LogValues nm a v)])) as (es & -> & ? & ? & ? & ?).
      eexists. split; [reflexivity|]. simpl. auto.
Qed.

(** The [try] body of [connect_and_read]: it never closes and never
    publishes, it connects once, it reads only after a connect that
    answered [True], and it ends well or with what a call raised. *)
Lemma ip_session_spec env nm host prt rds client h :
  let o := modbus_connect env (h ++ [EvLog (LogConnecting nm host prt)]) client in
  exists r es,
    Ip.session env nm host prt rds client h = (r, es)
    /\ closes es = [] /\ publishes es = []
    /\ connects es = [(client, o)]
    /\ (o <> Returns true -> read_calls es = [])
    /\ (catchable o = true -> reads_catchable env -> catchable r = true).
Proof.
  intros o.
  destruct (Ip.session env nm host prt rds client h) as [r es] eqn:E.
  exists r, es. unfold Ip.session in E.
  rewrite run_bind in E. unfold log at 1, emit at 1 in E.
  rewrite run_bind in E. unfold call at 1 in E.
  set (h1 := h ++ [EvLog (LogConnecting nm host prt)]) in *.
  subst o.
  destruct (modbus_connect env h1 client) as [b|e].
  - destruct b; cbn [negb] in E.
    + rewrite run_bind in E. unfold log at 1, emit at 1 in E. rewrite run_bind in E.
      set (h2 := (h1 ++ _) ++ _) in E.
      pose proof (ip_reader_only_reads env client rds [] h2) as Honly.
      pose proof (ip_reader_ok env client rds h2) as Hok.
      unfold Ip.read_holding_registers in E, Hok.
      destruct (Ip.read_loop env client rds [] h2) as [[results|e] esr].
      * destruct (ip_print_results nm results (h2 ++ esr)) as (esp & Hp & P1 & P2 & P3 & P4).
        rewrite Hp in E. cbn in E. injection E as <- <-.
        cbv zeta in Honly. cbn [snd] in Honly. destruct Honly as (O1 & O2 & O3).
        change (EvLog (LogConnecting nm host prt) :: EvConnect client (Returns true)
                  :: EvLog (LogConnected nm) :: esr ++ esp)
          with ([EvLog (LogConnecting nm host prt); EvConnect client (Returns true);
                 EvLog (LogConnected nm)] ++ esr ++ esp).
        split; [reflexivity|]. split_trace. rewrite O1, O2, O3, P2, P3, P4.
        repeat split; auto. congruence.
      * cbn in E. injection E as <- <-.
        cbv zeta in Honly. cbn [snd] in Honly. destruct Honly as (O1 & O2 & O3).
        change (EvLog (LogConnecting nm host prt) :: EvConnect client (Returns true)
                  :: EvLog (LogConnected nm) :: esr)
          with ([EvLog (LogConnecting nm host prt); EvConnect client (Returns true);
                 EvLog (LogConnected nm)] ++ esr).
        split; [reflexivity|]. split_trace. rewrite O1, O2, O3.
        repeat split; auto; [congruence|].
        intros _ Hr. destruct (Hok Hr) as (? & ? & Habs & _). discriminate.
    + unfold log, emit in E. cbn in E. injection E as <- <-.
      repeat split; auto.
  - cbn in E. injection E as <- <-. repeat split; auto.
Qed.

Lemma ip_connect_and_read_run env dev h :
  let c := mkClient (count_clients h) (Ip.ip dev) (default 502 (Ip.port dev)) in
  let o := modbus_connect env
             ((h ++ [EvNewClient c])
              ++ [EvLog (LogConnecting (Ip.name dev) (Ip.ip dev) (default 502 (Ip.port dev)))])
             c in
  exists r es,
    Ip.connect_and_read env dev h
    = (r, [EvNewClient c] ++ es ++ [EvClose c; EvLog (LogDisconnected (Ip.name dev))])
    /\ closes es = [] /\ publishes es = []
    /\ connects es = [(c, o)]
    /\ (o <> Returns true -> read_calls es = [])
    /\ (catchable o = true -> reads_catchable env -> r = Returns ()).
Proof.
  intros c o. unfold Ip.connect_and_read. rewrite run_bind.
  unfold ModbusTcpClient at 1. fold c. cbv beta iota zeta.
  unfold try_finally, try_except.
  destruct (ip_session_spec env (Ip.name dev) (Ip.ip dev) (default 502 (Ip.port dev))
              (Ip.reads dev) c (h ++ [EvNewClient c]))
    as (r & es & -> & H1 & H2 & H3 & H4 & H5).
  fold o in H3, H4, H5.
  destruct r as [[]|e].
  - exists (Returns ()), es. cbn. repeat split; auto.
  - destruct (is_Exception e) eqn:He.
    + exists (Returns ()), (es ++ [EvLog (LogDeviceError (Ip.name dev) e)]).
      cbn. rewrite <- app_assoc. split; [reflexivity|].
      split_trace. rewrite H1, H2, H3. repeat split; auto.
      intros Ho. rewrite (H4 Ho). reflexivity.
    + exists (Raises e), es. cbn. repeat split; auto.
      intros Ho Hr. specialize (H5 Ho Hr). simpl in H5. congruence.
Qed.

(** ** Sweeps *)

Lemma publishes_concat (segs : list Trace) :
  publishes (List.concat segs) = List.concat (map publishes segs).
Proof.
  induction segs as [|seg segs IH]; [reflexivity|].
  cbn [List.concat map]. rewrite publishes_app, IH. reflexivity.
Qed.

Lemma tcp_sweep_segments env top (P : PLC -> Trace -> Prop) :
  connect_returns env -> reads_catchable env -> publishes_catchable env ->
  (forall plc seg, tcp_segment_ok top plc seg -> P plc seg) ->
  forall plcs h,
    exists segs,
      Tcp.sweep env top plcs h = (Returns (), List.concat segs) /\ Forall2 P plcs segs.
Proof.
  intros Hc Hr Hp HP plcs h.
  exists (for_each_segments plcs (Tcp.poll_plc env top) h).
  apply for_each_segments_spec.
  - intros plc h'. apply tcp_poll_plc_spec; assumption.
  - intros plc h'. apply HP. apply tcp_poll_plc_spec; assumption.
Qed.

Lemma tcp_segment_attempted_once top plc seg :
  tcp_segment_ok top plc seg -> attempted_once (ip plc) (port plc) seg.
Proof.
  intros (c & b & Hc & Hh & Hp & _ & Hfalse & _).
  exists c, (Returns b). split; [exact Hc|]. split; [exact Hh|]. split; [exact Hp|].
  intros Hb. apply Hfalse. destruct b; congruence.
Qed.

Lemma returned_catchable {A} (o : Outcome A) : returned o = true -> catchable o = true.
Proof. destruct o; [reflexivity|discriminate]. Qed.

Lemma ip_device_spec env dev h :
  connect_returns env -> reads_catchable env -> sleep_returns env ->
  fst ((Ip.connect_and_read env dev ;; Ip.sleep env 1) h) = Returns ()
  /\ attempted_once (Ip.ip dev) (default 502 (Ip.port dev))
       (snd ((Ip.connect_and_read env dev ;; Ip.sleep env 1) h)).
Proof.
  intros Hc Hr Hs. rewrite run_bind.
  destruct (ip_connect_and_read_run env dev h) as (r & es & -> & H1 & H2 & H3 & H4 & H5).
  set (c := mkClient (count_clients h) (Ip.ip dev) (default 502 (Ip.port dev))) in *.
  set (o := modbus_connect env _ c) in *.
  rewrite (H5 (returned_catchable o (Hc _ c)) Hr).
  unfold Ip.sleep, call.
  match goal with |- context [time_sleep env ?h' 1] =>
    pose proof (Hs h' 1) as Hs'; destruct (time_sleep env h' 1) as [[]|e];
      [clear Hs'|discriminate]
  end.
  cbn [fst snd]. split; [reflexivity|].
  exists c, o. split_trace. rewrite H3. cbn. rewrite ?app_nil_r.
  split; [reflexivity|]. split; [reflexivity|]. split; [reflexivity|].
  intros Ho. rewrite (H4 Ho), H2. split; reflexivity.
Qed.

Lemma ip_run_segments env :
  connect_returns env -> reads_catchable env -> sleep_returns env ->
  forall devices h,
    exists segs,
      Ip.run env devices h = (Returns (), List.concat segs)
      /\ Forall2 (fun dev seg => attempted_once (Ip.ip dev) (default 502 (Ip.port dev)) seg)
           devices segs.
Proof.
  intros Hc Hr Hs devices h.
  exists (for_each_segments devices
            (fun device => Ip.connect_and_read env device ;; Ip.sleep env 1) h).
  apply (for_each_segments_spec
           (fun device => Ip.connect_and_read env device ;; Ip.sleep env 1)
           (fun dev seg => attempted_once (Ip.ip dev) (default 502 (Ip.port dev)) seg)).
  - intros dev h'. now apply ip_device_spec.
  - intros dev h'. now apply ip_device_spec.
Qed.

(** C3: in a sweep that nothing interrupts, every PLC has its own stretch
    of the trace, the stretches follow the order of the PLC list, the
    read calls of a stretch follow the order of the PLC's read list, and
    the messages handed to [publish] in a stretch are the telemetry of
    its calls that gave registers: one message per such call, none for a
    call that failed, in the order of the calls. *)
Theorem publish_per_ok_read_in_order (env : Env) (top : string) (plcs : list PLC)
    (h : Trace) :
  connect_returns env -> reads_catchable env -> publishes_catchable env ->
  exists segs,
    Tcp.sweep env top plcs h = (Returns (), List.concat segs)
    /\ Forall2 (fun plc seg =>
                  (read_calls seg = []
                   \/ map call_key (read_calls seg)
                      = map (fun s => (address s, count s, Some 1)) (reads plc))
                  /\ Forall2 (telemetry top (name plc))
                       (map call_view (ok_calls seg)) (publishes seg)) plcs segs
    /\ publishes (List.concat segs) = List.concat (map publishes segs).
Proof.
  intros Hc Hr Hp.
  destruct (tcp_sweep_segments env top
              (fun plc seg =>
                 (read_calls seg = []
                  \/ map call_key (read_calls seg)
                     = map (fun s => (address s, count s, Some 1)) (reads plc))
                 /\ Forall2 (telemetry top (name plc))
                      (map call_view (ok_calls seg)) (publishes seg))
              Hc Hr Hp) with (plcs := plcs) (h := h) as (segs & Hrun & HF).
  - intros plc seg (c & b & _ & _ & _ & _ & Hfalse & Htrue & H). split; [|exact H].
    destruct b; [right; now apply Htrue|left; now apply Hfalse].
  - exists segs. split; [exact Hrun|]. split; [exact HF|]. apply publishes_concat.
Qed.

(** C4: in a run that nothing interrupts, every device of the list gets
    exactly one connect attempt, in list order, in tcp.py and in ip.py;
    a device whose attempt does not answer [True] is neither read nor
    published for, and the loop goes on to the next device and ends. *)
Theorem failed_connect_skips_device (env : Env) (top : string) (plcs : list PLC)
    (devices : list Ip.Device) (h : Trace) :
  connect_returns env -> reads_catchable env -> publishes_catchable env ->
  sleep_returns env ->
  (exists segs,
     Tcp.sweep env top plcs h = (Returns (), List.concat segs)
     /\ Forall2 (fun plc seg => attempted_once (ip plc) (port plc) seg) plcs segs)
  /\ (exists segs,
        Ip.run env devices h = (Returns (), List.concat segs)
        /\ Forall2 (fun dev seg =>
                      attempted_once (Ip.ip dev) (default 502 (Ip.port dev)) seg)
             devices segs).
Proof.
  intros Hc Hr Hp Hs. split.
  - apply (tcp_sweep_segments env top
             (fun plc seg => attempted_once (ip plc) (port plc) seg) Hc Hr Hp).
    intros plc seg. apply tcp_segment_attempted_once.
  - now apply ip_run_segments.
Qed.

Lemma publish_per_ok_read_in_order_witness :
  connect_returns env_one_down /\ reads_catchable env_one_down
  /\ publishes_catchable env_one_down
  /\ exists segs,
       Tcp.sweep env_one_down "plc/data" plcs_example [] = (Returns (), List.concat segs)
       /\ Forall2 (fun plc seg =>
                     (read_calls seg = []
                      \/ map call_key (read_calls seg)
                         = map (fun s => (address s, count s, Some 1)) (reads plc))
                     /\ Forall2 (telemetry "plc/data" (name plc))
                          (map call_view (ok_calls seg)) (publishes seg)) plcs_example segs
       /\ publishes (List.concat segs) = List.concat (map publishes segs).
Proof.
  assert (Hc : connect_returns env_one_down) by oracle_fact.
  assert (Hr : reads_catchable env_one_down) by oracle_fact.
  assert (Hp : publishes_catchable env_one_down) by oracle_fact.
  split; [exact Hc|]. split; [exact Hr|]. split; [exact Hp|].
  exact (publish_per_ok_read_in_order env_one_down "plc/data" plcs_example [] Hc Hr Hp).
Defined.

Lemma failed_connect_skips_device_witness :
  connect_returns env_one_down /\ reads_catchable env_one_down
  /\ publishes_catchable env_one_down /\ sleep_returns env_one_down
  /\ (exists segs,
        Tcp.sweep env_one_down "plc/data" plcs_example [] = (Returns (), List.concat segs)
        /\ Forall2 (fun plc seg => attempted_once (ip plc) (port plc) seg)
             plcs_example segs).
Proof.
  assert (Hc : connect_returns env_one_down) by oracle_fact.
  assert (Hr : reads_catchable env_one_down) by oracle_fact.
  assert (Hp : publishes_catchable env_one_down) by oracle_fact.
  assert (Hs : sleep_returns env_one_down) by oracle_fact.
  split; [exact Hc|]. split; [exact Hr|]. split; [exact Hp|]. split; [exact Hs|].
  exact (proj1 (failed_connect_skips_device env_one_down "plc/data" plcs_example
                  Ip.DEVICES [] Hc Hr Hp Hs)).
Defined.

(** The sweep over [plcs_example] with 10.0.0.6 down: B gets one connect
    attempt and a close, and nothing else; A and C are polled. *)
Example sweep_with_one_device_down :
  let a := mkClient 0 "10.0.0.5" 502 in
  let b := mkClient 1 "10.0.0.6" 502 in
  let c := mkClient 2 "10.0.0.7" 1502 in
  let es := snd (Tcp.sweep env_one_down "plc/data" plcs_example []) in
  connects es = [(a, Returns true); (b, Returns false); (c, Returns true)]
  /\ closes es = [a; b; c]
  /\ map call_key (read_calls es) = [(0, 2, Some 1); (1, 2, Some 1)]
  /\ publishes es
     = [("plc/data"%string,
         Json.dumps [("timestamp", JInt 1700000000000); ("plc_name", JStr "A");
                     ("register_address", JInt 0); ("value", JIntList [7; 42])]%string)].
Proof. vm_compute. repeat split. Qed.

Lemma tcp_segment_without_reads top plc seg :
  tcp_segment_ok top plc seg -> reads plc = [] -> polled_without_reads plc seg.
Proof.
  intros (c & b & Hc & Hh & Hp & Hcl & Hfalse & Htrue & HF) Hreads.
  exists c, b. split; [exact Hc|]. split; [exact Hh|]. split; [exact Hp|].
  split; [exact Hcl|].
  destruct b.
  - specialize (Htrue eq_refl). rewrite Hreads in Htrue. simpl in Htrue.
    apply map_eq_nil in Htrue. split; [exact Htrue|].
    rewrite (ok_calls_none seg Htrue) in HF. simpl in HF.
    inversion HF. reflexivity.
  - now apply Hfalse.
Qed.

(** A section whose queries are all unparsable loads with no reads. *)
Example unparsable_queries_load_without_reads :
  Tcp.load_plcs_loop config_no_queries (sections config_no_queries) []
  = Returns [mkPLC "C" "10.0.0.7" 1502 []].
Proof. vm_compute. reflexivity. Qed.

(** ** The telemetry message *)

Lemma publish_to_aws_publishes env top nm a v h :
  publishes (snd (Tcp.publish_to_aws env top nm a v h))
  = [(top, Json.dumps (payload_dict (time_ms env h) nm a v))].
Proof.
  rewrite publish_to_aws_run. cbv zeta.
  destruct (mqtt_publish env h top _ 0) as [b|e]; [reflexivity|].
  destruct (is_Exception e); reflexivity.
Qed.

Lemma handle_ok_result_publishes env top plc a values h :
  publishes (snd (Tcp.handle_result env top plc (a, Some values, None) h))
  = [(top, Json.dumps
             (payload_dict (time_ms env (h ++ [EvLog (LogValues (name plc) a (Some values))]))
                (name plc) a (Some values)))].
Proof.
  unfold Tcp.handle_result. cbn [truthy]. rewrite run_bind. unfold log, emit.
  pose proof (publish_to_aws_publishes env top (name plc) a (Some values)
                (h ++ [EvLog (LogValues (name plc) a (Some values))])) as H.
  destruct (Tcp.publish_to_aws env top (name plc) a (Some values) _) as [r es].
  cbn [snd] in H |- *. destruct r; cbn; exact H.
Qed.

Lemma tcp_poll_plc_connected env top plc h :
  let c := mkClient (count_clients h) (ip plc) (port plc) in
  let pre := [EvNewClient c; EvConnect c (Returns true); EvLog (LogConnected (name plc))] in
  modbus_connect env (h ++ [EvNewClient c]) c = Returns true ->
  Tcp.poll_plc env top plc h =
  match Tcp.read_holding_registers env c (reads plc) (h ++ pre) with
  | (Raises e, es) => (Raises e, pre ++ es)
  | (Returns results, es) =>
      match for_each results (Tcp.handle_result env top plc) (h ++ pre ++ es) with
      | (Raises e, es') => (Raises e, pre ++ es ++ es')
      | (Returns _, es') =>
          (Returns (), pre ++ es ++ es' ++ [EvClose c; EvLog (LogDisconnected (name plc))])
      end
  end.
Proof.
  intros c pre Hc. unfold Tcp.poll_plc.
  rewrite run_bind. unfold ModbusTcpClient at 1. fold c. cbv beta iota zeta.
  rewrite run_bind. unfold call at 1. rewrite Hc. cbn [negb].
  rewrite run_bind. unfold log at 1, emit at 1. rewrite run_bind.
  rewrite <- !app_assoc. cbn [app]. fold pre.
  destruct (Tcp.read_holding_registers env c (reads plc) (h ++ pre)) as [[results|e] es];
    [|reflexivity].
  rewrite run_bind. rewrite <- !app_assoc.
  destruct (for_each results (Tcp.handle_result env top plc) (h ++ pre ++ es))
    as [[[]|e] es']; [|reflexivity].
  unfold client_close, log, emit. cbn. rewrite ?app_nil_r. reflexivity.
Qed.

Lemma tcp_poll_plc_refused env top plc h :
  let c := mkClient (count_clients h) (ip plc) (port plc) in
  modbus_connect env (h ++ [EvNewClient c]) c = Returns false ->
  Tcp.poll_plc env top plc h
  = (Returns (),
     [EvNewClient c; EvConnect c (Returns false);
      EvLog (LogConnectFailed (name plc) (ip plc) (port plc)); EvClose c]).
Proof.
  intros c Hc. unfold Tcp.poll_plc.
  rewrite run_bind. unfold ModbusTcpClient at 1. fold c. cbv beta iota zeta.
  rewrite run_bind. unfold call at 1. rewrite Hc. reflexivity.
Qed.

Lemma tcp_poll_plc_connect_raised env top plc h e :
  let c := mkClient (count_clients h) (ip plc) (port plc) in
  modbus_connect env (h ++ [EvNewClient c]) c = Raises e ->
  Tcp.poll_plc env top plc h = (Raises e, [EvNewClient c; EvConnect c (Raises e)]).
Proof.
  intros c Hc. unfold Tcp.poll_plc.
  rewrite run_bind. unfold ModbusTcpClient at 1. fold c. cbv beta iota zeta.
  rewrite run_bind. unfold call at 1. rewrite Hc. reflexivity.
Qed.

(** C9: for a result with values and no error the handler hands
    [publish] exactly one message, the JSON text of an object with the
    keys [timestamp], [plc_name], [register_address] and [value], in this
    order, holding the clock's integer, the PLC's name, the address of
    the read and the list of register values.  So device A at
    10.0.0.5:502 with one read at address 0 that returns [7, 42] gives
    exactly one message, with [plc_name] A, [register_address] 0 and
    [value] [7, 42]. *)
Theorem ok_read_one_telemetry_message (env : Env) (top : string) (plc : PLC) (a : Z)
    (values : list Z) (h : Trace) :
  publishes (snd (Tcp.handle_result env top plc (a, Some values, None) h))
  = [(top, Json.dumps
             [ ("timestamp"%string,
                JInt (time_ms env (h ++ [EvLog (LogValues (name plc) a (Some values))])));
               ("plc_name"%string, JStr (name plc));
               ("register_address"%string, JInt a);
               ("value"%string, JIntList values) ])]
  /\ ((forall h' c, modbus_connect env h' c = Returns true) ->
      (forall h' c, exists repr,
          modbus_read env h' c 0 2 (Some 1) = Returns (RegistersResponse [7; 42] repr)) ->
      exists ts,
        publishes (snd (Tcp.poll_plc env top (mkPLC "A" "10.0.0.5" 502 [mkReadSpec 0 2]) h))
        = [(top, Json.dumps
                   [ ("timestamp"%string, JInt ts);
                     ("plc_name"%string, JStr "A");
                     ("register_address"%string, JInt 0);
                     ("value"%string, JIntList [7; 42]) ])]).
Proof.
  split; [apply handle_ok_result_publishes|].
  intros Hc Hr.
  rewrite tcp_poll_plc_connected by apply Hc.
  cbn [reads ip port name].
  unfold Tcp.read_holding_registers. rewrite tcp_read_loop_cons. unfold tcp_attempt.
  cbn [address count].
  match goal with |- context [modbus_read env ?h' ?c 0 2 (Some 1)] =>
    destruct (Hr h' c) as (repr & ->)
  end.
  cbn [tcp_classify isError resp_registers Tcp.read_loop app]. rewrite run_ret.
  cbn [for_each]. rewrite run_bind.
  match goal with |- context [Tcp.handle_result env top ?p ?r ?h'] =>
    pose proof (handle_ok_result_publishes env top p 0 [7; 42] h') as Hpub;
    destruct (Tcp.handle_result env top p r h') as [res es]
  end.
  cbn [snd name] in Hpub.
  eexists.
  destruct res as [[]|e]; cbn [mret prog_ret snd app]; rewrite ?app_nil_r.
  - change (EvNewClient ?c :: ?b :: ?d :: ?e :: es ++ ?t)
      with ([EvNewClient c; b; d; e] ++ es ++ t).
    split_trace. rewrite Hpub. reflexivity.
  - change (EvNewClient ?c :: ?b :: ?d :: ?e :: es)
      with ([EvNewClient c; b; d; e] ++ es).
    split_trace. rewrite Hpub. reflexivity.
Qed.

Lemma ok_read_one_telemetry_message_witness :
  (forall h' c, modbus_connect env_quiet h' c = Returns true)
  /\ (forall (h' : Trace) (c : Client), exists repr,
         modbus_read env_quiet h' c 0 2 (Some 1) = Returns (RegistersResponse [7; 42] repr))
  /\ exists ts,
       publishes (snd (Tcp.poll_plc env_quiet "plc/data"
                         (mkPLC "A" "10.0.0.5" 502 [mkReadSpec 0 2]) []))
       = [("plc/data"%string,
           Json.dumps [ ("timestamp"%string, JInt ts);
                        ("plc_name"%string, JStr "A");
                        ("register_address"%string, JInt 0);
                        ("value"%string, JIntList [7; 42]) ])].
Proof.
  split; [reflexivity|].
  split; [intros h' c; eexists; reflexivity|].
  apply (proj2 (ok_read_one_telemetry_message env_quiet "plc/data"
                  (mkPLC "A" "10.0.0.5" 502 [mkReadSpec 0 2]) 0 [7; 42] [])).
  - reflexivity.
  - intros h' c. eexists. reflexivity.
Defined.

(** The text [json.dumps] gives for the payload of the scenario. *)
Example telemetry_text :
  let q := String Json.dquote EmptyString in
  Json.dumps (payload_dict 1700000000000 "A" 0 (Some [7; 42]))
  = ("{" +:+ q +:+ "timestamp" +:+ q +:+ ": 1700000000000, "
         +:+ q +:+ "plc_name" +:+ q +:+ ": " +:+ q +:+ "A" +:+ q +:+ ", "
         +:+ q +:+ "register_address" +:+ q +:+ ": 0, "
         +:+ q +:+ "value" +:+ q +:+ ": [7, 42]}")%string.
Proof. reflexivity. Qed.

(** ** Strings *)

Lemma isdigit_char_plain (c : ascii) :
  PyStr.isdigit_char c = true ->
  PyStr.isspace c = false /\ Ascii.eqb c "+" = false /\ Ascii.eqb c "-" = false.
Proof.
  destruct c as [[] [] [] [] [] [] [] []]; vm_compute; intros H;
    first [discriminate H | repeat split].
Qed.

Lemma isdigit_char_no_int_space (c : ascii) :
  PyStr.isdigit_char c = true -> PyStr.int_isspace c = false.
Proof.
  destruct c as [[] [] [] [] [] [] [] []]; vm_compute; intros H;
    first [discriminate H | reflexivity].
Qed.

Lemma is_decimal_isdigit_char (c : ascii) :
  PyStr.is_decimal c = true -> PyStr.isdigit_char c = true.
Proof. unfold PyStr.isdigit_char. intros ->. reflexivity. Qed.

Lemma digit_value_nonneg (c : ascii) : PyStr.is_decimal c = true -> 0 <= PyStr.digit_value c.
Proof.
  unfold PyStr.is_decimal, PyStr.digit_value. intros H.
  apply andb_prop in H as [H _]. apply N.leb_le in H. lia.
Qed.

Lemma all_chars_impl (p q : ascii -> bool) (s : string) :
  (forall c, p c = true -> q c = true) ->
  PyStr.all_chars p s = true -> PyStr.all_chars q s = true.
Proof.
  intros Hpq. induction s as [|c s IH]; simpl; [reflexivity|].
  intros H. apply andb_prop in H as [Hc Hs]. rewrite (Hpq c Hc), (IH Hs). reflexivity.
Qed.

Lemma rstrip_no_space (s : string) :
  PyStr.all_chars (fun c => negb (PyStr.isspace c)) s = true -> PyStr.rstrip s = s.
Proof.
  induction s as [|c s IH]; simpl; [reflexivity|].
  intros H. apply andb_prop in H as [Hc Hs]. rewrite (IH Hs).
  destruct s; [|reflexivity].
  destruct (PyStr.isspace c); [discriminate|reflexivity].
Qed.

Lemma strip_isdigit (s : string) : PyStr.isdigit s = true -> PyStr.strip s = s.
Proof.
  unfold PyStr.isdigit, PyStr.strip. destruct s as [|c s]; [discriminate|].
  intros H.
  assert (Hns : PyStr.all_chars (fun c => negb (PyStr.isspace c)) (String c s) = true).
  { revert H. apply all_chars_impl. intros c' Hc'.
    destruct (isdigit_char_plain c' Hc') as [-> _]. reflexivity. }
  simpl in H. apply andb_prop in H as [Hc _].
  destruct (isdigit_char_plain c Hc) as [Hsp _].
  cbn [PyStr.lstrip]. rewrite Hsp. now apply rstrip_no_space.
Qed.

(** On a digit string [int()] has no whitespace and no sign to skip. *)
Lemma int_isdigit (s : string) :
  PyStr.isdigit s = true ->
  PyStr.int s = match PyStr.int_digits s 0 0 false with
                | None => Raises (PyStr.invalid_literal s)
                | Some (digits, value, rest) =>
                    if PyStr.int_max_str_digits <? digits
                    then Raises (PyStr.too_many_digits digits)
                    else match PyStr.skip_spaces rest with
                         | EmptyString => Returns value
                         | _ => Raises (PyStr.invalid_literal s)
                         end
                end.
Proof.
  intros H. unfold PyStr.int.
  destruct s as [|c s]; [discriminate|].
  simpl in H. apply andb_prop in H as [Hc _].
  cbn [PyStr.skip_spaces]. rewrite (isdigit_char_no_int_space c Hc).
  destruct (isdigit_char_plain c Hc) as (_ & -> & ->). reflexivity.
Qed.

Lemma int_digits_nonneg (s : string) : forall digits acc b n z rest,
  0 <= acc -> PyStr.int_digits s digits acc b = Some (n, z, rest) -> 0 <= z.
Proof.
  induction s as [|c s IH]; intros digits acc b n z rest Hacc; simpl.
  - destruct b; [|discriminate]. intros [= _ <- _]. exact Hacc.
  - destruct (PyStr.is_decimal c) eqn:Hd.
    + apply IH. pose proof (digit_value_nonneg c Hd). lia.
    + destruct (Ascii.eqb c "_").
      * destruct b; [|discriminate]. now apply IH.
      * destruct b; [|discriminate]. intros [= _ <- _]. exact Hacc.
Qed.

Lemma int_isdigit_nonneg (s : string) (z : Z) :
  PyStr.isdigit s = true -> PyStr.int s = Returns z -> 0 <= z.
Proof.
  intros H. rewrite (int_isdigit s H).
  destruct (PyStr.int_digits s 0 0 false) as [[[n z'] rest]|] eqn:E; [|discriminate].
  destruct (PyStr.int_max_str_digits <? n); [discriminate|].
  destruct (PyStr.skip_spaces rest); [|discriminate].
  intros [= <-]. apply (int_digits_nonneg s 0 0 false n z' rest); [lia|exact E].
Qed.

Lemma int_digits_decimal (s : string) : forall digits acc,
  PyStr.all_chars PyStr.is_decimal s = true ->
  PyStr.int_digits s digits acc true
  = Some (digits + Z.of_nat (String.length s),
          (fix go (s : string) (acc : Z) : Z :=
             match s with
             | EmptyString => acc
             | String c s' => go s' (10 * acc + PyStr.digit_value c)
             end) s acc,
          EmptyString).
Proof.
  induction s as [|c s IH]; intros digits acc; simpl String.length.
  - intros _. cbn. rewrite Z.add_0_r. reflexivity.
  - intros H. cbn in H. apply andb_prop in H as [Hc Hs].
    cbn [PyStr.int_digits]. rewrite Hc, (IH _ _ Hs). do 3 f_equal. lia.
Qed.

(** A string of at most 4300 decimal digits is read by [int()] as its
    decimal value. *)
Lemma int_nonneg_integer (s : string) :
  is_nonneg_integer s = true -> (String.length s <= 4300)%nat ->
  PyStr.int s = Returns (decimal_value s).
Proof.
  intros H Hlen.
  assert (Hd : PyStr.isdigit s = true).
  { destruct s as [|c s]; [discriminate|]. unfold PyStr.isdigit.
    revert H. apply all_chars_impl, is_decimal_isdigit_char. }
  rewrite (int_isdigit s Hd). destruct s as [|c s]; [discriminate|].
  unfold is_nonneg_integer in H. simpl in H. apply andb_prop in H as [Hc Hs].
  unfold decimal_value. cbn [PyStr.int_digits]. rewrite Hc, (int_digits_decimal s _ _ Hs).
  simpl String.length in Hlen.
  replace (PyStr.int_max_str_digits <? 0 + 1 + Z.of_nat (String.length s)) with false.
  - reflexivity.
  - symmetry. apply Z.ltb_ge. unfold PyStr.int_max_str_digits. lia.
Qed.

(** One digit more and [int()] refuses the string. *)
Lemma int_over_the_limit (s : string) :
  is_nonneg_integer s = true -> (4300 < String.length s)%nat ->
  PyStr.int s = Raises (PyStr.too_many_digits (Z.of_nat (String.length s))).
Proof.
  intros H Hlen.
  assert (Hd : PyStr.isdigit s = true).
  { destruct s as [|c s]; [discriminate|]. unfold PyStr.isdigit.
    revert H. apply all_chars_impl, is_decimal_isdigit_char. }
  rewrite (int_isdigit s Hd). destruct s as [|c s]; [discriminate|].
  unfold is_nonneg_integer in H. simpl in H. apply andb_prop in H as [Hc Hs].
  cbn [PyStr.int_digits]. rewrite Hc, (int_digits_decimal s _ _ Hs).
  simpl String.length in Hlen |- *.
  replace (0 + 1 + Z.of_nat (String.length s)) with (Z.of_nat (S (String.length s))) by lia.
  replace (PyStr.int_max_str_digits <? Z.of_nat (S (String.length s))) with true.
  - reflexivity.
  - symmetry. apply Z.ltb_lt. unfold PyStr.int_max_str_digits. lia.
Qed.

Lemma isdigit_no_superscript (s : string) :
  no_superscript s = true -> PyStr.isdigit s = is_nonneg_integer s.
Proof.
  unfold PyStr.isdigit, is_nonneg_integer, no_superscript.
  destruct s as [|c s]; [reflexivity|].
  generalize (String c s). clear. intros s. induction s as [|c s IH]; simpl; [reflexivity|].
  intros H. apply andb_prop in H as [Hc Hs]. rewrite (IH Hs).
  destruct (PyStr.is_decimal c) eqn:Hd.
  - rewrite (is_decimal_isdigit_char c Hd). reflexivity.
  - destruct (PyStr.isdigit_char c); [discriminate|reflexivity].
Qed.

Lemma all_chars_lstrip p s : PyStr.all_chars p s = true -> PyStr.all_chars p (PyStr.lstrip s) = true.
Proof.
  induction s as [|c s IH]; simpl; [reflexivity|].
  intros H. destruct (PyStr.isspace c); [|exact H].
  apply andb_prop in H as [_ Hs]. now apply IH.
Qed.

Lemma all_chars_rstrip p s : PyStr.all_chars p s = true -> PyStr.all_chars p (PyStr.rstrip s) = true.
Proof.
  induction s as [|c s IH]; simpl; [reflexivity|].
  intros H. apply andb_prop in H as [Hc Hs]. specialize (IH Hs).
  destruct (PyStr.rstrip s) as [|c' r].
  - destruct (PyStr.isspace c); simpl; [reflexivity|]. rewrite Hc. reflexivity.
  - simpl in IH |- *. rewrite Hc, IH. reflexivity.
Qed.

Lemma all_chars_strip p s : PyStr.all_chars p s = true -> PyStr.all_chars p (PyStr.strip s) = true.
Proof. intros H. unfold PyStr.strip. now apply all_chars_rstrip, all_chars_lstrip. Qed.

Lemma all_chars_split p sep s :
  PyStr.all_chars p s = true ->
  Forall (fun w => PyStr.all_chars p w = true) (PyStr.split sep s).
Proof.
  induction s as [|c s IH]; simpl; intros H.
  - constructor; [reflexivity|constructor].
  - apply andb_prop in H as [Hc Hs]. specialize (IH Hs).
    destruct (Ascii.eqb c sep).
    + constructor; [reflexivity|exact IH].
    + destruct (PyStr.split sep s) as [|w ws].
      * constructor; [simpl; rewrite Hc; reflexivity|constructor].
      * inversion IH as [|? ? Hw Hws]; subst.
        constructor; [simpl; rewrite Hc, Hw; reflexivity|exact Hws].
Qed.

(** ** Parsing the queries *)

Lemma parse_queries_nonneg (entries : list string) : forall acc rds,
  Tcp.parse_queries entries acc = Returns rds ->
  Forall (fun r => 0 <= address r /\ 0 <= count r) acc ->
  Forall (fun r => 0 <= address r /\ 0 <= count r) rds.
Proof.
  induction entries as [|q rest IH]; intros acc rds; cbn [Tcp.parse_queries].
  - intros [= <-] H. exact H.
  - destruct (PyStr.strip q) as [|c0 s0]; [apply IH|].
    destruct (PyStr.split "," (String c0 s0)) as [|p0 [|p1 [|p2 ps]]]; try apply IH.
    destruct (PyStr.isdigit p0) eqn:H0; [|apply IH].
    destruct (PyStr.isdigit p1) eqn:H1; [|apply IH]. cbn [andb].
    destruct (PyStr.int p0) as [a|e] eqn:Ha; [|discriminate].
    destruct (PyStr.int p1) as [c|e] eqn:Hc; [|discriminate].
    cbn. intros Hrun Hacc. apply (IH _ _ Hrun).
    apply Forall_app. split; [exact Hacc|].
    constructor; [|constructor]. cbn.
    split; [exact (int_isdigit_nonneg p0 a H0 Ha)|exact (int_isdigit_nonneg p1 c H1 Hc)].
Qed.

Lemma plc_of_section_nonneg (opts : gmap string string) (plc : PLC) :
  Tcp.plc_of_section opts = Returns plc -> nonneg_reads plc.
Proof.
  unfold Tcp.plc_of_section.
  destruct (Tcp.parse_queries _ []) as [rds|e] eqn:Hq; [|discriminate].
  cbn. destruct (opt_getitem opts "name"); [|discriminate]. cbn.
  destruct (opt_getitem opts "ip"); [|discriminate]. cbn.
  destruct (match opts !! "port"%string with Some v => PyStr.int v | None => Returns 502 end);
    [|discriminate].
  cbn. intros [= <-]. unfold nonneg_reads. cbn.
  apply (parse_queries_nonneg _ [] rds Hq). constructor.
Qed.

Lemma load_plcs_loop_nonneg config names : forall acc plcs,
  Tcp.load_plcs_loop config names acc = Returns plcs ->
  Forall nonneg_reads acc -> Forall nonneg_reads plcs.
Proof.
  induction names as [|section rest IH]; intros acc plcs; cbn [Tcp.load_plcs_loop].
  - intros [= <-] H. exact H.
  - destruct (negb (String.eqb section "AWS")); [|apply IH].
    destruct (config_getitem config section) as [opts|e]; [|discriminate]. cbn.
    destruct (Tcp.plc_of_section opts) as [plc|e] eqn:Hplc; [|discriminate]. cbn.
    intros Hrun Hacc. apply (IH _ _ Hrun).
    apply Forall_app. split; [exact Hacc|].
    constructor; [|constructor]. exact (plc_of_section_nonneg opts plc Hplc).
Qed.

(** C6, as the code has it: every ReadSpec of every PLC the loader
    returns has an address and a count that are at least zero; a count of
    zero is not rejected. *)
Theorem loaded_reads_are_nonnegative (config : ConfigParser)
    (plcs : list PLC) :
  Tcp.load_plcs_loop config (sections config) [] = Returns plcs ->
  Forall (fun plc => Forall (fun r => 0 <= address r /\ 0 <= count r) (reads plc)) plcs.
Proof.
  intros H. apply (load_plcs_loop_nonneg config (sections config) [] plcs H).
  constructor.
Qed.

Lemma loaded_reads_are_nonnegative_witness :
  Tcp.load_plcs_loop config_zero_count (sections config_zero_count) []
  = Returns [mkPLC "A" "10.0.0.5" 502 [mkReadSpec 5 0]]
  /\ Forall (fun plc => Forall (fun r => 0 <= address r /\ 0 <= count r) (reads plc))
       [mkPLC "A" "10.0.0.5" 502 [mkReadSpec 5 0]].
Proof.
  assert (H : Tcp.load_plcs_loop config_zero_count (sections config_zero_count) []
              = Returns [mkPLC "A" "10.0.0.5" 502 [mkReadSpec 5 0]]) by (vm_compute; reflexivity).
  split; [exact H|].
  exact (loaded_reads_are_nonnegative config_zero_count _ H).
Defined.

(** C6 as stated fails: the queries string [5,0] loads as a ReadSpec
    with count zero. *)
Lemma zero_count_is_loaded :
  ~ (forall (config : ConfigParser) (plcs : list PLC),
        Tcp.load_plcs_loop config (sections config) [] = Returns plcs ->
        Forall (fun plc => Forall (fun r => 1 <= count r) (reads plc)) plcs).
Proof.
  intros H.
  specialize (H config_zero_count [mkPLC "A" "10.0.0.5" 502 [mkReadSpec 5 0]]).
  assert (Hload : Tcp.load_plcs_loop config_zero_count
                    (sections config_zero_count) []
                  = Returns [mkPLC "A" "10.0.0.5" 502 [mkReadSpec 5 0]])
    by (vm_compute; reflexivity).
  specialize (H Hload).
  inversion H as [|? ? Hplc _]; subst.
  inversion Hplc as [|? ? Hr _]; subst.
  cbn in Hr. lia.
Qed.

Lemma length_lstrip (s : string) : (String.length (PyStr.lstrip s) <= String.length s)%nat.
Proof.
  induction s as [|c s IH]; simpl; [lia|].
  destruct (PyStr.isspace c); simpl; lia.
Qed.

Lemma length_rstrip (s : string) : (String.length (PyStr.rstrip s) <= String.length s)%nat.
Proof.
  induction s as [|c s IH]; simpl; [lia|].
  destruct (PyStr.rstrip s); [destruct (PyStr.isspace c)|]; simpl in *; lia.
Qed.

Lemma length_strip (s : string) : (String.length (PyStr.strip s) <= String.length s)%nat.
Proof.
  unfold PyStr.strip. pose proof (length_rstrip (PyStr.lstrip s)).
  pose proof (length_lstrip s). lia.
Qed.

Lemma length_split (sep : ascii) (s : string) :
  Forall (fun w => (String.length w <= String.length s)%nat) (PyStr.split sep s).
Proof.
  induction s as [|c s IH]; simpl.
  - constructor; [simpl; lia|constructor].
  - destruct (Ascii.eqb c sep).
    + constructor; [simpl; lia|].
      eapply List.Forall_impl; [|exact IH]. simpl. intros w Hw. lia.
    + destruct (PyStr.split sep s) as [|w ws].
      * constructor; [simpl; lia|constructor].
      * inversion IH as [|? ? Hw Hws]; subst.
        constructor; [simpl; lia|].
        eapply List.Forall_impl; [|exact Hws]. simpl. intros w' Hw'. lia.
Qed.

Lemma parse_queries_refines (entries : list string) : forall acc,
  Forall plain_entry entries ->
  Tcp.parse_queries entries acc = Returns (acc ++ omap spec_entry entries).
Proof.
  induction entries as [|q rest IH]; intros acc Hns; cbn [Tcp.parse_queries].
  - cbn. rewrite app_nil_r. reflexivity.
  - inversion Hns as [|? ? [Hq Hlen] Hrest]; subst. specialize (IH).
    assert (Hparts : Forall (fun w => no_superscript w = true)
                       (PyStr.split "," (PyStr.strip q))).
    { apply all_chars_split, all_chars_strip, Hq. }
    assert (Hlens : Forall (fun w => (String.length w <= 4300)%nat)
                      (PyStr.split "," (PyStr.strip q))).
    { eapply List.Forall_impl; [|apply length_split]. simpl. intros w Hw.
      pose proof (length_strip q). lia. }
    cbn [omap list_omap]. unfold spec_entry at 1.
    destruct (PyStr.strip q) as [|c0 s0] eqn:Hstrip.
    { cbn. apply IH, Hrest. }
    destruct (PyStr.split "," (String c0 s0)) as [|p0 [|p1 [|p2 ps]]];
      try (apply IH, Hrest).
    inversion Hparts as [|? ? Hp0 Hparts']; subst.
    inversion Hparts' as [|? ? Hp1 _]; subst.
    inversion Hlens as [|? ? Hl0 Hlens']; subst.
    inversion Hlens' as [|? ? Hl1 _]; subst.
    rewrite (isdigit_no_superscript p0 Hp0), (isdigit_no_superscript p1 Hp1).
    destruct (is_nonneg_integer p0) eqn:H0; [|apply IH, Hrest].
    destruct (is_nonneg_integer p1) eqn:H1; [|apply IH, Hrest].
    cbn [andb]. rewrite (int_nonneg_integer p0 H0 Hl0), (int_nonneg_integer p1 H1 Hl1). cbn.
    rewrite (IH _ Hrest), <- app_assoc. reflexivity.
Qed.

Lemma plain_entries (queries : string) :
  no_superscript queries = true -> (String.length queries <= 4300)%nat ->
  Forall plain_entry (PyStr.split ";" queries).
Proof.
  intros H Hlen. apply List.Forall_forall. intros q Hq.
  pose proof (all_chars_split _ ";" queries H) as H1.
  pose proof (length_split ";" queries) as H2.
  rewrite List.Forall_forall in H1, H2.
  split; [now apply H1|]. specialize (H2 q Hq). simpl in H2. lia.
Qed.

(** On a queries string of at most 4300 characters, none of them a digit
    other than 0..9, the loop keeps exactly the entries that are two
    comma-separated non-negative integers, in input order. *)
Lemma parse_queries_keeps_the_pairs (queries : string) :
  no_superscript queries = true -> (String.length queries <= 4300)%nat ->
  Tcp.parse_queries (PyStr.split ";" queries) [] = Returns (spec_parse queries).
Proof.
  intros H Hlen. rewrite parse_queries_refines; [reflexivity|].
  now apply plain_entries.
Qed.

Example parse_two_pairs :
  Tcp.parse_queries (PyStr.split ";" "0,2;1,2") [] = Returns [mkReadSpec 0 2; mkReadSpec 1 2].
Proof. reflexivity. Qed.

Example parse_drops_the_rest :
  Tcp.parse_queries (PyStr.split ";" " 0,2 ;;abc;1;x,y;1,2,3;0, 2;-1,2;1,2") []
  = Returns [mkReadSpec 0 2; mkReadSpec 1 2].
Proof. reflexivity. Qed.

Example queries_round_trip :
  serialize_queries [mkReadSpec 0 2; mkReadSpec 1 2] = "0,2;1,2"%string
  /\ (forall rds, Tcp.parse_queries (PyStr.split ";" " 0,2 ; 1,2 ") [] = Returns rds ->
                  serialize_queries rds = "0,2;1,2"%string).
Proof. split; [reflexivity|]. intros rds [= <-]. reflexivity. Qed.

(** C7 fails on the code for an entry written with a superscript digit:
    [isdigit()] accepts it, [int()] does not, and instead of dropping the
    entry the loader raises [ValueError], which [main] does not catch. *)
Theorem superscript_entry_raises :
  PyStr.isdigit (String superscript_two EmptyString) = true
  /\ Tcp.parse_queries (PyStr.split ";" (String superscript_two ",2")) []
     = Raises (ValueError ("invalid literal for int() with base 10: '"
                            +:+ String superscript_two "'"))
  /\ spec_parse (String superscript_two ",2") = []
  /\ fst (Tcp.main (env_with_config config_superscript env_quiet) 1 [])
     = Traceback (ValueError ("invalid literal for int() with base 10: '"
                               +:+ String superscript_two "'")).
Proof. vm_compute. repeat split. Qed.

(** ** The process *)







(** ** Closing the session *)

(** ip.py closes the client it made exactly once, whatever happens
    between the connect and the end of [connect_and_read]. *)
Lemma ip_session_closed_once env dev h :
  let c := mkClient (count_clients h) (Ip.ip dev) (default 502 (Ip.port dev)) in
  closes (snd (Ip.connect_and_read env dev h)) = [c]
  /\ exists o, connects (snd (Ip.connect_and_read env dev h)) = [(c, o)].
Proof.
  intros c.
  destruct (ip_connect_and_read_run env dev h) as (r & es & -> & H1 & _ & H3 & _).
  fold c in H3 |- *. cbn [snd]. split_trace. rewrite H1, H3. split; [reflexivity|].
  eexists. reflexivity.
Qed.

Lemma client_eqb_refl c : client_eqb c c = true.
Proof.
  unfold client_eqb. rewrite Nat.eqb_refl, String.eqb_refl, Z.eqb_refl. reflexivity.
Qed.

Lemma open_after_app o es1 es2 :
  open_after o (es1 ++ es2) = open_after (open_after o es1) es2.
Proof. apply fold_left_app. Qed.

Lemma at_most_one_open_app es1 : forall o es2,
  at_most_one_open o (es1 ++ es2)
  = at_most_one_open o es1 && at_most_one_open (open_after o es1) es2.
Proof.
  induction es1 as [|ev es1 IH]; intros o es2; [reflexivity|].
  cbn [app at_most_one_open]. rewrite IH, andb_assoc. reflexivity.
Qed.

Lemma opened_app es1 es2 : opened (es1 ++ es2) = opened es1 ++ opened es2.
Proof. apply omap_app. Qed.

Lemma opened_of_connects es :
  opened es = omap (fun co => match snd co with
                              | Returns true => Some (fst co)
                              | _ => None
                              end) (connects es).
Proof.
  induction es as [|ev es IH]; [reflexivity|].
  change (ev :: es) with ([ev] ++ es).
  rewrite opened_app, connects_app, omap_app, IH.
  destruct ev as [| |c [[]|]| | | | | | |]; reflexivity.
Qed.

(** Without a [close()], the open sessions only grow. *)
Lemma no_close_sessions es : forall o,
  closes es = [] ->
  open_after o es = rev (opened es) ++ o
  /\ ((List.length (opened es) + List.length o <= 1)%nat -> at_most_one_open o es = true).
Proof.
  assert (Hsame : forall ev es' o,
             step_open o ev = o -> opened (ev :: es') = opened es' ->
             (open_after o es' = rev (opened es') ++ o
              /\ ((List.length (opened es') + List.length o <= 1)%nat ->
                  at_most_one_open o es' = true)) ->
             open_after o (ev :: es') = rev (opened (ev :: es')) ++ o
             /\ ((List.length (opened (ev :: es')) + List.length o <= 1)%nat ->
                 at_most_one_open o (ev :: es') = true)).
  { intros ev es' o Hst Hop [Ha Hb]. unfold open_after in *.
    cbn [fold_left at_most_one_open]. rewrite Hst, Hop. split; [exact Ha|].
    intros H. rewrite (Hb H). apply andb_true_intro. split; [|reflexivity].
    apply Nat.leb_le. lia. }
  induction es as [|ev es IH]; intros o Hcl; [split; reflexivity|].
  destruct ev as [m|c|c r|c a n u r|c|st|r|t m q r|sec r|p];
    try (apply Hsame; [reflexivity|reflexivity|apply IH; exact Hcl]).
  - destruct r as [[]|e];
      try (apply Hsame; [reflexivity|reflexivity|apply IH; exact Hcl]).
    destruct (IH (c :: o) Hcl) as [Ha Hb]. unfold open_after in *.
    cbn [fold_left at_most_one_open step_open].
    change (opened (EvConnect c (Returns true) :: es)) with (c :: opened es).
    cbn [rev List.length] in *. rewrite Ha, <- app_assoc. split; [reflexivity|].
    intros H. rewrite Hb by lia. apply andb_true_intro. split; [|reflexivity].
    apply Nat.leb_le. lia.
  - discriminate Hcl.
Qed.

Lemma quiet_sessions es o :
  connects es = [] -> closes es = [] -> (List.length o <= 1)%nat ->
  open_after o es = o /\ at_most_one_open o es = true.
Proof.
  intros Hc Hcl Ho.
  assert (Hop : opened es = []) by (rewrite opened_of_connects, Hc; reflexivity).
  destruct (no_close_sessions es o Hcl) as [-> Hle]. rewrite Hop in *.
  split; [reflexivity|]. apply Hle. cbn. exact Ho.
Qed.

Lemma tidy_ret {A} (a : A) : tidy (mret a : Prog A).
Proof. intros h. split; reflexivity. Qed.

Lemma tidy_bind {A B} (m : Prog A) (k : A -> Prog B) :
  tidy m -> (forall a, tidy (k a)) -> tidy (m ≫= k).
Proof.
  intros Hm Hk h. rewrite run_bind.
  destruct (Hm h) as [H1 H2]. destruct (m h) as [[a|e] es]; cbn [fst snd] in *.
  - destruct (Hk a (h ++ es)) as [K1 K2].
    destruct (k a (h ++ es)) as [r es']. cbn [fst snd] in *.
    rewrite at_most_one_open_app, open_after_app, H1, (H2 eq_refl). split; assumption.
  - split; [exact H1|discriminate].
Qed.

Lemma tidy_for_each {A} (l : list A) (body : A -> Prog ()) :
  (forall x, tidy (body x)) -> tidy (for_each l body).
Proof.
  intros Hb. induction l as [|x l IH]; [apply tidy_ret|].
  cbn [for_each]. apply tidy_bind; [apply Hb|intros _; exact IH].
Qed.

Lemma tidy_while_true (fuel : nat) (body : Prog ()) : tidy body -> tidy (while_true fuel body).
Proof.
  intros Hb. induction fuel as [|fuel IH]; [apply tidy_ret|].
  cbn [while_true]. apply tidy_bind; [exact Hb|intros _; exact IH].
Qed.

Lemma tidy_quiet {A} (p : Prog A) :
  (forall h, connects (snd (p h)) = [] /\ closes (snd (p h)) = []) -> tidy p.
Proof.
  intros Hq h. destruct (Hq h) as [Hc Hcl].
  destruct (quiet_sessions (snd (p h)) [] Hc Hcl) as [-> ->]; [cbn; lia|].
  split; reflexivity.
Qed.

Lemma tcp_handle_results_quiet env top plc rs : forall h r es,
  for_each rs (Tcp.handle_result env top plc) h = (r, es) ->
  connects es = [] /\ closes es = [].
Proof.
  induction rs as [|[[a v] e] rs IH]; intros h r es E.
  - injection E as <- <-. split; reflexivity.
  - cbn [for_each] in E. rewrite run_bind in E. unfold Tcp.handle_result at 1 in E.
    destruct (truthy e).
    + unfold log, emit in E.
      destruct (for_each rs _ _) as [r' es'] eqn:E'. apply IH in E' as [I1 I2].
      injection E as <- <-. cbn. split; assumption.
    + rewrite run_bind in E. unfold log at 1, emit at 1 in E.
      rewrite publish_to_aws_run in E. cbv zeta in E.
      destruct (mqtt_publish env _ top _ 0) as [b|e'].
      * destruct (for_each rs _ _) as [r' es'] eqn:E'. apply IH in E' as [I1 I2].
        injection E as <- <-. cbn. split; assumption.
      * destruct (is_Exception e'); [|injection E as <- <-; split; reflexivity].
        destruct (for_each rs _ _) as [r' es'] eqn:E'. apply IH in E' as [I1 I2].
        injection E as <- <-. cbn. split; assumption.
Qed.

(** One PLC of tcp.py, whatever the environment does: never two sessions
    open, and none left open when the body of the loop returns. *)
Lemma tcp_poll_plc_tidy env top plc : tidy (Tcp.poll_plc env top plc).
Proof.
  intros h.
  set (c := mkClient (count_clients h) (ip plc) (port plc)).
  destruct (modbus_connect env (h ++ [EvNewClient c]) c) as [[]|e] eqn:Hc.
  - rewrite (tcp_poll_plc_connected env top plc h Hc). fold c.
    pose proof (tcp_reader_only_reads env c (reads plc) []
                  (h ++ [EvNewClient c; EvConnect c (Returns true);
                         EvLog (LogConnected (name plc))])) as Hr.
    unfold Tcp.read_holding_registers.
    destruct (Tcp.read_loop env c (reads plc) [] _) as [[results|e] es];
      cbv zeta in Hr; cbn [snd] in Hr; destruct Hr as (_ & R1 & R2).
    + destruct (for_each results _ _) as [[[]|e] es'] eqn:Hh;
        apply tcp_handle_results_quiet in Hh as [Q1 Q2]; cbn [fst snd].
      * destruct (quiet_sessions es [c] R1 R2) as [E1 E2]; [cbn; lia|].
        destruct (quiet_sessions es' [c] Q1 Q2) as [F1 F2]; [cbn; lia|].
        cbn [app at_most_one_open step_open open_after fold_left].
        fold (open_after [c] (es ++ es' ++ [EvClose c; EvLog (LogDisconnected (name plc))])).
        rewrite !at_most_one_open_app, !open_after_app, E1, E2, F1, F2.
        cbn. rewrite client_eqb_refl. cbn. split; reflexivity.
      * destruct (quiet_sessions es [c] R1 R2) as [E1 E2]; [cbn; lia|].
        destruct (quiet_sessions es' [c] Q1 Q2) as [F1 F2]; [cbn; lia|].
        cbn [app at_most_one_open step_open].
        rewrite !at_most_one_open_app, E1, E2, F2.
        cbn. split; [reflexivity|discriminate].
    + destruct (quiet_sessions es [c] R1 R2) as [E1 E2]; [cbn; lia|].
      cbn [fst snd app at_most_one_open step_open]. rewrite E2.
      cbn. split; [reflexivity|discriminate].
  - rewrite (tcp_poll_plc_refused env top plc h Hc). split; reflexivity.
  - rewrite (tcp_poll_plc_connect_raised env top plc h e Hc).
    split; [reflexivity|discriminate].
Qed.

Lemma tidy_sleep env seconds : tidy (Tcp.sleep env seconds).
Proof. apply tidy_quiet. intros h. split; reflexivity. Qed.

(** No two sessions are ever open at once in tcp.py's polling loop,
    whatever the devices, the broker and the operator do. *)
Lemma tcp_sessions_never_overlap env fuel top plcs : tidy (Tcp.polling env fuel top plcs).
Proof.
  apply tidy_while_true, tidy_bind.
  - apply tidy_for_each. intros plc. apply tcp_poll_plc_tidy.
  - intros _. apply tidy_sleep.
Qed.

(** The same for ip.py, where moreover every session is closed. *)
Lemma ip_connect_and_read_tidy env dev : tidy (Ip.connect_and_read env dev).
Proof.
  intros h.
  destruct (ip_connect_and_read_run env dev h) as (r & es & -> & H1 & _ & H3 & _).
  set (c := mkClient (count_clients h) (Ip.ip dev) (default 502 (Ip.port dev))) in *.
  set (o := modbus_connect env _ c) in *.
  cbn [fst snd]. cbn [app at_most_one_open step_open].
  destruct (no_close_sessions es [] H1) as [Ha Hb].
  assert (Hop : opened es = match o with Returns true => [c] | _ => [] end).
  { rewrite opened_of_connects, H3. destruct o as [[]|]; reflexivity. }
  rewrite at_most_one_open_app, Ha, Hb, app_nil_r, Hop
    by (rewrite Hop; destruct o as [[]|]; cbn; lia).
  change (open_after [] (EvNewClient c :: es ++ [EvClose c; EvLog (LogDisconnected (Ip.name dev))]))
    with (open_after [] (es ++ [EvClose c; EvLog (LogDisconnected (Ip.name dev))])).
  rewrite open_after_app, Ha, Hop, app_nil_r.
  destruct o as [[]|]; cbn; rewrite ?client_eqb_refl; split; reflexivity.
Qed.

Lemma ip_sessions_never_overlap env devices : tidy (Ip.run env devices).
Proof.
  apply tidy_for_each. intros dev. apply tidy_bind.
  - apply ip_connect_and_read_tidy.
  - intros _. apply tidy_quiet. intros h. split; reflexivity.
Qed.

(** C2 fails on tcp.py when a read is interrupted: the session that was
    opened is never closed, and the process ends with status 0.  ip.py,
    given the same device and the same interrupt, closes it. *)
Theorem interrupted_read_leaves_session_open :
  let c := mkClient 0 "10.0.0.5" 502 in
  fst (Tcp.main env_interrupted 1 []) = Exited 0
  /\ connects (snd (Tcp.main env_interrupted 1 [])) = [(c, Returns true)]
  /\ map call_outcome (read_calls (snd (Tcp.main env_interrupted 1 [])))
     = [ Returns (RegistersResponse [7; 42] "ReadHoldingRegistersResponse (2)");
         Raises KeyboardInterrupt ]
  /\ closes (snd (Tcp.main env_interrupted 1 [])) = []
  /\ closes (snd (Ip.connect_and_read env_interrupted
                    (Ip.mkDevice "A" "10.0.0.5" (Some 502) [mkReadSpec 0 2; mkReadSpec 1 2])
                    []))
     = [c].
Proof. vm_compute. repeat split. Qed.

(** * Further properties of the code *)

(** ** Loading the configuration *)

(** X1: when the configuration file does not exist, tcp.py logs the
    error and exits with status 1 at once: the file is not read, and
    neither the broker nor any PLC is contacted. *)
Theorem missing_config_file_exits_1 (env : Env) (fuel : nat) (h : Trace) :
  os_path_exists env Tcp.config_file = false ->
  Tcp.main env fuel h
  = (Exited 1,
     [ EvLog (LogArchitecture (platform_architecture env));
       EvLog (LogWorkingDirectory (os_getcwd env));
       EvLog (LogConfigError
                (FileNotFoundError ("Config file not found at: " +:+ Tcp.config_file))) ]).
Proof.
  intros H.
  unfold Tcp.main, Tcp.startup, Tcp.load_configuration, Tcp.load_config_debug.
  rewrite !run_bind. unfold log at 1, emit at 1. cbv beta iota zeta.
  unfold try_except. rewrite !run_bind. unfold log at 1, emit at 1.
  cbv beta iota zeta. rewrite H. reflexivity.
Qed.

Lemma missing_config_file_exits_1_witness :
  os_path_exists env_no_config_file Tcp.config_file = false
  /\ fst (Tcp.main env_no_config_file 2 []) = Exited 1.
Proof.
  split; [reflexivity|].
  exact (f_equal fst (missing_config_file_exits_1 env_no_config_file 2 [] eq_refl)).
Defined.

Lemma load_config_debug_run env filename h :
  Tcp.load_config_debug env filename h =
  let ev0 := EvLog (LogWorkingDirectory (os_getcwd env)) in
  if negb (os_path_exists env filename) then
    (Raises (FileNotFoundError ("Config file not found at: " +:+ filename)), [ev0])
  else
    match config_read env filename with
    | Raises e => (Raises e, [ev0])
    | Returns (files, config) =>
        let evs := [ev0; EvLog (LogLoadedFiles files);
                    EvLog (LogSectionsFound (sections config))] in
        if negb (bool_decide ("AWS"%string ∈ sections config)) then
          (Raises (KeyError "Missing [AWS] section in config file."), evs)
        else (Returns config, evs)
    end.
Proof.
  unfold Tcp.load_config_debug. rewrite run_bind. unfold log at 1, emit at 1.
  cbv beta iota zeta.
  destruct (os_path_exists env filename); cbn [negb]; [|reflexivity].
  rewrite run_bind. unfold lift.
  destruct (config_read env filename) as [[files config]|e]; [|reflexivity].
  rewrite run_bind. unfold log at 1, emit at 1. cbv beta iota zeta.
  rewrite run_bind. unfold log at 1, emit at 1. cbv beta iota zeta.
  destruct (bool_decide ("AWS"%string ∈ sections config)); reflexivity.
Qed.

Lemma load_configuration_run env h :
  Tcp.load_configuration env h =
  match Tcp.load_config_debug env Tcp.config_file h with
  | (Raises e, evs) => (Raises e, evs)
  | (Returns config, evs) =>
      match Tcp.load_aws_config env config with
      | Raises e => (Raises e, evs)
      | Returns aws_settings =>
          match Tcp.load_plcs_loop config (sections config) [] with
          | Raises e => (Raises e, evs)
          | Returns plcs =>
              (Returns (aws_settings, plcs), evs ++ [EvLog (LogPlcsLoaded (map name plcs))])
          end
      end
  end.
Proof.
  unfold Tcp.load_configuration. rewrite run_bind.
  destruct (Tcp.load_config_debug env Tcp.config_file h) as [[config|e] evs]; [|reflexivity].
  rewrite run_bind. unfold lift.
  destruct (Tcp.load_aws_config env config) as [aws|e]; [|rewrite app_nil_r; reflexivity].
  rewrite run_bind. unfold Tcp.load_plcs_from_config. rewrite run_bind. unfold lift.
  destruct (Tcp.load_plcs_loop config (sections config) []) as [plcs|e];
    [|rewrite !app_nil_r; reflexivity].
  unfold log, emit. cbn. rewrite !app_nil_r. reflexivity.
Qed.

Lemma load_configuration_only_logs env h :
  forallb is_log (snd (Tcp.load_configuration env h)) = true.
Proof.
  rewrite load_configuration_run, load_config_debug_run. cbv zeta.
  destruct (os_path_exists env Tcp.config_file); cbn [negb]; [|reflexivity].
  destruct (config_read env Tcp.config_file) as [[files config]|e]; [|reflexivity].
  destruct (bool_decide ("AWS"%string ∈ sections config)); cbn [negb]; [|reflexivity].
  destruct (Tcp.load_aws_config env config); [|reflexivity].
  destruct (Tcp.load_plcs_loop config (sections config) []); reflexivity.
Qed.

Lemma main_config_failure env fuel h e es :
  Tcp.load_configuration env (h ++ [EvLog (LogArchitecture (platform_architecture env))])
  = (Raises e, es) ->
  Tcp.main env fuel h
  = (if is_config_error e then Exited 1 else uncaught e,
     [EvLog (LogArchitecture (platform_architecture env))] ++ es
     ++ (if is_config_error e then [EvLog (LogConfigError e)] else [])).
Proof.
  intros H. unfold Tcp.main, Tcp.startup. rewrite run_bind.
  unfold log at 1, emit at 1. cbv beta iota zeta.
  rewrite run_bind. unfold try_except at 1. rewrite H.
  destruct e; cbn; rewrite ?app_nil_r; reflexivity.
Qed.

(** X2: when the file holds no [AWS] section, tcp.py logs the files and
    sections it found, reports the missing section as a configuration
    error and exits with status 1; no PLC section is looked at and
    nothing is contacted. *)
Theorem missing_aws_section_exits_1 (env : Env) (fuel : nat) (h : Trace)
    (files : list string) (config : ConfigParser) :
  os_path_exists env Tcp.config_file = true ->
  config_read env Tcp.config_file = Returns (files, config) ->
  ("AWS"%string ∉ sections config) ->
  Tcp.main env fuel h
  = (Exited 1,
     [ EvLog (LogArchitecture (platform_architecture env));
       EvLog (LogWorkingDirectory (os_getcwd env));
       EvLog (LogLoadedFiles files);
       EvLog (LogSectionsFound (sections config));
       EvLog (LogConfigError (KeyError "Missing [AWS] section in config file.")) ]).
Proof.
  intros Hex Hread Haws.
  rewrite (main_config_failure env fuel h
             (KeyError "Missing [AWS] section in config file.")
             [EvLog (LogWorkingDirectory (os_getcwd env)); EvLog (LogLoadedFiles files);
              EvLog (LogSectionsFound (sections config))]); [reflexivity|].
  rewrite load_configuration_run, load_config_debug_run. cbv zeta.
  rewrite Hex, Hread. cbn [negb]. rewrite bool_decide_eq_false_2 by exact Haws.
  reflexivity.
Qed.

Lemma missing_aws_section_exits_1_witness :
  os_path_exists env_quiet Tcp.config_file = true
  /\ config_read env_quiet Tcp.config_file = Returns ([Tcp.config_file], [])
  /\ ("AWS"%string ∉ sections [])
  /\ fst (Tcp.main env_quiet 2 []) = Exited 1.
Proof.
  assert (H : ("AWS"%string ∉ sections [])) by (cbn; apply not_elem_of_nil).
  split; [reflexivity|]. split; [reflexivity|]. split; [exact H|].
  exact (f_equal fst (missing_aws_section_exits_1 env_quiet 2 [] [Tcp.config_file] []
                        eq_refl eq_refl H)).
Defined.

(** X3: only [FileNotFoundError] and [KeyError] raised while loading are
    reported as configuration errors and end in [sys.exit(1)]; any other
    exception raised there, such as the [ValueError] of an [AWS] port
    that is not a number, is not logged and reaches the top of the
    script.  Either way loading does nothing but log, and the process
    ends before the broker or a PLC is contacted. *)
Theorem config_failure_ends_before_polling (env : Env) (fuel : nat) (h : Trace)
    (e : PyExc) (es : Trace) :
  Tcp.load_configuration env (h ++ [EvLog (LogArchitecture (platform_architecture env))])
  = (Raises e, es) ->
  Tcp.main env fuel h
  = (if is_config_error e then Exited 1 else uncaught e,
     [EvLog (LogArchitecture (platform_architecture env))] ++ es
     ++ (if is_config_error e then [EvLog (LogConfigError e)] else []))
  /\ forallb is_log (snd (Tcp.main env fuel h)) = true.
Proof.
  intros H. pose proof (main_config_failure env fuel h e es H) as Hmain.
  split; [exact Hmain|]. rewrite Hmain. cbn [snd].
  pose proof (load_configuration_only_logs env
                (h ++ [EvLog (LogArchitecture (platform_architecture env))])) as Hl.
  rewrite H in Hl. cbn [snd] in Hl.
  rewrite !forallb_app, Hl. destruct (is_config_error e); reflexivity.
Qed.

Lemma config_failure_ends_before_polling_witness :
  Tcp.load_configuration (env_with_config config_bad_port env_quiet)
    ([] ++ [EvLog (LogArchitecture "64bit")])
  = (Raises (ValueError "invalid literal for int() with base 10: 'mqtt'"),
     [ EvLog (LogWorkingDirectory "D:"); EvLog (LogLoadedFiles [Tcp.config_file]);
       EvLog (LogSectionsFound ["AWS"%string]) ])
  /\ fst (Tcp.main (env_with_config config_bad_port env_quiet) 2 [])
     = Traceback (ValueError "invalid literal for int() with base 10: 'mqtt'").
Proof.
  assert (H : Tcp.load_configuration (env_with_config config_bad_port env_quiet)
                ([] ++ [EvLog (LogArchitecture "64bit")])
              = (Raises (ValueError "invalid literal for int() with base 10: 'mqtt'"),
                 [ EvLog (LogWorkingDirectory "D:"); EvLog (LogLoadedFiles [Tcp.config_file]);
                   EvLog (LogSectionsFound ["AWS"%string]) ]))
    by (vm_compute; reflexivity).
  split; [exact H|].
  exact (f_equal fst (proj1 (config_failure_ends_before_polling
                               (env_with_config config_bad_port env_quiet) 2 [] _ _ H))).
Defined.

Lemma opt_getitem_returns (opts : gmap string string) key v :
  opt_getitem opts key = Returns v -> opts !! key = Some v.
Proof. unfold opt_getitem. destruct (opts !! key); [intros [= ->]; reflexivity|discriminate]. Qed.

Lemma check_cert_returns env (opts : gmap string string) folder key :
  Tcp.check_cert env opts folder key = Returns () ->
  exists file, opts !! key = Some file
               /\ os_path_exists env (os_path_join env folder file) = true.
Proof.
  unfold Tcp.check_cert. destruct (opt_getitem opts key) as [file|] eqn:E; [|discriminate].
  cbn. destruct (os_path_exists env (os_path_join env folder file)) eqn:Hex; [|discriminate].
  intros _. exists file. split; [now apply opt_getitem_returns|exact Hex].
Qed.

(** X4: the settings [load_aws_config] returns come from the [AWS]
    section and always name certificate files that exist: the root CA,
    the private key and the certificate were all found under the
    certificate folder, and the port is the integer the section
    spells. *)
Theorem aws_settings_name_existing_files (env : Env) (config : ConfigParser)
    (s : AwsSettings) :
  Tcp.load_aws_config env config = Returns s ->
  os_path_exists env (root_ca s) = true
  /\ os_path_exists env (private_key s) = true
  /\ os_path_exists env (certificate s) = true
  /\ exists (opts : gmap string string) folder ca key cert prt,
       config_getitem config "AWS" = Returns opts
       /\ opts !! "certs_folder"%string = Some folder
       /\ opts !! "root_ca"%string = Some ca /\ root_ca s = os_path_join env folder ca
       /\ opts !! "private_key"%string = Some key
       /\ private_key s = os_path_join env folder key
       /\ opts !! "certificate"%string = Some cert
       /\ certificate s = os_path_join env folder cert
       /\ opts !! "thing_name"%string = Some (thing_name s)
       /\ opts !! "endpoint"%string = Some (endpoint s)
       /\ opts !! "topic"%string = Some (topic s)
       /\ opts !! "port"%string = Some prt /\ PyStr.int prt = Returns (aws_port s).
Proof.
  unfold Tcp.load_aws_config. intros H.
  destruct (config_getitem config "AWS") as [opts|] eqn:Hopts; [|discriminate]. cbn in H.
  destruct (opt_getitem opts "certs_folder") as [folder|] eqn:Hf; [|discriminate]. cbn in H.
  destruct (Tcp.check_cert env opts folder "root_ca") as [[]|] eqn:C1; [|discriminate].
  cbn in H.
  destruct (Tcp.check_cert env opts folder "private_key") as [[]|] eqn:C2; [|discriminate].
  cbn in H.
  destruct (Tcp.check_cert env opts folder "certificate") as [[]|] eqn:C3; [|discriminate].
  cbn in H.
  destruct (opt_getitem opts "thing_name") as [thing|] eqn:Ht; [|discriminate]. cbn in H.
  destruct (opt_getitem opts "endpoint") as [endp|] eqn:He; [|discriminate]. cbn in H.
  destruct (opt_getitem opts "port") as [prt|] eqn:Hp; [|discriminate]. cbn in H.
  destruct (PyStr.int prt) as [p|] eqn:Hint; [|discriminate]. cbn in H.
  destruct (opt_getitem opts "root_ca") as [ca|] eqn:Hca; [|discriminate]. cbn in H.
  destruct (opt_getitem opts "private_key") as [key|] eqn:Hkey; [|discriminate]. cbn in H.
  destruct (opt_getitem opts "certificate") as [cert|] eqn:Hcert; [|discriminate]. cbn in H.
  destruct (opt_getitem opts "topic") as [top|] eqn:Htop; [|discriminate]. cbn in H.
  injection H as <-. cbn.
  apply opt_getitem_returns in Hf, Ht, He, Hp, Hca, Hkey, Hcert, Htop.
  apply check_cert_returns in C1 as (f1 & F1 & X1).
  apply check_cert_returns in C2 as (f2 & F2 & X2).
  apply check_cert_returns in C3 as (f3 & F3 & X3).
  rewrite Hca in F1. rewrite Hkey in F2. rewrite Hcert in F3.
  injection F1 as <-. injection F2 as <-. injection F3 as <-.
  split; [exact X1|]. split; [exact X2|]. split; [exact X3|].
  exists opts, folder, ca, key, cert, prt. repeat split; assumption.
Qed.

Lemma aws_settings_name_existing_files_witness :
  Tcp.load_aws_config env_quiet config_example
  = Returns (mkAwsSettings "bridge" "example.iot.amazonaws.com" 8883
               "certs/root.pem" "certs/private.key" "certs/cert.pem" "plc/data")
  /\ os_path_exists env_quiet "certs/root.pem" = true.
Proof.
  assert (H : Tcp.load_aws_config env_quiet config_example
              = Returns (mkAwsSettings "bridge" "example.iot.amazonaws.com" 8883
                           "certs/root.pem" "certs/private.key" "certs/cert.pem" "plc/data"))
    by (vm_compute; reflexivity).
  split; [exact H|].
  exact (proj1 (aws_settings_name_existing_files env_quiet config_example _ H)).
Defined.

(** ** Loading the PLCs *)

Lemma load_plcs_loop_appends (config : ConfigParser) (names : list string) :
  forall acc plcs,
    Tcp.load_plcs_loop config names acc = Returns plcs ->
    exists new,
      plcs = acc ++ new
      /\ Forall2 (fun section plc =>
                    exists opts, config_getitem config section = Returns opts
                                 /\ Tcp.plc_of_section opts = Returns plc)
           (List.filter (fun section => negb (String.eqb section "AWS")) names) new.
Proof.
  induction names as [|section rest IH]; intros acc plcs; cbn [Tcp.load_plcs_loop List.filter].
  - intros [= <-]. exists []. rewrite app_nil_r. split; [reflexivity|constructor].
  - destruct (negb (String.eqb section "AWS")); [|apply IH].
    destruct (config_getitem config section) as [opts|e] eqn:Hopts; [|discriminate]. cbn.
    destruct (Tcp.plc_of_section opts) as [plc|e] eqn:Hplc; [|discriminate]. cbn.
    intros Hrun. destruct (IH _ _ Hrun) as (new & -> & HF).
    exists (plc :: new). rewrite <- app_assoc. split; [reflexivity|].
    constructor; [exists opts; split; assumption|exact HF].
Qed.

Lemma plc_of_section_fields (opts : gmap string string) (plc : PLC) :
  Tcp.plc_of_section opts = Returns plc ->
  opts !! "name"%string = Some (name plc)
  /\ opts !! "ip"%string = Some (ip plc)
  /\ match opts !! "port"%string with
     | Some v => PyStr.int v = Returns (port plc)
     | None => port plc = 502
     end
  /\ Tcp.parse_queries (PyStr.split ";" (default EmptyString (opts !! "queries"%string))) []
     = Returns (reads plc).
Proof.
  unfold Tcp.plc_of_section. intros H.
  destruct (Tcp.parse_queries _ []) as [rds|] eqn:Hq; [|discriminate]. cbn in H.
  destruct (opt_getitem opts "name") as [nm|] eqn:Hn; [|discriminate]. cbn in H.
  destruct (opt_getitem opts "ip") as [host|] eqn:Hi; [|discriminate]. cbn in H.
  apply opt_getitem_returns in Hn, Hi.
  destruct (opts !! "port"%string) as [v|].
  - destruct (PyStr.int v) as [p|] eqn:Hp; [|discriminate]. cbn in H.
    injection H as <-. cbn. repeat split; assumption.
  - cbn in H. injection H as <-. cbn. repeat split; assumption.
Qed.

(** X5: when the loader returns, it returns one PLC for every section
    other than [AWS], in the order of the file, and never one for [AWS];
    each PLC has the name and ip its section gives, the port its section
    spells or 502 when the section has none, and the reads its queries
    parse to. *)
Theorem one_plc_per_device_section (config : ConfigParser) (plcs : list PLC) :
  Tcp.load_plcs_loop config (sections config) [] = Returns plcs ->
  Forall2 (fun section plc =>
             exists opts : gmap string string,
               config_getitem config section = Returns opts
               /\ opts !! "name"%string = Some (name plc)
               /\ opts !! "ip"%string = Some (ip plc)
               /\ match opts !! "port"%string with
                  | Some v => PyStr.int v = Returns (port plc)
                  | None => port plc = 502
                  end
               /\ Tcp.parse_queries
                    (PyStr.split ";" (default EmptyString (opts !! "queries"%string))) []
                  = Returns (reads plc))
    (List.filter (fun section => negb (String.eqb section "AWS")) (sections config)) plcs
  /\ List.length plcs
     = List.length (List.filter (fun section => negb (String.eqb section "AWS"))
                      (sections config)).
Proof.
  intros H. destruct (load_plcs_loop_appends config (sections config) [] plcs H)
    as (new & -> & HF). cbn [app].
  split.
  - eapply Forall2_impl; [exact HF|].
    intros section plc (opts & Hopts & Hplc). exists opts. split; [exact Hopts|].
    now apply plc_of_section_fields.
  - symmetry. eapply Forall2_length, HF.
Qed.

Lemma one_plc_per_device_section_witness :
  Tcp.load_plcs_loop config_no_queries (sections config_no_queries) []
  = Returns [mkPLC "C" "10.0.0.7" 1502 []]
  /\ List.length [mkPLC "C" "10.0.0.7" 1502 []]
     = List.length (List.filter (fun section => negb (String.eqb section "AWS"))
                      (sections config_no_queries)).
Proof.
  assert (H : Tcp.load_plcs_loop config_no_queries (sections config_no_queries) []
              = Returns [mkPLC "C" "10.0.0.7" 1502 []]) by (vm_compute; reflexivity).
  split; [exact H|].
  exact (proj2 (one_plc_per_device_section config_no_queries _ H)).
Defined.

(** ** Devices without reads *)

Lemma parse_queries_dropped (entries : list string) : forall acc,
  forallb entry_dropped entries = true -> Tcp.parse_queries entries acc = Returns acc.
Proof.
  induction entries as [|q rest IH]; intros acc H; cbn [Tcp.parse_queries]; [reflexivity|].
  cbn [forallb] in H. apply andb_prop in H as [Hq Hrest]. unfold entry_dropped in Hq.
  destruct (PyStr.strip q) as [|c0 s0]; [now apply IH|].
  destruct (PyStr.split "," (String c0 s0)) as [|p0 [|p1 [|p2 ps]]]; try now apply IH.
  apply negb_true_iff in Hq. rewrite Hq. now apply IH.
Qed.

Lemma parse_queries_loads (entries : list string) : forall acc,
  forallb entry_loads entries = true ->
  exists rds, Tcp.parse_queries entries acc = Returns rds.
Proof.
  induction entries as [|q rest IH]; intros acc H; cbn [Tcp.parse_queries]; [eauto|].
  cbn [forallb] in H. apply andb_prop in H as [Hq Hrest]. unfold entry_loads in Hq.
  destruct (PyStr.strip q) as [|c0 s0]; [now apply IH|].
  destruct (PyStr.split "," (String c0 s0)) as [|p0 [|p1 [|p2 ps]]]; try now apply IH.
  destruct (PyStr.isdigit p0 && PyStr.isdigit p1); [|now apply IH].
  cbn [negb orb] in Hq. apply andb_prop in Hq as [H0 H1].
  destruct (PyStr.int p0) as [a|]; [|discriminate].
  destruct (PyStr.int p1) as [c|]; [|discriminate].
  cbn. now apply IH.
Qed.

(** A section with all the loader asks of it gives a PLC, and one
    without reads when none of its entries passes the guard. *)
Lemma plc_of_section_loads (opts : gmap string string) :
  device_section_loads opts = true ->
  exists plc,
    Tcp.plc_of_section opts = Returns plc
    /\ opts !! "name"%string = Some (name plc)
    /\ opts !! "ip"%string = Some (ip plc)
    /\ match opts !! "port"%string with
       | Some v => PyStr.int v = Returns (port plc)
       | None => port plc = 502
       end
    /\ (without_reads opts = true -> reads plc = []).
Proof.
  unfold device_section_loads, without_reads, queries_of, Tcp.plc_of_section, opt_getitem.
  destruct (opts !! "name"%string) as [nm|]; [|discriminate].
  destruct (opts !! "ip"%string) as [host|]; [|discriminate].
  intros H. apply andb_prop in H as [Hport Hq].
  destruct (parse_queries_loads _ [] Hq) as (rds & Hrds).
  assert (Hp : exists prt, match opts !! "port"%string with
                           | Some v => PyStr.int v
                           | None => Returns 502
                           end = Returns prt).
  { destruct (opts !! "port"%string) as [v|]; [|eauto].
    destruct (PyStr.int v) as [prt|]; [eauto|discriminate]. }
  destruct Hp as (prt & Hp). exists (mkPLC nm host prt rds).
  rewrite Hrds. cbn. rewrite Hp. cbn.
  split; [reflexivity|]. split; [reflexivity|]. split; [reflexivity|].
  split; [destruct (opts !! "port"%string); [exact Hp|now injection Hp]|].
  intros Hd. rewrite (parse_queries_dropped _ [] Hd) in Hrds. now injection Hrds as <-.
Qed.

Lemma config_getitem_in (config : ConfigParser) (s : ConfigSection) :
  NoDup (sections config) -> s ∈ config ->
  config_getitem config (sec_name s) = Returns (sec_opts s).
Proof.
  unfold config_getitem, sections.
  induction config as [|s0 config IH]; intros Hnd Hin; [inversion Hin|].
  cbn [map] in Hnd. apply NoDup_cons in Hnd as [Hnotin Hnd].
  cbn [List.find]. destruct (String.eqb (sec_name s0) (sec_name s)) eqn:E.
  - apply String.eqb_eq in E. apply elem_of_cons in Hin as [->|Hin]; [reflexivity|].
    exfalso. apply Hnotin. rewrite E. now apply (list_elem_of_fmap_2 sec_name).
  - apply elem_of_cons in Hin as [->|Hin]; [|now apply IH].
    rewrite String.eqb_refl in E. discriminate.
Qed.

Lemma load_plcs_loop_loads (config : ConfigParser) : forall (l : list ConfigSection) acc,
  (forall s, s ∈ l -> config_getitem config (sec_name s) = Returns (sec_opts s)) ->
  forallb (fun s => device_section_loads (sec_opts s)) (device_sections l) = true ->
  exists new,
    Tcp.load_plcs_loop config (sections l) acc = Returns (acc ++ new)
    /\ Forall2 (fun s plc =>
                  sec_opts s !! "name"%string = Some (name plc)
                  /\ sec_opts s !! "ip"%string = Some (ip plc)
                  /\ match sec_opts s !! "port"%string with
                     | Some v => PyStr.int v = Returns (port plc)
                     | None => port plc = 502
                     end
                  /\ (without_reads (sec_opts s) = true -> reads plc = []))
         (device_sections l) new.
Proof.
  induction l as [|s l IH]; intros acc Hget Hloads.
  - exists []. rewrite app_nil_r. split; [reflexivity|constructor].
  - unfold sections, device_sections in *. cbn [map List.filter Tcp.load_plcs_loop] in *.
    assert (Hget' : forall s', s' ∈ l ->
                      config_getitem config (sec_name s') = Returns (sec_opts s'))
      by (intros s' Hs'; apply Hget; now right).
    destruct (negb (String.eqb (sec_name s) "AWS")).
    + cbn [forallb] in Hloads. apply andb_prop in Hloads as [Hs Hl].
      rewrite (Hget s) by left.
      destruct (plc_of_section_loads (sec_opts s) Hs) as (plc & Hplc & Hn & Hi & Hpt & Hr).
      cbn. rewrite Hplc. cbn.
      destruct (IH (acc ++ [plc]) Hget' Hl) as (new & -> & HF).
      exists (plc :: new). rewrite <- app_assoc. split; [reflexivity|].
      constructor; [auto|exact HF].
    + apply IH; assumption.
Qed.

Lemma Forall3_of_Forall2 {A B C} (P : A -> B -> Prop) (Q : B -> C -> Prop)
    (l : list A) (k : list B) (m : list C) :
  Forall2 P l k -> Forall2 Q k m -> Forall3 (fun a b c => P a b /\ Q b c) l k m.
Proof.
  intros HP. revert m. induction HP as [|a b l k Hab _ IH]; intros m HQ.
  - inversion HQ; subst. constructor.
  - inversion HQ as [|? c ? m' Hbc HQ']; subst. constructor; [auto|now apply IH].
Qed.

(** C10: take a configuration whose device sections have all the loader
    asks of them.  The loader returns, with one PLC for every device
    section, in the order of the file; a section without a [queries]
    value, or of whose entries none passes the guard, is neither skipped
    nor refused: its PLC is there, with the section's name and ip and an
    empty read list.  In every sweep over the loaded PLCs that nothing
    interrupts such a PLC still gets its connect attempt and its
    [close()], with no read call and no publish; and the reader, given
    no spec, returns the empty list without a call. *)
Theorem empty_reads_still_polled (env : Env) (config : ConfigParser) (top : string)
    (h0 h : Trace) :
  connect_returns env -> reads_catchable env -> publishes_catchable env ->
  NoDup (sections config) ->
  forallb (fun s => device_section_loads (sec_opts s)) (device_sections config) = true ->
  exists plcs segs,
    Tcp.load_plcs_from_config config h0
    = (Returns plcs, [EvLog (LogPlcsLoaded (map name plcs))])
    /\ Tcp.sweep env top plcs h = (Returns (), List.concat segs)
    /\ Forall3 (fun s plc seg =>
                  sec_opts s !! "name"%string = Some (name plc)
                  /\ sec_opts s !! "ip"%string = Some (ip plc)
                  /\ match sec_opts s !! "port"%string with
                     | Some v => PyStr.int v = Returns (port plc)
                     | None => port plc = 502
                     end
                  /\ (without_reads (sec_opts s) = true ->
                      reads plc = [] /\ polled_without_reads plc seg))
         (device_sections config) plcs segs
    /\ (forall client h', Tcp.read_holding_registers env client [] h' = (Returns [], [])).
Proof.
  intros Hc Hr Hp Hnd Hloads.
  destruct (load_plcs_loop_loads config config []) as (plcs & Hload & HF); [|exact Hloads|].
  { intros s Hs. now apply config_getitem_in. }
  cbn [app] in Hload.
  destruct (tcp_sweep_segments env top
              (fun plc seg => reads plc = [] -> polled_without_reads plc seg) Hc Hr Hp)
    with (plcs := plcs) (h := h) as (segs & Hsweep & HS).
  { intros plc seg Hok Hreads. now apply (tcp_segment_without_reads top). }
  exists plcs, segs.
  split.
  { unfold Tcp.load_plcs_from_config. rewrite run_bind. unfold lift. rewrite Hload.
    reflexivity. }
  split; [exact Hsweep|]. split; [|reflexivity].
  eapply Forall3_impl; [exact (Forall3_of_Forall2 _ _ _ _ _ HF HS)|].
  cbn beta. intros s plc seg [(Hn & Hi & Hpt & Hreads) Hseg].
  split; [exact Hn|]. split; [exact Hi|]. split; [exact Hpt|].
  intros Hd. split; [auto|]. apply Hseg. auto.
Qed.

Lemma empty_reads_still_polled_witness :
  connect_returns env_one_down /\ reads_catchable env_one_down
  /\ publishes_catchable env_one_down
  /\ NoDup (sections config_idle_devices)
  /\ forallb (fun s => device_section_loads (sec_opts s))
       (device_sections config_idle_devices) = true
  /\ map without_reads (map sec_opts (device_sections config_idle_devices))
     = [false; true; true]
  /\ exists plcs segs,
       Tcp.load_plcs_from_config config_idle_devices []
       = (Returns plcs, [EvLog (LogPlcsLoaded (map name plcs))])
       /\ Tcp.sweep env_one_down "plc/data" plcs [] = (Returns (), List.concat segs)
       /\ Forall3 (fun s plc seg =>
                     sec_opts s !! "name"%string = Some (name plc)
                     /\ sec_opts s !! "ip"%string = Some (ip plc)
                     /\ match sec_opts s !! "port"%string with
                        | Some v => PyStr.int v = Returns (port plc)
                        | None => port plc = 502
                        end
                     /\ (without_reads (sec_opts s) = true ->
                         reads plc = [] /\ polled_without_reads plc seg))
            (device_sections config_idle_devices) plcs segs
       /\ (forall client h',
              Tcp.read_holding_registers env_one_down client [] h' = (Returns [], [])).
Proof.
  assert (Hc : connect_returns env_one_down) by oracle_fact.
  assert (Hr : reads_catchable env_one_down) by oracle_fact.
  assert (Hp : publishes_catchable env_one_down) by oracle_fact.
  assert (Hnd : NoDup (sections config_idle_devices))
    by (apply (bool_decide_unpack _); vm_compute; exact I).
  assert (Hl : forallb (fun s => device_section_loads (sec_opts s))
                 (device_sections config_idle_devices) = true) by (vm_compute; reflexivity).
  split; [exact Hc|]. split; [exact Hr|]. split; [exact Hp|]. split; [exact Hnd|].
  split; [exact Hl|]. split; [vm_compute; reflexivity|].
  exact (empty_reads_still_polled env_one_down config_idle_devices "plc/data" [] []
           Hc Hr Hp Hnd Hl).
Defined.

(** The example configuration, loaded and swept: the PLC without a
    [queries] value is down and the PLC with unparsable queries answers;
    both get their connect and their [close()], and neither a read nor a
    publish. *)
Example idle_devices_sweep :
  Tcp.load_plcs_loop config_idle_devices (sections config_idle_devices) []
  = Returns [ mkPLC "A" "10.0.0.5" 502 [mkReadSpec 0 2; mkReadSpec 1 2];
              mkPLC "B" "10.0.0.6" 502 [];
              mkPLC "C" "10.0.0.7" 1502 [] ]
  /\ List.filter (fun ev => negb (is_log ev))
       (snd (Tcp.sweep env_one_down "plc/data"
               [mkPLC "B" "10.0.0.6" 502 []; mkPLC "C" "10.0.0.7" 1502 []] []))
     = [ EvNewClient (mkClient 0 "10.0.0.6" 502);
         EvConnect (mkClient 0 "10.0.0.6" 502) (Returns false);
         EvClose (mkClient 0 "10.0.0.6" 502);
         EvNewClient (mkClient 1 "10.0.0.7" 1502);
         EvConnect (mkClient 1 "10.0.0.7" 1502) (Returns true);
         EvClose (mkClient 1 "10.0.0.7" 1502) ].
Proof. vm_compute. split; reflexivity. Qed.

(** ** Parsing the queries, continued *)

Lemma split_nonempty sep s : PyStr.split sep s <> [].
Proof.
  destruct s as [|c s]; cbn [PyStr.split]; [discriminate|].
  destruct (Ascii.eqb c sep); [discriminate|].
  destruct (PyStr.split sep s); discriminate.
Qed.

Lemma split_sep_app sep s1 s2 :
  PyStr.split sep (s1 +:+ String sep s2) = PyStr.split sep s1 ++ PyStr.split sep s2.
Proof.
  induction s1 as [|c s1 IH].
  - change (EmptyString +:+ String sep s2) with (String sep s2).
    cbn [PyStr.split]. rewrite Ascii.eqb_refl. reflexivity.
  - change (String c s1 +:+ String sep s2) with (String c (s1 +:+ String sep s2)).
    cbn [PyStr.split]. rewrite IH. destruct (Ascii.eqb c sep); [reflexivity|].
    pose proof (split_nonempty sep s1) as Hne.
    destruct (PyStr.split sep s1) as [|w ws]; [congruence|reflexivity].
Qed.

Lemma parse_queries_acc (entries : list string) : forall acc,
  Tcp.parse_queries entries acc
  = match Tcp.parse_queries entries [] with
    | Returns new => Returns (acc ++ new)
    | Raises e => Raises e
    end.
Proof.
  induction entries as [|q rest IH]; intros acc; cbn [Tcp.parse_queries].
  - cbn. rewrite app_nil_r. reflexivity.
  - destruct (PyStr.strip q) as [|c0 s0]; [apply IH|].
    destruct (PyStr.split "," (String c0 s0)) as [|p0 [|p1 [|p2 ps]]]; try apply IH.
    destruct (PyStr.isdigit p0 && PyStr.isdigit p1); [|apply IH].
    destruct (PyStr.int p0) as [a|e]; [|reflexivity].
    destruct (PyStr.int p1) as [c|e]; [|reflexivity].
    cbn. rewrite (IH (acc ++ [mkReadSpec a c])), (IH [mkReadSpec a c]).
    destruct (Tcp.parse_queries rest []); [|reflexivity].
    rewrite <- app_assoc. reflexivity.
Qed.

Lemma parse_queries_app (l1 l2 : list string) : forall acc,
  Tcp.parse_queries (l1 ++ l2) acc
  = match Tcp.parse_queries l1 acc with
    | Returns rds => Tcp.parse_queries l2 rds
    | Raises e => Raises e
    end.
Proof.
  induction l1 as [|q rest IH]; intros acc; cbn [app Tcp.parse_queries]; [reflexivity|].
  destruct (PyStr.strip q) as [|c0 s0]; [apply IH|].
  destruct (PyStr.split "," (String c0 s0)) as [|p0 [|p1 [|p2 ps]]]; try apply IH.
  destruct (PyStr.isdigit p0 && PyStr.isdigit p1); [|apply IH].
  destruct (PyStr.int p0) as [a|e]; [|reflexivity].
  destruct (PyStr.int p1) as [c|e]; [|reflexivity].
  cbn. apply IH.
Qed.

(** X6: entries are parsed one by one, in order: the queries string
    made of [s1], a semicolon and [s2] parses to the reads of [s1]
    followed by the reads of [s2], and it raises exactly when one of the
    two raises, with the exception of the first that does. *)
Theorem parse_queries_concatenates (s1 s2 : string) :
  Tcp.parse_queries (PyStr.split ";" (s1 +:+ ";" +:+ s2)) []
  = match Tcp.parse_queries (PyStr.split ";" s1) [] with
    | Returns r1 =>
        match Tcp.parse_queries (PyStr.split ";" s2) [] with
        | Returns r2 => Returns (r1 ++ r2)
        | Raises e => Raises e
        end
    | Raises e => Raises e
    end.
Proof.
  change (s1 +:+ ";" +:+ s2) with (s1 +:+ String ";" s2).
  rewrite split_sep_app, parse_queries_app.
  destruct (Tcp.parse_queries (PyStr.split ";" s1) []) as [r1|e]; [|reflexivity].
  apply parse_queries_acc.
Qed.

(** X7: when every entry of a queries string has at most 4300
    characters and none that [isdigit()] accepts other than 0..9, the
    loop does not raise, and it returns exactly the entries that,
    stripped of surrounding whitespace, are two comma-separated runs of
    decimal digits, with their decimal values, in input order. *)
Theorem parse_queries_reads_plain_entries (queries : string) :
  Forall plain_entry (PyStr.split ";" queries) ->
  Tcp.parse_queries (PyStr.split ";" queries) [] = Returns (spec_parse queries).
Proof.
  intros H. unfold spec_parse.
  rewrite (parse_queries_refines (PyStr.split ";" queries) [] H). reflexivity.
Qed.

Lemma parse_queries_reads_plain_entries_witness :
  Forall plain_entry (PyStr.split ";" " 10,2 ;x;007,1;3,-1")
  /\ Tcp.parse_queries (PyStr.split ";" " 10,2 ;x;007,1;3,-1") []
     = Returns (spec_parse " 10,2 ;x;007,1;3,-1")
  /\ spec_parse " 10,2 ;x;007,1;3,-1" = [mkReadSpec 10 2; mkReadSpec 7 1].
Proof.
  assert (H : Forall plain_entry (PyStr.split ";" " 10,2 ;x;007,1;3,-1")).
  { apply plain_entries; [reflexivity|simpl; lia]. }
  split; [exact H|].
  split; [exact (parse_queries_reads_plain_entries " 10,2 ;x;007,1;3,-1" H)|].
  reflexivity.
Defined.

(** The bound on the length is needed: an address of 4301 digits passes
    [isdigit()] and makes [int()], and with it the loop, raise. *)
Example parse_queries_over_the_limit :
  no_superscript (digits_4301 +:+ ",1") = true
  /\ Tcp.parse_queries (PyStr.split ";" (digits_4301 +:+ ",1")) []
     = Raises (ValueError
                 ("Exceeds the limit (4300 digits) for integer string conversion: "
                  +:+ "value has 4301 digits; "
                  +:+ "use sys.set_int_max_str_digits() to increase the limit")).
Proof. vm_compute. split; reflexivity. Qed.

Lemma lstrip_shape s :
  PyStr.lstrip s = EmptyString
  \/ exists c t, PyStr.lstrip s = String c t /\ PyStr.isspace c = false.
Proof.
  induction s as [|c s IH]; cbn; [left; reflexivity|].
  destruct (PyStr.isspace c) eqn:Hc; [exact IH|]. right. eauto.
Qed.

Lemma rstrip_idempotent s : PyStr.rstrip (PyStr.rstrip s) = PyStr.rstrip s.
Proof.
  induction s as [|c s IH]; cbn; [reflexivity|].
  destruct (PyStr.rstrip s) as [|c' r] eqn:Hr.
  - destruct (PyStr.isspace c) eqn:Hc; cbn; [reflexivity|]. rewrite Hc. reflexivity.
  - cbn [PyStr.rstrip] in IH |- *. rewrite IH. reflexivity.
Qed.

Lemma rstrip_keeps_head c t :
  PyStr.isspace c = false -> exists r, PyStr.rstrip (String c t) = String c r.
Proof.
  intros Hc. cbn. destruct (PyStr.rstrip t); [rewrite Hc|]; eauto.
Qed.

Lemma strip_idempotent s : PyStr.strip (PyStr.strip s) = PyStr.strip s.
Proof.
  unfold PyStr.strip.
  destruct (lstrip_shape s) as [->|(c & t & -> & Hc)]; [reflexivity|].
  destruct (rstrip_keeps_head c t Hc) as (r & Hr).
  rewrite Hr. cbn [PyStr.lstrip]. rewrite Hc, <- Hr. apply rstrip_idempotent.
Qed.

(** X8: whitespace around an entry does not matter: parsing the entries
    and parsing the stripped entries give the same reads, or raise the
    same exception. *)
Theorem parse_queries_ignores_outer_whitespace (entries : list string)
    (acc : list ReadSpec) :
  Tcp.parse_queries (map PyStr.strip entries) acc = Tcp.parse_queries entries acc.
Proof.
  revert acc. induction entries as [|q rest IH]; intros acc; [reflexivity|].
  cbn [map Tcp.parse_queries]. rewrite strip_idempotent.
  destruct (PyStr.strip q) as [|c0 s0]; [apply IH|].
  destruct (PyStr.split "," (String c0 s0)) as [|p0 [|p1 [|p2 ps]]]; try apply IH.
  destruct (PyStr.isdigit p0 && PyStr.isdigit p1); [|apply IH].
  destruct (PyStr.int p0) as [a|e]; [|reflexivity].
  destruct (PyStr.int p1) as [c|e]; [|reflexivity].
  cbn. apply IH.
Qed.

(** ** The readers, whatever the device does *)

Lemma tcp_classify_raises addr o e :
  tcp_classify addr o = Raises e -> o = Raises e /\ is_Exception e = false.
Proof.
  destruct o as [resp|e']; cbn; [discriminate|].
  destruct e'; cbn; try discriminate; intros [= <-]; split; reflexivity.
Qed.

Lemma ip_classify_raises addr o e :
  ip_classify addr o = Raises e -> o = Raises e /\ is_Exception e = false.
Proof.
  destruct o as [resp|e']; cbn; [discriminate|].
  destruct e'; cbn; try discriminate; intros [= <-]; split; reflexivity.
Qed.

Lemma tcp_classify_well_formed addr o r :
  tcp_classify addr o = Returns r -> well_formed_result r = true /\ fst (fst r) = addr.
Proof.
  destruct o as [resp|e]; cbn.
  - destruct resp; intros [= <-]; split; reflexivity.
  - destruct e; cbn; try discriminate; intros [= <-]; split; reflexivity.
Qed.

Lemma ip_classify_well_formed addr o r :
  ip_classify addr o = Returns r -> well_formed_result r = true /\ fst (fst r) = addr.
Proof.
  destruct o as [resp|e]; cbn.
  - destruct resp; intros [= <-]; split; reflexivity.
  - destruct e; cbn; try discriminate; intros [= <-]; split; reflexivity.
Qed.

(** What both readers do when a call is interrupted, and what they
    return otherwise, with no assumption on the device. *)
Section ReaderLoopAlways.
Variable loop : list ReadSpec -> list ReadTuple -> Prog (list ReadTuple).
Variable attempt : Trace -> ReadSpec -> Trace * Outcome Response.
Variable classify : Z -> Outcome Response -> Outcome ReadTuple.

Hypothesis loop_nil : forall acc h, loop [] acc h = (Returns acc, []).
Hypothesis loop_cons : forall item rest acc h,
  loop (item :: rest) acc h =
  let '(evs, o) := attempt h item in
  match classify (address item) o with
  | Returns r =>
      let '(res, es) := loop rest (acc ++ [r]) (h ++ evs) in (res, evs ++ es)
  | Raises e => (Raises e, evs)
  end.
Hypothesis classify_raises : forall addr o e,
  classify addr o = Raises e -> o = Raises e /\ is_Exception e = false.
Hypothesis classify_well_formed : forall addr o r,
  classify addr o = Returns r -> well_formed_result r = true /\ fst (fst r) = addr.
Hypothesis attempt_last : forall h item,
  exists c u before,
    read_calls (fst (attempt h item))
    = before ++ [(c, address item, count item, u, snd (attempt h item))].

Lemma loop_raises_interrupt rds : forall acc h e es,
  loop rds acc h = (Raises e, es) ->
  is_Exception e = false
  /\ exists calls c a n u, read_calls es = calls ++ [(c, a, n, u, Raises e)].
Proof.
  induction rds as [|item rest IH]; intros acc h e es.
  - rewrite loop_nil. discriminate.
  - rewrite loop_cons. destruct (attempt_last h item) as (c & u & before & Hlast).
    destruct (attempt h item) as [evs o]. cbn [fst snd] in Hlast.
    destruct (classify (address item) o) as [r|e'] eqn:Hcl.
    + destruct (loop rest (acc ++ [r]) (h ++ evs)) as [res es'] eqn:Hrest.
      intros [= -> <-]. destruct (IH _ _ _ _ Hrest) as (He & calls & c' & a & n & u' & Hc).
      split; [exact He|].
      exists (read_calls evs ++ calls), c', a, n, u'.
      rewrite read_calls_app, Hc, app_assoc. reflexivity.
    + intros [= <- <-]. destruct (classify_raises _ _ _ Hcl) as [-> He].
      split; [exact He|]. exists before, c, (address item), (count item), u. exact Hlast.
Qed.

Lemma loop_returns_well_formed rds : forall acc h results es,
  loop rds acc h = (Returns results, es) ->
  exists new,
    results = acc ++ new
    /\ forallb well_formed_result new = true
    /\ map (fun r => fst (fst r)) new = map address rds.
Proof.
  induction rds as [|item rest IH]; intros acc h results es.
  - rewrite loop_nil. intros [= <- <-]. exists []. rewrite app_nil_r. auto.
  - rewrite loop_cons. destruct (attempt h item) as [evs o].
    destruct (classify (address item) o) as [r|e'] eqn:Hcl; [|discriminate].
    destruct (loop rest (acc ++ [r]) (h ++ evs)) as [res es'] eqn:Hrest.
    intros [= -> <-]. destruct (IH _ _ _ _ Hrest) as (new & -> & Hwf & Haddr).
    destruct (classify_well_formed _ _ _ Hcl) as [Hr Ha].
    exists (r :: new). rewrite <- app_assoc. cbn. rewrite Hr, Hwf, Ha, Haddr. auto.
Qed.

End ReaderLoopAlways.

Lemma ip_attempt_last env client h item :
  exists c u before,
    read_calls (fst (ip_attempt env client h item))
    = before ++ [(c, address item, count item, u, snd (ip_attempt env client h item))].
Proof.
  unfold ip_attempt.
  destruct (modbus_read env h client (address item) (count item) (Some 1)) as [resp|e].
  - exists client, (Some 1), []. reflexivity.
  - destruct e; try (exists client, (Some 1), []; reflexivity).
    eexists client, None, [_]. reflexivity.
Qed.

(** X9: the readers of tcp.py and ip.py let no exception deriving from
    [Exception] out, whatever the device does: when [read_holding_registers]
    raises, what it raises is the [KeyboardInterrupt] or [SystemExit] that
    its last call raised, and no call is made after that one. *)
Theorem reader_raises_only_interrupts (env : Env) (client : Client)
    (rds : list ReadSpec) (h : Trace) (e : PyExc) (es : Trace) :
  Tcp.read_holding_registers env client rds h = (Raises e, es)
  \/ Ip.read_holding_registers env client rds h = (Raises e, es) ->
  is_Exception e = false
  /\ exists calls c a n u, read_calls es = calls ++ [(c, a, n, u, Raises e)].
Proof.
  intros [H|H].
  - apply (loop_raises_interrupt (Tcp.read_loop env client) (tcp_attempt env client)
             tcp_classify) with (rds := rds) (acc := []) (h := h).
    + reflexivity.
    + apply tcp_read_loop_cons.
    + apply tcp_classify_raises.
    + intros h' item. exists client, (Some 1), []. reflexivity.
    + exact H.
  - apply (loop_raises_interrupt (Ip.read_loop env client) (ip_attempt env client)
             ip_classify) with (rds := rds) (acc := []) (h := h).
    + reflexivity.
    + apply ip_read_loop_cons.
    + apply ip_classify_raises.
    + apply ip_attempt_last.
    + exact H.
Qed.

Lemma reader_raises_only_interrupts_witness :
  Tcp.read_holding_registers env_interrupted client0 [mkReadSpec 0 2; mkReadSpec 1 2;
                                                      mkReadSpec 4 1] []
  = (Raises KeyboardInterrupt,
     [ EvRead client0 0 2 (Some 1)
         (Returns (RegistersResponse [7; 42] "ReadHoldingRegistersResponse (2)"));
       EvRead client0 1 2 (Some 1) (Raises KeyboardInterrupt) ])
  /\ is_Exception KeyboardInterrupt = false.
Proof.
  assert (H : Tcp.read_holding_registers env_interrupted client0
                [mkReadSpec 0 2; mkReadSpec 1 2; mkReadSpec 4 1] []
              = (Raises KeyboardInterrupt,
                 [ EvRead client0 0 2 (Some 1)
                     (Returns (RegistersResponse [7; 42] "ReadHoldingRegistersResponse (2)"));
                   EvRead client0 1 2 (Some 1) (Raises KeyboardInterrupt) ]))
    by reflexivity.
  split; [exact H|].
  exact (proj1 (reader_raises_only_interrupts env_interrupted client0 _ [] _ _ (or_introl H))).
Defined.

(** X10: every tuple the readers return is well formed, whatever the
    device does: it carries the address of its spec, and either values
    and no error, or no values and an error text that is not empty; so
    the test [if error:] of the callers tells the two apart. *)
Theorem reader_results_well_formed (env : Env) (client : Client)
    (rds : list ReadSpec) (h : Trace) (results : list ReadTuple) (es : Trace) :
  Tcp.read_holding_registers env client rds h = (Returns results, es)
  \/ Ip.read_holding_registers env client rds h = (Returns results, es) ->
  forallb well_formed_result results = true
  /\ map (fun r => fst (fst r)) results = map address rds
  /\ Forall (fun r => is_err r = true <-> snd (fst r) = None) results.
Proof.
  intros H.
  assert (Hwf : forallb well_formed_result results = true
                /\ map (fun r => fst (fst r)) results = map address rds).
  { destruct H as [H|H].
    - destruct (loop_returns_well_formed (Tcp.read_loop env client) (tcp_attempt env client)
                  tcp_classify) with (rds := rds) (acc := @nil ReadTuple) (h := h)
                  (results := results) (es := es) as (new & -> & H1 & H2);
        [reflexivity|apply tcp_read_loop_cons|apply tcp_classify_well_formed|exact H|].
      split; assumption.
    - destruct (loop_returns_well_formed (Ip.read_loop env client) (ip_attempt env client)
                  ip_classify) with (rds := rds) (acc := @nil ReadTuple) (h := h)
                  (results := results) (es := es) as (new & -> & H1 & H2);
        [reflexivity|apply ip_read_loop_cons|apply ip_classify_well_formed|exact H|].
      split; assumption. }
  destruct Hwf as [Hwf Haddr]. split; [exact Hwf|]. split; [exact Haddr|].
  apply List.Forall_forall. intros [[a v] err] Hin.
  rewrite List.forallb_forall in Hwf. specialize (Hwf _ Hin).
  unfold is_err. cbn.
  destruct v as [l|], err as [[|c s]|]; cbn in Hwf; try discriminate Hwf;
    split; intros; try discriminate; try reflexivity.
Qed.

Lemma reader_results_well_formed_witness :
  Ip.read_holding_registers env_faulty_reads client0 [mkReadSpec 1 2; mkReadSpec 2 1] []
  = (Returns [ (1, None, Some "Modbus Exception Code: 2"%string);
               (2, None,
                Some "Modbus Error: Modbus Error: [Input/Output] No response received"%string) ],
     [ EvRead client0 1 2 (Some 1)
         (Returns (ErrorResponse (Some 2) "Exception Response(131, 3, IllegalAddress)"));
       EvRead client0 2 1 (Some 1)
         (Raises (ModbusException "Modbus Error: [Input/Output] No response received")) ])
  /\ forallb well_formed_result
       [ (1, None, Some "Modbus Exception Code: 2"%string);
         (2, None,
          Some "Modbus Error: Modbus Error: [Input/Output] No response received"%string) ]
     = true.
Proof.
  assert (H : Ip.read_holding_registers env_faulty_reads client0
                [mkReadSpec 1 2; mkReadSpec 2 1] []
              = (Returns [ (1, None, Some "Modbus Exception Code: 2"%string);
                           (2, None,
                            Some "Modbus Error: Modbus Error: [Input/Output] No response received"%string) ],
                 [ EvRead client0 1 2 (Some 1)
                     (Returns (ErrorResponse (Some 2)
                                 "Exception Response(131, 3, IllegalAddress)"));
                   EvRead client0 2 1 (Some 1)
                     (Raises (ModbusException
                                "Modbus Error: [Input/Output] No response received")) ]))
    by reflexivity.
  split; [exact H|].
  exact (proj1 (reader_results_well_formed env_faulty_reads client0 _ [] _ _ (or_intror H))).
Defined.

(** ** tcp.py and the [unit] keyword *)

Lemma tcp_reader_unit_rejected env client :
  unit_keyword_rejected env ->
  forall rds acc h,
    exists new es,
      Tcp.read_loop env client rds acc h = (Returns (acc ++ new), es)
      /\ forallb is_err new = true
      /\ List.length new = List.length rds.
Proof.
  intros Hu. induction rds as [|item rest IH]; intros acc h.
  - exists [], []. rewrite app_nil_r. auto.
  - rewrite tcp_read_loop_cons. unfold tcp_attempt.
    destruct (Hu h client (address item) (count item)) as (msg & ->).
    cbn [tcp_classify is_ModbusException is_Exception].
    match goal with |- context [Tcp.read_loop env client rest ?a ?b] =>
      destruct (IH a b) as (new & es & -> & Herr & Hlen)
    end.
    eexists (_ :: new), _. rewrite <- app_assoc. split; [reflexivity|].
    cbn. rewrite Herr, Hlen. auto.
Qed.





(** ** The two readers side by side *)

Lemma classify_agree addr o :
  match tcp_classify addr o, ip_classify addr o with
  | Returns r1, Returns r2 => result_view r1 = result_view r2 /\ is_err r1 = is_err r2
  | Raises e1, Raises e2 => e1 = e2
  | _, _ => False
  end.
Proof.
  destruct o as [resp|e]; cbn.
  - destruct resp; split; reflexivity.
  - destruct e; cbn; try reflexivity; split; reflexivity.
Qed.

Lemma ip_attempt_unit_accepted env client h item :
  raises_type_error (modbus_read env h client (address item) (count item) (Some 1)) = false ->
  ip_attempt env client h item = tcp_attempt env client h item.
Proof.
  unfold ip_attempt, tcp_attempt.
  destruct (modbus_read env h client (address item) (count item) (Some 1)) as [resp|e];
    [reflexivity|].
  destruct e; cbn; try reflexivity. discriminate.
Qed.

Lemma read_loops_agree env client :
  unit_keyword_accepted env ->
  forall rds acc1 acc2 h,
    map result_view acc1 = map result_view acc2 ->
    map is_err acc1 = map is_err acc2 ->
    snd (Ip.read_loop env client rds acc2 h) = snd (Tcp.read_loop env client rds acc1 h)
    /\ readers_agree (fst (Tcp.read_loop env client rds acc1 h))
                     (fst (Ip.read_loop env client rds acc2 h)).
Proof.
  intros Hu. induction rds as [|item rest IH]; intros acc1 acc2 h Hv He.
  - cbn. auto.
  - rewrite tcp_read_loop_cons, ip_read_loop_cons.
    rewrite (ip_attempt_unit_accepted env client h item (Hu h client _ _)).
    destruct (tcp_attempt env client h item) as [evs o].
    pose proof (classify_agree (address item) o) as Hcl.
    destruct (tcp_classify (address item) o) as [r1|e1],
             (ip_classify (address item) o) as [r2|e2]; try contradiction.
    + destruct Hcl as [Hr1 Hr2].
      specialize (IH (acc1 ++ [r1]) (acc2 ++ [r2]) (h ++ evs)).
      rewrite !map_app in IH. cbn [map] in IH. rewrite Hv, He, Hr1, Hr2 in IH.
      destruct (IH eq_refl eq_refl) as [I1 I2].
      destruct (Tcp.read_loop env client rest (acc1 ++ [r1]) (h ++ evs)) as [res1 es1].
      destruct (Ip.read_loop env client rest (acc2 ++ [r2]) (h ++ evs)) as [res2 es2].
      cbn [fst snd] in *. subst es2. split; [reflexivity|exact I2].
    + subst e2. cbn. auto.
Qed.

(** X12: with a pymodbus that accepts the [unit] keyword the readers of
    tcp.py and ip.py cannot be told apart from the outside: on the same
    client, specs and history they make the same calls, raise the same
    exception if they raise, and otherwise return results with the same
    addresses, the same values and the same errors up to the wording of
    the error text. *)
Theorem readers_agree_when_unit_accepted (env : Env) (client : Client)
    (rds : list ReadSpec) (h : Trace) :
  unit_keyword_accepted env ->
  snd (Ip.read_holding_registers env client rds h)
  = snd (Tcp.read_holding_registers env client rds h)
  /\ readers_agree (fst (Tcp.read_holding_registers env client rds h))
                   (fst (Ip.read_holding_registers env client rds h)).
Proof.
  intros Hu. apply (read_loops_agree env client Hu rds [] [] h); reflexivity.
Qed.

Lemma readers_agree_when_unit_accepted_witness :
  unit_keyword_accepted env_faulty_reads
  /\ snd (Ip.read_holding_registers env_faulty_reads client0
            [mkReadSpec 0 2; mkReadSpec 1 2; mkReadSpec 2 2] [])
     = snd (Tcp.read_holding_registers env_faulty_reads client0
              [mkReadSpec 0 2; mkReadSpec 1 2; mkReadSpec 2 2] []).
Proof.
  assert (Hu : unit_keyword_accepted env_faulty_reads) by oracle_fact.
  split; [exact Hu|].
  exact (proj1 (readers_agree_when_unit_accepted env_faulty_reads client0
                  [mkReadSpec 0 2; mkReadSpec 1 2; mkReadSpec 2 2] [] Hu)).
Defined.

(** ** Requests to the device *)

Lemma requests_app has_unit es1 es2 :
  requests has_unit (es1 ++ es2) = requests has_unit es1 ++ requests has_unit es2.
Proof. unfold requests, read_calls. rewrite omap_app, List.filter_app. reflexivity. Qed.

Lemma requests_with_unit (es : Trace) : requests true es = read_calls es.
Proof.
  unfold requests. induction (read_calls es) as [|[[[[c a] n] [u|]] o] l IH];
    cbn; rewrite ?IH; reflexivity.
Qed.

Lemma tcp_read_loop_sends_nothing env client :
  unit_keyword_rejected env ->
  forall rds acc h,
    map call_key (read_calls (snd (Tcp.read_loop env client rds acc h)))
    = map (fun s => (address s, count s, Some 1)) rds
    /\ requests false (snd (Tcp.read_loop env client rds acc h)) = [].
Proof.
  intros Hu. induction rds as [|item rest IH]; intros acc h.
  - split; reflexivity.
  - rewrite tcp_read_loop_cons. unfold tcp_attempt.
    destruct (Hu h client (address item) (count item)) as (msg & ->).
    cbn [tcp_classify is_ModbusException is_Exception].
    match goal with |- context [Tcp.read_loop env client rest ?a ?b] =>
      destruct (IH a b) as [Hk Hq]; destruct (Tcp.read_loop env client rest a b) as [res es]
    end.
    cbn [snd] in *. rewrite requests_app, read_calls_app, Hq, map_app, Hk.
    split; reflexivity.
Qed.

Lemma ip_read_loop_falls_back env client :
  unit_keyword_rejected env -> reads_catchable env ->
  forall rds acc h,
    exists new es,
      Ip.read_loop env client rds acc h = (Returns (acc ++ new), es)
      /\ map call_key (requests false es) = map (fun s => (address s, count s, None)) rds
      /\ map result_view new = map call_view (requests false es).
Proof.
  intros Hu Hr. induction rds as [|item rest IH]; intros acc h.
  - exists [], []. rewrite app_nil_r. repeat split; reflexivity.
  - rewrite ip_read_loop_cons. unfold ip_attempt.
    destruct (Hu h client (address item) (count item)) as (msg & ->).
    set (ev1 := EvRead client (address item) (count item) (Some 1) (Raises (TypeError msg))).
    pose proof (Hr (h ++ [ev1]) client (address item) (count item) None) as Hcatch.
    destruct (ip_classify_spec (address item) _ Hcatch) as (r & -> & Hview & _).
    match goal with |- context [Ip.read_loop env client rest ?a ?b] =>
      destruct (IH a b) as (new & es & -> & Hk & Hv)
    end.
    exists (r :: new), ([ev1; EvRead client (address item) (count item) None
                               (modbus_read env (h ++ [ev1]) client (address item)
                                  (count item) None)] ++ es).
    rewrite <- app_assoc. split; [reflexivity|].
    rewrite requests_app, !map_app, Hk. cbn [map]. rewrite Hv, Hview.
    split; reflexivity.
Qed.

(** With a library that has the [unit] parameter, and whose method
    raises no [TypeError] of its own, the claim holds of both readers:
    every call is a request, and there is exactly one per spec, in the
    order of the specs, whatever its outcome. *)
Lemma one_request_per_spec_with_unit_keyword (env : Env) (client : Client)
    (rds : list ReadSpec) (h : Trace) :
  unit_keyword_accepted env -> reads_catchable env ->
  map call_key (requests true (snd (Tcp.read_holding_registers env client rds h)))
  = map (fun s => (address s, count s, Some 1)) rds
  /\ map call_key (requests true (snd (Ip.read_holding_registers env client rds h)))
     = map (fun s => (address s, count s, Some 1)) rds.
Proof.
  intros Hu Hr.
  destruct (read_loops_agree env client Hu rds [] [] h eq_refl eq_refl) as [Hsame _].
  unfold Ip.read_holding_registers, Tcp.read_holding_registers. rewrite Hsame.
  rewrite requests_with_unit. split; apply tcp_read_loop_calls, Hr.
Qed.

(** C8 fails on tcp.py with a library whose [read_holding_registers] has
    no [unit] parameter: the reader makes its one call per spec with
    [unit=1], every call raises [TypeError] when its arguments are bound,
    and not one request goes to the device; every spec ends as an error
    result.  ip.py, given the same library, client and specs, makes up
    for each rejected call with a call without [unit]: exactly one
    request per spec goes to the device, in the order of the specs, and
    the results report what the requests gave. *)
Theorem tcp_sends_no_request_without_unit_keyword (env : Env) (client : Client)
    (rds : list ReadSpec) (h : Trace) :
  unit_keyword_rejected env -> reads_catchable env ->
  (exists results es,
      Tcp.read_holding_registers env client rds h = (Returns results, es)
      /\ map call_key (read_calls es) = map (fun s => (address s, count s, Some 1)) rds
      /\ requests false es = []
      /\ List.length results = List.length rds
      /\ forallb is_err results = true)
  /\ (exists results es,
        Ip.read_holding_registers env client rds h = (Returns results, es)
        /\ map call_key (requests false es)
           = map (fun s => (address s, count s, None)) rds
        /\ map result_view results = map call_view (requests false es)).
Proof.
  intros Hu Hr. split.
  - destruct (tcp_reader_unit_rejected env client Hu rds [] h) as (new & es & Hrun & He & Hl).
    destruct (tcp_read_loop_sends_nothing env client Hu rds [] h) as [Hk Hq].
    rewrite Hrun in Hk, Hq. cbn [snd] in Hk, Hq.
    exists new, es. repeat split; assumption.
  - destruct (ip_read_loop_falls_back env client Hu Hr rds [] h) as (new & es & Hrun & Hk & Hv).
    exists new, es. repeat split; assumption.
Qed.

Lemma tcp_sends_no_request_without_unit_keyword_witness :
  unit_keyword_rejected env_no_unit_keyword /\ reads_catchable env_no_unit_keyword
  /\ (exists results es,
        Tcp.read_holding_registers env_no_unit_keyword client0
          [mkReadSpec 0 2; mkReadSpec 1 2] [] = (Returns results, es)
        /\ map call_key (read_calls es) = [(0, 2, Some 1); (1, 2, Some 1)]
        /\ requests false es = []
        /\ List.length results = 2%nat
        /\ forallb is_err results = true)
  /\ (exists results es,
        Ip.read_holding_registers env_no_unit_keyword client0
          [mkReadSpec 0 2; mkReadSpec 1 2] [] = (Returns results, es)
        /\ map call_key (requests false es) = [(0, 2, None); (1, 2, None)]
        /\ map result_view results = map call_view (requests false es)).
Proof.
  assert (Hu : unit_keyword_rejected env_no_unit_keyword)
    by (intros h c a n; eexists; reflexivity).
  assert (Hr : reads_catchable env_no_unit_keyword) by (intros h c a n [u|]; reflexivity).
  split; [exact Hu|]. split; [exact Hr|].
  exact (tcp_sends_no_request_without_unit_keyword env_no_unit_keyword client0
           [mkReadSpec 0 2; mkReadSpec 1 2] [] Hu Hr).
Defined.

(** The two readers on the same two specs, call by call. *)
Example readers_without_unit_keyword :
  let rejected :=
    Raises (TypeError "read_holding_registers() got an unexpected keyword argument 'unit'") in
  let registers := Returns (RegistersResponse [7; 42] "ReadHoldingRegistersResponse (2)") in
  Tcp.read_holding_registers env_no_unit_keyword client0 [mkReadSpec 0 2; mkReadSpec 1 2] []
  = (Returns
       [ (0, None,
          Some "Error: read_holding_registers() got an unexpected keyword argument 'unit'"%string);
         (1, None,
          Some "Error: read_holding_registers() got an unexpected keyword argument 'unit'"%string) ],
     [ EvRead client0 0 2 (Some 1) rejected; EvRead client0 1 2 (Some 1) rejected ])
  /\ Ip.read_holding_registers env_no_unit_keyword client0 [mkReadSpec 0 2; mkReadSpec 1 2] []
     = (Returns [ (0, Some [7; 42], None); (1, Some [7; 42], None) ],
        [ EvRead client0 0 2 (Some 1) rejected; EvRead client0 0 2 None registers;
          EvRead client0 1 2 (Some 1) rejected; EvRead client0 1 2 None registers ]).
Proof. split; reflexivity. Qed.

(** ** Publishing, whatever the broker does *)

(** X13: [publish_to_aws] makes exactly one call to [publish], with QoS 0
    and the JSON text of the payload stamped with the clock at entry,
    whatever the broker answers, and never a second one.  It returns
    when the call returned or raised an exception deriving from
    [Exception]; what it raises otherwise is what the call raised, and
    that never derives from [Exception]. *)
Theorem publish_to_aws_one_attempt (env : Env) (top nm : string) (a : Z)
    (v : option (list Z)) (h : Trace) :
  let message := Json.dumps (payload_dict (time_ms env h) nm a v) in
  publishes (snd (Tcp.publish_to_aws env top nm a v h)) = [(top, message)]
  /\ publish_qos (snd (Tcp.publish_to_aws env top nm a v h)) = [0]
  /\ (catchable (mqtt_publish env h top message 0) = true ->
      fst (Tcp.publish_to_aws env top nm a v h) = Returns ())
  /\ (forall e, fst (Tcp.publish_to_aws env top nm a v h) = Raises e ->
                mqtt_publish env h top message 0 = Raises e /\ is_Exception e = false).
Proof.
  intros message. rewrite publish_to_aws_run. cbv zeta. fold message.
  destruct (mqtt_publish env h top message 0) as [b|e].
  - repeat split; try reflexivity; discriminate.
  - destruct (is_Exception e) eqn:He; cbn.
    + repeat split; try reflexivity; discriminate.
    + repeat split; try reflexivity; try discriminate; try congruence.
Qed.

Lemma publish_to_aws_one_attempt_witness :
  catchable (mqtt_publish env_quiet [] "plc/data"
               (Json.dumps (payload_dict (time_ms env_quiet []) "A" 0 (Some [7; 42]))) 0) = true
  /\ fst (Tcp.publish_to_aws env_quiet "plc/data" "A" 0 (Some [7; 42]) []) = Returns ().
Proof.
  split; [reflexivity|].
  exact (proj1 (proj2 (proj2 (publish_to_aws_one_attempt env_quiet "plc/data" "A" 0
                                (Some [7; 42]) []))) eq_refl).
Defined.

(** ** Sessions *)

(** X14: in tcp.py's polling loop no two sessions are ever open at the
    same time, whatever the devices, the broker and the operator do; and
    a sweep that returns leaves no session open. *)
Theorem tcp_never_two_sessions_open (env : Env) (fuel : nat) (top : string)
    (plcs : list PLC) (h : Trace) :
  at_most_one_open [] (snd (Tcp.polling env fuel top plcs h)) = true
  /\ at_most_one_open [] (snd (Tcp.sweep env top plcs h)) = true
  /\ (returned (fst (Tcp.sweep env top plcs h)) = true ->
      open_after [] (snd (Tcp.sweep env top plcs h)) = []).
Proof.
  destruct (tcp_sessions_never_overlap env fuel top plcs h) as [Hpoll _].
  assert (Hsweep : tidy (Tcp.sweep env top plcs)).
  { apply tidy_for_each. intros plc. apply tcp_poll_plc_tidy. }
  destruct (Hsweep h) as [H1 H2].
  split; [exact Hpoll|]. split; [exact H1|exact H2].
Qed.

Lemma tcp_never_two_sessions_open_witness :
  returned (fst (Tcp.sweep env_one_down "plc/data" plcs_example [])) = true
  /\ open_after [] (snd (Tcp.sweep env_one_down "plc/data" plcs_example [])) = [].
Proof.
  split; [reflexivity|].
  exact (proj2 (proj2 (tcp_never_two_sessions_open env_one_down 1 "plc/data"
                         plcs_example [])) eq_refl).
Defined.

(** X15: [connect_and_read] of ip.py closes the client it made exactly
    once on every path, after its one connect attempt, whatever the
    device does and even when a read is interrupted: no session is left
    open when it ends, and over the whole device loop no two sessions are
    ever open at the same time. *)
Theorem ip_always_closes_its_session (env : Env) (dev : Ip.Device)
    (devices : list Ip.Device) (h : Trace) :
  let c := mkClient (count_clients h) (Ip.ip dev) (default 502 (Ip.port dev)) in
  closes (snd (Ip.connect_and_read env dev h)) = [c]
  /\ (exists o, connects (snd (Ip.connect_and_read env dev h)) = [(c, o)])
  /\ open_after [] (snd (Ip.connect_and_read env dev h)) = []
  /\ at_most_one_open [] (snd (Ip.run env devices h)) = true.
Proof.
  intros c.
  destruct (ip_session_closed_once env dev h) as [Hcl Hco]. fold c in Hcl, Hco.
  split; [exact Hcl|]. split; [exact Hco|]. split.
  - destruct (ip_connect_and_read_run env dev h) as (r & es & -> & H1 & _ & H3 & _).
    fold c in H3 |- *. set (o := modbus_connect env _ c) in *. cbn [snd].
    destruct (no_close_sessions es [] H1) as [Ha _].
    assert (Hop : opened es = match o with Returns true => [c] | _ => [] end).
    { rewrite opened_of_connects, H3. destruct o as [[]|]; reflexivity. }
    change (open_after [] ([EvNewClient c] ++ es
                           ++ [EvClose c; EvLog (LogDisconnected (Ip.name dev))]))
      with (open_after [] (es ++ [EvClose c; EvLog (LogDisconnected (Ip.name dev))])).
    rewrite open_after_app, Ha, Hop, app_nil_r.
    destruct o as [[]|]; cbn; rewrite ?client_eqb_refl; reflexivity.
  - apply ip_sessions_never_overlap.
Qed.

(** ** How the polling loop can end *)

Lemma for_each_raises {A} (body : A -> Prog ()) (P : PyExc -> Prop) :
  (forall x h e es, body x h = (Raises e, es) -> P e) ->
  forall l h e es, for_each l body h = (Raises e, es) -> P e.
Proof.
  intros Hb. induction l as [|x l IH]; intros h e es; [discriminate|].
  cbn [for_each]. rewrite run_bind.
  destruct (body x h) as [[[]|e0] es0] eqn:Hx.
  - destruct (for_each l body (h ++ es0)) as [r es1] eqn:Hl.
    intros [= -> <-]. exact (IH _ _ _ Hl).
  - intros [= <- <-]. exact (Hb _ _ _ _ Hx).
Qed.

Lemma tcp_handle_results_raise env top plc rs h e es :
  for_each rs (Tcp.handle_result env top plc) h = (Raises e, es) ->
  is_Exception e = false.
Proof.
  apply (for_each_raises (Tcp.handle_result env top plc) (fun e => is_Exception e = false)).
  clear. intros [[a v] err] h e es. unfold Tcp.handle_result.
  destruct (truthy err); [discriminate|].
  rewrite run_bind. unfold log at 1, emit at 1. cbv beta iota zeta.
  rewrite publish_to_aws_run. cbv zeta.
  destruct (mqtt_publish env _ top _ 0) as [b|e']; [discriminate|].
  destruct (is_Exception e') eqn:He; [discriminate|].
  intros [= <- <-]. exact He.
Qed.

Lemma tcp_reader_raises env client rds h e es :
  Tcp.read_holding_registers env client rds h = (Raises e, es) -> is_Exception e = false.
Proof.
  intros H.
  apply (loop_raises_interrupt (Tcp.read_loop env client) (tcp_attempt env client)
           tcp_classify) with (rds := rds) (acc := []) (h := h) (es := es).
  - reflexivity.
  - apply tcp_read_loop_cons.
  - apply tcp_classify_raises.
  - intros h' item. exists client, (Some 1), []. reflexivity.
  - exact H.
Qed.

Lemma tcp_poll_plc_raises env top plc h e es :
  connect_returns env ->
  Tcp.poll_plc env top plc h = (Raises e, es) -> is_Exception e = false.
Proof.
  intros Hc.
  set (c := mkClient (count_clients h) (ip plc) (port plc)).
  pose proof (Hc (h ++ [EvNewClient c]) c) as Hret.
  destruct (modbus_connect env (h ++ [EvNewClient c]) c) as [[]|e0] eqn:Hcon;
    [| |discriminate].
  - rewrite (tcp_poll_plc_connected env top plc h Hcon). fold c.
    destruct (Tcp.read_holding_registers env c (reads plc) _) as [[results|e1] es1] eqn:Hr.
    + destruct (for_each results _ _) as [[[]|e2] es2] eqn:Hh; [discriminate|].
      intros [= <- <-]. exact (tcp_handle_results_raise _ _ _ _ _ _ _ Hh).
    + intros [= <- <-]. exact (tcp_reader_raises _ _ _ _ _ _ Hr).
  - rewrite (tcp_poll_plc_refused env top plc h Hcon). discriminate.
Qed.

Lemma tcp_polling_raises env top plcs :
  connect_returns env -> sleep_only_interrupted env ->
  forall fuel h e es,
    Tcp.polling env fuel top plcs h = (Raises e, es) -> is_Exception e = false.
Proof.
  intros Hc Hs. unfold Tcp.polling.
  induction fuel as [|fuel IH]; intros h e es; [discriminate|].
  cbn [while_true]. rewrite run_bind. rewrite run_bind.
  destruct (Tcp.sweep env top plcs h) as [[[]|e0] es0] eqn:Hsw.
  - unfold Tcp.sleep at 1, call at 1.
    destruct (time_sleep env (h ++ es0) 5) as [[]|e1] eqn:Hsl.
    + cbn [app].
      match goal with |- context [while_true fuel ?b ?h'] =>
        destruct (while_true fuel b h') as [r es1] eqn:Hw
      end.
      intros [= -> <-]. exact (IH _ _ _ Hw).
    + intros [= <- <-]. exact (Hs _ _ _ Hsl).
  - intros [= <- <-].
    apply (for_each_raises (Tcp.poll_plc env top) (fun e => is_Exception e = false))
      with (l := plcs) (h := h) (es := es0); [|exact Hsw].
    intros plc h' e' es'. now apply tcp_poll_plc_raises.
Qed.

Lemma shutdown_run env e h :
  Tcp.shutdown env e h =
  let typed := console_input env (h ++ stopped_log e) "Press Enter to exit..." in
  (match typed with
   | Raises e' => Raises e'
   | Returns _ => match e with KeyboardInterrupt => Returns () | _ => Raises e end
   end,
   stopped_log e ++ [EvInput "Press Enter to exit..." typed]).
Proof.
  unfold Tcp.shutdown, try_finally.
  assert (Hbody : try_except (raise e)
                    (fun e' => match e' with
                               | KeyboardInterrupt => Some (log LogStopped)
                               | _ => None
                               end) h
                  = (match e with KeyboardInterrupt => Returns () | _ => Raises e end,
                     stopped_log e)) by (destruct e; reflexivity).
  rewrite Hbody. rewrite run_bind. unfold Tcp.press_enter, call. cbv zeta.
  destruct (console_input env (h ++ stopped_log e) "Press Enter to exit...");
    reflexivity.
Qed.

Lemma main_after_startup env fuel h aws plcs es :
  Tcp.startup env h = (Returns (aws, plcs), es) ->
  Tcp.main env fuel h =
  match Tcp.polling env fuel (topic aws) plcs (h ++ es) with
  | (Returns _, es') => (StillPolling, es ++ es')
  | (Raises e, es') =>
      let typed := console_input env ((h ++ es ++ es') ++ stopped_log e)
                     "Press Enter to exit..." in
      (end_after e typed,
       es ++ es' ++ stopped_log e ++ [EvInput "Press Enter to exit..." typed])
  end.
Proof.
  intros Hst. unfold Tcp.main. rewrite Hst.
  destruct (Tcp.polling env fuel (topic aws) plcs (h ++ es)) as [[[]|e] es']; [reflexivity|].
  rewrite shutdown_run. cbv zeta. unfold end_after.
  destruct (console_input env _ _); [destruct e|]; reflexivity.
Qed.

(** X16: once tcp.py has started, and as long as [connect()] answers and
    the pause is only cut short by an interrupt, nothing the reads and
    the broker do ends the script: it is still polling, or the loop was
    left by a [KeyboardInterrupt] or a [SystemExit].  Then the last
    thing the script does is to ask for Enter, and the answer decides
    how the process ends: when [input()] returns, with status 0 after
    [KeyboardInterrupt] and with the status of the [SystemExit]
    otherwise; when [input()] raises (a closed standard input, a second
    Ctrl-C), with that exception.  So a traceback can only show the
    exception [input()] raised. *)
Theorem tcp_ends_only_by_interrupt (env : Env) (fuel : nat) (h : Trace)
    (aws : AwsSettings) (plcs : list PLC) (es : Trace) :
  connect_returns env -> sleep_only_interrupted env ->
  Tcp.startup env h = (Returns (aws, plcs), es) ->
  fst (Tcp.main env fuel h) = StillPolling
  \/ exists e es' typed,
       Tcp.polling env fuel (topic aws) plcs (h ++ es) = (Raises e, es')
       /\ is_Exception e = false
       /\ typed = console_input env ((h ++ es ++ es') ++ stopped_log e)
                    "Press Enter to exit..."
       /\ snd (Tcp.main env fuel h)
          = es ++ es' ++ stopped_log e ++ [EvInput "Press Enter to exit..." typed]
       /\ fst (Tcp.main env fuel h)
          = match typed with
            | Raises e' => uncaught e'
            | Returns _ => match e with KeyboardInterrupt => Exited 0 | _ => uncaught e end
            end
       /\ (forall e', fst (Tcp.main env fuel h) = Traceback e' -> typed = Raises e').
Proof.
  intros Hc Hs Hst. rewrite (main_after_startup env fuel h aws plcs es Hst).
  destruct (Tcp.polling env fuel (topic aws) plcs (h ++ es)) as [[[]|e] es'] eqn:Hpoll.
  - left. reflexivity.
  - pose proof (tcp_polling_raises env (topic aws) plcs Hc Hs fuel (h ++ es) e es' Hpoll) as He.
    right. exists e, es', (console_input env ((h ++ es ++ es') ++ stopped_log e)
                            "Press Enter to exit...").
    split; [reflexivity|]. split; [exact He|]. split; [reflexivity|].
    split; [reflexivity|]. split; [reflexivity|].
    cbn [fst]. unfold end_after.
    destruct (console_input env _ _) as [line|e0].
    + destruct e; cbn in He |- *; discriminate.
    + intros e'. destruct e0; cbn; intros [= <-]; reflexivity.
Qed.

Lemma tcp_ends_only_by_interrupt_witness :
  connect_returns env_interrupted /\ sleep_only_interrupted env_interrupted
  /\ exists aws plcs es,
       Tcp.startup env_interrupted [] = (Returns (aws, plcs), es)
       /\ (fst (Tcp.main env_interrupted 3 []) = StillPolling
           \/ exists e es' typed,
                Tcp.polling env_interrupted 3 (topic aws) plcs ([] ++ es) = (Raises e, es')
                /\ is_Exception e = false
                /\ typed = console_input env_interrupted (([] ++ es ++ es') ++ stopped_log e)
                             "Press Enter to exit..."
                /\ snd (Tcp.main env_interrupted 3 [])
                   = es ++ es' ++ stopped_log e ++ [EvInput "Press Enter to exit..." typed]
                /\ fst (Tcp.main env_interrupted 3 [])
                   = match typed with
                     | Raises e' => uncaught e'
                     | Returns _ =>
                         match e with KeyboardInterrupt => Exited 0 | _ => uncaught e end
                     end
                /\ (forall e', fst (Tcp.main env_interrupted 3 []) = Traceback e' ->
                               typed = Raises e')).
Proof.
  assert (Hc : connect_returns env_interrupted) by oracle_fact.
  assert (Hs : sleep_only_interrupted env_interrupted) by (intros h s e; discriminate).
  destruct (Tcp.startup env_interrupted []) as [[[aws plcs]|e] es] eqn:Hst;
    [|vm_compute in Hst; discriminate Hst].
  split; [exact Hc|]. split; [exact Hs|]. exists aws, plcs, es. split; [reflexivity|].
  exact (tcp_ends_only_by_interrupt env_interrupted 3 [] aws plcs es Hc Hs Hst).
Defined.

(** When the operator's Ctrl-C has left the loop and Enter is pressed,
    the process ends with status 0. *)
Example interrupt_then_enter :
  fst (Tcp.main env_interrupted 3 []) = Exited 0.
Proof. vm_compute. reflexivity. Qed.

(** With the standard input closed the same interrupt ends in a
    traceback: [input()] raises [EOFError] inside [finally]. *)
Example interrupt_with_closed_stdin :
  fst (Tcp.main env_stdin_closed 3 [])
  = Traceback (OtherException "EOF when reading a line")
  /\ fatal (fst (Tcp.main env_stdin_closed 3 [])) = true.
Proof. vm_compute. split; reflexivity. Qed.

(** X17: the proviso on [connect()] is needed in tcp.py and not in ip.py.
    When [connect()] itself raises an exception deriving from
    [Exception], tcp.py lets it leave the loop over the PLCs, with no
    [close()] and no further PLC visited; [connect_and_read] of ip.py
    logs the error, closes the client and returns. *)
Theorem connect_exception_ends_tcp_not_ip (env : Env) (top : string) (plc : PLC)
    (dev : Ip.Device) (h : Trace) (e : PyExc) :
  is_Exception e = true ->
  let c := mkClient (count_clients h) (ip plc) (port plc) in
  let d := mkClient (count_clients h) (Ip.ip dev) (default 502 (Ip.port dev)) in
  let connecting := EvLog (LogConnecting (Ip.name dev) (Ip.ip dev)
                             (default 502 (Ip.port dev))) in
  (modbus_connect env (h ++ [EvNewClient c]) c = Raises e ->
   forall rest,
     Tcp.sweep env top (plc :: rest) h = (Raises e, [EvNewClient c; EvConnect c (Raises e)]))
  /\ (modbus_connect env ((h ++ [EvNewClient d]) ++ [connecting]) d = Raises e ->
      Ip.connect_and_read env dev h
      = (Returns (),
         [ EvNewClient d; connecting; EvConnect d (Raises e);
           EvLog (LogDeviceError (Ip.name dev) e);
           EvClose d; EvLog (LogDisconnected (Ip.name dev)) ])).
Proof.
  intros He c d connecting. split.
  - intros Hcon rest. unfold Tcp.sweep. cbn [for_each]. rewrite run_bind.
    rewrite (tcp_poll_plc_connect_raised env top plc h e Hcon). reflexivity.
  - intros Hcon. unfold Ip.connect_and_read. rewrite run_bind.
    unfold ModbusTcpClient at 1. fold d. cbv beta iota zeta.
    unfold try_finally, try_except, Ip.session. rewrite run_bind.
    unfold log at 1, emit at 1. cbv beta iota zeta. rewrite run_bind.
    unfold call at 1. fold connecting. rewrite Hcon. cbv beta iota zeta.
    rewrite He. reflexivity.
Qed.

Lemma connect_exception_ends_tcp_not_ip_witness :
  is_Exception (OtherException "port must be 0-65535.") = true
  /\ Tcp.sweep env_connect_raises "plc/data" plcs_example []
     = (Raises (OtherException "port must be 0-65535."),
        [ EvNewClient (mkClient 0 "10.0.0.5" 502);
          EvConnect (mkClient 0 "10.0.0.5" 502)
            (Raises (OtherException "port must be 0-65535.")) ])
  /\ fst (Tcp.main env_connect_raises 2 [])
     = Traceback (OtherException "port must be 0-65535.").
Proof.
  split; [reflexivity|]. split.
  - exact (proj1 (connect_exception_ends_tcp_not_ip env_connect_raises "plc/data"
                    (mkPLC "A" "10.0.0.5" 502 [mkReadSpec 0 2; mkReadSpec 1 2])
                    (Ip.mkDevice "A" "10.0.0.5" (Some 502) []) []
                    (OtherException "port must be 0-65535.") eq_refl)
             eq_refl
             [mkPLC "B" "10.0.0.6" 502 [mkReadSpec 0 2]; mkPLC "C" "10.0.0.7" 1502 []]).
  - vm_compute. reflexivity.
Defined.

(** ** No connection is kept *)

Lemma connects_concat_length (plcs : list PLC) (segs : list Trace) :
  Forall2 (fun _ seg => List.length (connects seg) = 1%nat
                        /\ List.length (closes seg) = 1%nat) plcs segs ->
  List.length (connects (List.concat segs)) = List.length plcs
  /\ List.length (closes (List.concat segs)) = List.length plcs.
Proof.
  induction 1 as [|plc seg plcs segs [H1 H2] _ [IH1 IH2]]; [split; reflexivity|].
  cbn [List.concat]. rewrite connects_app, closes_app, !length_app, H1, H2, IH1, IH2.
  split; reflexivity.
Qed.

Lemma tcp_sweep_counts env top plcs h :
  connect_returns env -> reads_catchable env -> publishes_catchable env ->
  exists es,
    Tcp.sweep env top plcs h = (Returns (), es)
    /\ List.length (connects es) = List.length plcs
    /\ List.length (closes es) = List.length plcs.
Proof.
  intros Hc Hr Hp.
  destruct (tcp_sweep_segments env top
              (fun _ seg => List.length (connects seg) = 1%nat
                            /\ List.length (closes seg) = 1%nat) Hc Hr Hp)
    with (plcs := plcs) (h := h) as (segs & Hrun & HF).
  - intros plc seg (c & b & -> & _ & _ & -> & _). split; reflexivity.
  - exists (List.concat segs). split; [exact Hrun|]. now apply connects_concat_length.
Qed.

(** X18: tcp.py keeps no connection from one sweep to the next: while
    nothing interrupts it, [n] turns of the loop make [n] times as many
    connect attempts as there are PLCs, and as many calls to [close()]. *)
Theorem every_sweep_reconnects (env : Env) (top : string) (plcs : list PLC)
    (fuel : nat) (h : Trace) :
  connect_returns env -> reads_catchable env -> publishes_catchable env ->
  sleep_returns env ->
  exists es,
    Tcp.polling env fuel top plcs h = (Returns (), es)
    /\ List.length (connects es) = (fuel * List.length plcs)%nat
    /\ List.length (closes es) = (fuel * List.length plcs)%nat.
Proof.
  intros Hc Hr Hp Hs. unfold Tcp.polling. revert h.
  induction fuel as [|fuel IH]; intros h.
  - exists []. repeat split.
  - cbn [while_true]. rewrite run_bind. rewrite run_bind.
    destruct (tcp_sweep_counts env top plcs h Hc Hr Hp) as (es0 & -> & H1 & H2).
    unfold Tcp.sleep at 1, call at 1.
    pose proof (Hs (h ++ es0) 5) as Hsl.
    destruct (time_sleep env (h ++ es0) 5) as [[]|e]; [|discriminate].
    match goal with |- context [while_true fuel ?b ?h'] =>
      destruct (IH h') as (es1 & -> & I1 & I2)
    end.
    eexists. split; [reflexivity|].
    rewrite !connects_app, !closes_app, !length_app, H1, H2, I1, I2. cbn. split; lia.
Qed.

Lemma every_sweep_reconnects_witness :
  connect_returns env_one_down /\ reads_catchable env_one_down
  /\ publishes_catchable env_one_down /\ sleep_returns env_one_down
  /\ exists es,
       Tcp.polling env_one_down 4 "plc/data" plcs_example [] = (Returns (), es)
       /\ List.length (connects es) = (4 * List.length plcs_example)%nat
       /\ List.length (closes es) = (4 * List.length plcs_example)%nat.
Proof.
  assert (Hc : connect_returns env_one_down) by oracle_fact.
  assert (Hr : reads_catchable env_one_down) by oracle_fact.
  assert (Hp : publishes_catchable env_one_down) by oracle_fact.
  assert (Hs : sleep_returns env_one_down) by oracle_fact.
  split; [exact Hc|]. split; [exact Hr|]. split; [exact Hp|]. split; [exact Hs|].
  exact (every_sweep_reconnects env_one_down "plc/data" plcs_example 4 [] Hc Hr Hp Hs).
Defined.

(** ** What the loops never do *)

Lemma emits_ret {A} P (a : A) : emits P (mret a : Prog A).
Proof. intros h. reflexivity. Qed.

Lemma emits_bind {A B} P (m : Prog A) (k : A -> Prog B) :
  emits P m -> (forall a, emits P (k a)) -> emits P (m ≫= k).
Proof.
  intros Hm Hk h. rewrite run_bind. specialize (Hm h).
  destruct (m h) as [[a|e] es]; cbn [snd] in *; [|exact Hm].
  specialize (Hk a (h ++ es)). destruct (k a (h ++ es)) as [r es']. cbn [snd] in *.
  rewrite forallb_app, Hm, Hk. reflexivity.
Qed.

Lemma emits_emit P ev : P ev = true -> emits P (emit ev).
Proof. intros H h. cbn. rewrite H. reflexivity. Qed.

Lemma emits_call {A} P (oracle : Trace -> Outcome A) (record : Outcome A -> Event) :
  (forall r, P (record r) = true) -> emits P (call oracle record).
Proof. intros H h. cbn. rewrite H. reflexivity. Qed.

Lemma emits_try_except {A} P (body : Prog A) (handler : PyExc -> option (Prog A)) :
  emits P body -> (forall e k, handler e = Some k -> emits P k) ->
  emits P (try_except body handler).
Proof.
  intros Hb Hh h. unfold try_except. specialize (Hb h).
  destruct (body h) as [[a|e] es]; cbn [snd] in *; [exact Hb|].
  destruct (handler e) as [k|] eqn:Hk; [|exact Hb].
  specialize (Hh e k Hk (h ++ es)). destruct (k (h ++ es)) as [r es']. cbn [snd] in *.
  rewrite forallb_app, Hb, Hh. reflexivity.
Qed.

Lemma emits_try_finally {A} P (body : Prog A) (final : Prog ()) :
  emits P body -> emits P final -> emits P (try_finally body final).
Proof.
  intros Hb Hf h. unfold try_finally. specialize (Hb h).
  destruct (body h) as [r es]. specialize (Hf (h ++ es)).
  destruct (final (h ++ es)) as [rf es']. cbn [snd] in *.
  rewrite forallb_app, Hb, Hf. reflexivity.
Qed.

Lemma emits_for_each {A} P (l : list A) (body : A -> Prog ()) :
  (forall x, emits P (body x)) -> emits P (for_each l body).
Proof.
  intros Hb. induction l as [|x l IH]; [apply emits_ret|].
  cbn [for_each]. apply emits_bind; [apply Hb|intros _; exact IH].
Qed.

Lemma emits_while_true P (fuel : nat) (body : Prog ()) :
  emits P body -> emits P (while_true fuel body).
Proof.
  intros Hb. induction fuel as [|fuel IH]; [apply emits_ret|].
  cbn [while_true]. apply emits_bind; [exact Hb|intros _; exact IH].
Qed.

Lemma emits_weaken {A} (P Q : Event -> bool) (p : Prog A) :
  (forall ev, P ev = true -> Q ev = true) -> emits P p -> emits Q p.
Proof.
  intros HPQ Hp h. specialize (Hp h). rewrite List.forallb_forall in Hp |- *.
  intros ev Hin. apply HPQ, Hp, Hin.
Qed.

(** Settle [emits] for a program built from the combinators. *)
Ltac emits_tac :=
  repeat first
    [ apply emits_ret
    | apply emits_emit; reflexivity
    | apply emits_call; intros; reflexivity
    | apply emits_bind; [|intros]
    | apply emits_try_finally
    | apply emits_try_except;
      [|let e := fresh "e" in let k := fresh "k" in let H := fresh "H" in
        intros e k H;
        repeat match type of H with
               | (if ?b then _ else _) = Some _ => destruct b
               end;
        try discriminate H; injection H as <-]
    | match goal with
      | |- emits _ (if ?b then _ else _) => destruct b
      | |- emits _ (let '(_, _) := ?x in _) => destruct x
      end ].

Lemma tcp_read_loop_emits env client rds :
  forall acc, emits modbus_or_log (Tcp.read_loop env client rds acc).
Proof.
  induction rds as [|item rest IH]; intros acc; cbn [Tcp.read_loop]; [apply emits_ret|].
  apply emits_bind; [|intros; apply IH].
  unfold Tcp.client_read. emits_tac.
Qed.

Lemma ip_read_loop_emits env client rds :
  forall acc, emits modbus_or_log (Ip.read_loop env client rds acc).
Proof.
  induction rds as [|item rest IH]; intros acc; cbn [Ip.read_loop]; [apply emits_ret|].
  apply emits_bind; [|intros; apply IH].
  unfold Ip.client_read. emits_tac.
Qed.

Lemma tcp_poll_plc_emits env top plc : emits polling_event (Tcp.poll_plc env top plc).
Proof.
  unfold Tcp.poll_plc, ModbusTcpClient, client_close, log.
  apply emits_bind; [intros h; reflexivity|]. intros client.
  apply emits_bind; [apply emits_call; reflexivity|]. intros ok.
  destruct ok; cbn [negb]; [|emits_tac].
  apply emits_bind; [apply emits_emit; reflexivity|]. intros _.
  apply emits_bind.
  { apply (emits_weaken modbus_or_log); [intros []; cbn; congruence|].
    apply tcp_read_loop_emits. }
  intros results. apply emits_bind; [|intros; emits_tac].
  apply emits_for_each. intros [[a v] err]. unfold Tcp.handle_result, log.
  destruct (truthy err); [emits_tac|].
  apply emits_bind; [emits_tac|]. intros _ h.
  rewrite publish_to_aws_run. cbv zeta.
  destruct (mqtt_publish env h top _ 0) as [b|e]; [reflexivity|].
  destruct (is_Exception e); reflexivity.
Qed.

Lemma no_event_of_kind {B} (P : Event -> bool) (f : Event -> option B) (es : Trace) :
  (forall ev, P ev = true -> f ev = None) -> forallb P es = true -> omap f es = [].
Proof.
  intros HP. induction es as [|ev es IH]; [reflexivity|].
  cbn [forallb]. intros H. apply andb_prop in H as [Hev Hes].
  change (ev :: es) with ([ev] ++ es). rewrite omap_app, (IH Hes), app_nil_r.
  cbn. rewrite (HP ev Hev). reflexivity.
Qed.

Lemma tcp_polling_emits env fuel top plcs : emits polling_event (Tcp.polling env fuel top plcs).
Proof.
  unfold Tcp.polling, Tcp.sweep, Tcp.sleep. apply emits_while_true.
  apply emits_bind; [|intros; emits_tac].
  apply emits_for_each. intros plc. apply tcp_poll_plc_emits.
Qed.

Lemma loops_polling_events env fuel top plcs h :
  mqtt_connects (snd (Tcp.polling env fuel top plcs h)) = [].
Proof.
  apply (no_event_of_kind polling_event); [|apply tcp_polling_emits].
  intros []; cbn; congruence.
Qed.

(** X19: the polling loop of tcp.py does nothing but log, open, read and
    close Modbus clients, publish and pause, whatever happens: it never
    reconnects to the broker, never configures it again and never asks
    for input.  The device loop of ip.py does nothing but log, open,
    read and close Modbus clients and pause: it never publishes. *)
Theorem loops_stay_within_their_calls (env : Env) (fuel : nat) (top : string)
    (plcs : list PLC) (devices : list Ip.Device) (h : Trace) :
  forallb polling_event (snd (Tcp.polling env fuel top plcs h)) = true
  /\ mqtt_connects (snd (Tcp.polling env fuel top plcs h)) = []
  /\ forallb ip_event (snd (Ip.run env devices h)) = true
  /\ publishes (snd (Ip.run env devices h)) = [].
Proof.
  assert (Htcp : emits polling_event (Tcp.polling env fuel top plcs))
    by apply tcp_polling_emits.
  assert (Hip : emits ip_event (Ip.run env devices)).
  { unfold Ip.run. apply emits_for_each. intros dev.
    apply emits_bind; [|intros; unfold Ip.sleep; emits_tac].
    unfold Ip.connect_and_read, ModbusTcpClient, client_close, log.
    apply emits_bind; [intros h'; reflexivity|]. intros client.
    apply emits_try_finally; [|emits_tac].
    apply emits_try_except;
      [|intros e k Hk; destruct (is_Exception e); [|discriminate];
        injection Hk as <-; emits_tac].
    unfold Ip.session, log.
    apply emits_bind; [emits_tac|]. intros _.
    apply emits_bind; [emits_tac|]. intros ok.
    destruct ok; cbn [negb]; [|emits_tac].
    apply emits_bind; [emits_tac|]. intros _.
    apply emits_bind.
    { apply (emits_weaken modbus_or_log); [intros []; cbn; congruence|].
      apply ip_read_loop_emits. }
    intros results. apply emits_for_each. intros [[a v] err].
    unfold Ip.print_result, log. destruct (truthy err); emits_tac. }
  split; [apply Htcp|]. split.
  - apply (no_event_of_kind polling_event); [|apply Htcp].
    intros []; cbn; congruence.
  - split; [apply Hip|].
    apply (no_event_of_kind ip_event); [|apply Hip].
    intros []; cbn; congruence.
Qed.

(** ** The broker connection *)

Lemma startup_run env h :
  let arch := EvLog (LogArchitecture (platform_architecture env)) in
  Tcp.startup env h =
  match Tcp.load_configuration env (h ++ [arch]) with
  | (Raises e, es0) =>
      (Raises (if is_config_error e then SystemExit 1 else e),
       [arch] ++ es0 ++ (if is_config_error e then [EvLog (LogConfigError e)] else []))
  | (Returns (aws, plcs), es0) =>
      match mqtt_connect env (((h ++ [arch]) ++ es0) ++ [EvMqttSetup aws]) with
      | Returns b =>
          (Returns (aws, plcs),
           [arch] ++ es0 ++ [EvMqttSetup aws; EvMqttConnect (Returns b);
                             EvLog (LogMqttConnected (thing_name aws))])
      | Raises e =>
          (Raises (if is_Exception e then SystemExit 1 else e),
           [arch] ++ es0 ++ [EvMqttSetup aws; EvMqttConnect (Raises e)]
           ++ (if is_Exception e then [EvLog (LogMqttConnectionFailed e)] else []))
      end
  end.
Proof.
  intros arch. unfold Tcp.startup. rewrite run_bind. unfold log at 1, emit at 1.
  cbv beta iota zeta. fold arch. rewrite run_bind. unfold try_except at 1.
  destruct (Tcp.load_configuration env (h ++ [arch])) as [[[aws plcs]|e0] es0].
  - rewrite run_bind. unfold emit at 1. cbv beta iota zeta. rewrite run_bind.
    unfold try_except at 1, Tcp.connect_broker. rewrite run_bind. unfold call at 1.
    destruct (mqtt_connect env (((h ++ [arch]) ++ es0) ++ [EvMqttSetup aws])) as [b|e1].
    + cbn. rewrite ?app_nil_r. reflexivity.
    + destruct e1; cbn; rewrite ?app_nil_r; reflexivity.
  - destruct e0; cbn; rewrite ?app_nil_r; reflexivity.
Qed.

Lemma logs_hold_no_call (es : Trace) :
  forallb is_log es = true -> publishes es = [] /\ mqtt_connects es = [].
Proof.
  intros H. split; apply (no_event_of_kind is_log); try exact H; intros []; cbn; congruence.
Qed.

(** X20: tcp.py connects to the broker at most once in the life of the
    process, and it publishes only after that connect has returned: the
    trace of any run splits into a first part without any publish, which
    holds every call to [connect()] of the MQTT client, and a second part
    without any such call; when the second part holds a publish, the
    first part holds exactly one connect, and it returned. *)
Theorem publishes_only_after_broker_connect (env : Env) (fuel : nat) (h : Trace) :
  exists before after,
    snd (Tcp.main env fuel h) = before ++ after
    /\ publishes before = []
    /\ mqtt_connects after = []
    /\ (List.length (mqtt_connects before) <= 1)%nat
    /\ (publishes after <> [] -> exists b, mqtt_connects before = [Returns b]).
Proof.
  pose proof (load_configuration_only_logs env
                (h ++ [EvLog (LogArchitecture (platform_architecture env))])) as Hlogs.
  pose proof (startup_run env h) as Hst. cbv zeta in Hst.
  destruct (Tcp.load_configuration env _) as [[[aws plcs]|e0] es0]; cbn [snd] in Hlogs;
    destruct (logs_hold_no_call es0 Hlogs) as [Hp0 Hm0].
  - destruct (mqtt_connect env _) as [b|e1].
    + rewrite (main_after_startup env fuel h aws plcs _ Hst).
      pose proof (loops_polling_events env fuel (topic aws) plcs
                    (h ++ [EvLog (LogArchitecture (platform_architecture env))] ++ es0
                       ++ [EvMqttSetup aws; EvMqttConnect (Returns b);
                           EvLog (LogMqttConnected (thing_name aws))])) as Hpoll.
      set (before := [EvLog (LogArchitecture (platform_architecture env))] ++ es0
                     ++ [EvMqttSetup aws; EvMqttConnect (Returns b);
                         EvLog (LogMqttConnected (thing_name aws))]) in *.
      assert (Hbefore : publishes before = [] /\ mqtt_connects before = [Returns b]).
      { unfold before, publishes, mqtt_connects in *.
        rewrite !omap_app, Hp0, Hm0. split; reflexivity. }
      destruct Hbefore as [Hb1 Hb2].
      destruct (Tcp.polling env fuel (topic aws) plcs (h ++ before)) as [[[]|e] es'];
        cbn [snd] in Hpoll |- *.
      * exists before, es'. split; [reflexivity|].
        split; [exact Hb1|]. split; [exact Hpoll|]. rewrite Hb2.
        split; [cbn; lia|]. intros _. exists b. reflexivity.
      * exists before,
          (es' ++ stopped_log e
               ++ [EvInput "Press Enter to exit..."
                     (console_input env ((h ++ before ++ es') ++ stopped_log e)
                        "Press Enter to exit...")]).
        split; [reflexivity|]. split; [exact Hb1|].
        split.
        { unfold mqtt_connects in *. rewrite !omap_app, Hpoll. destruct e; reflexivity. }
        rewrite Hb2. split; [cbn; lia|]. intros _. exists b. reflexivity.
    + exists (snd (Tcp.main env fuel h)), []. unfold Tcp.main. rewrite Hst. cbn [snd].
      rewrite app_nil_r. unfold publishes, mqtt_connects in *.
      rewrite !omap_app, Hp0, Hm0.
      split; [reflexivity|]. split; [destruct (is_Exception e1); reflexivity|].
      split; [reflexivity|]. split; [destruct (is_Exception e1); cbn; lia|].
      intros H. now destruct H.
  - exists (snd (Tcp.main env fuel h)), []. unfold Tcp.main. rewrite Hst. cbn [snd].
    rewrite app_nil_r. unfold publishes, mqtt_connects in *.
    rewrite !omap_app, Hp0, Hm0.
    split; [reflexivity|]. split; [destruct (is_config_error e0); reflexivity|].
    split; [reflexivity|]. split; [destruct (is_config_error e0); cbn; lia|].
    intros H. now destruct H.
Qed.
